(** * Per-flow serialization and trace tracking of the pcap transformer

    A shallow embedding of [pcap-cli/internal/transformer/flow_mutex.go]:
    the flow carrier, the traced-flow records, the three-level index
    (flow -> stream -> sequence -> traced flow) and the lock / unlock
    protocol built on them.

    Go pointers are locations of explicit heaps, atomics are fields read
    and written in one step, closures are functions over the variables
    they capture, and a function that may panic returns an [outcome].
    Debug logging ([fm.log]) has no effect on the state modelled here and
    is left out. *)

From stdpp Require Import gmap strings list fin_maps.
From Stdlib Require Import ZArith Lia.

Local Open Scope Z_scope.

(** ** Machine integers *)

(** [int64] as used by [atomic.Int64]: two's complement wrap-around. *)
Definition wrap64 (z : Z) : Z := (z + 2 ^ 63) mod 2 ^ 64 - 2 ^ 63.

(** [int32], the counter half of [sync.WaitGroup]'s state word. *)
Definition wrap32 (z : Z) : Z := (z + 2 ^ 31) mod 2 ^ 32 - 2 ^ 31.

(** ** TCP flags *)

(** Modelled from the spec: the constants [tcpFin] ... [tcpAck] are
    declared in a file of the package that is not part of this
    development; the interface section gives the 8-bit encoding, from the
    most to the least significant bit: CWR, ECE, URG, ACK, PSH, RST, SYN,
    FIN. *)
Definition tcpFin : Z := 1.
Definition tcpSyn : Z := 2.
Definition tcpRst : Z := 4.
Definition tcpPsh : Z := 8.
Definition tcpAck : Z := 16.

(** Modelled from the spec: [isConnectionTermination] is declared in a
    file of the package that is not part of this development; the
    interface section defines connection termination as
    [(flags & (FIN | RST)) <> 0]. *)
Definition isConnectionTermination (tcpFlags : Z) : bool :=
  negb (Z.land tcpFlags (Z.lor tcpFin tcpRst) =? 0).

(** ** Timing constants (nanoseconds, as [time.Duration]) *)

Definition second : Z := 1000000000.
Definition carrierDeadline : Z := 600 * second.
Definition trackingDeadline : Z := 10 * second.

(** ** Data model *)

Record traceAndSpan := {
  traceID : string;
  spanID : string;
  streamID : Z;
}.

Record httpRequest := {
  timestamp : Z;
  url : string;
  method : string;
}.

(** A context is identified by a number; the state records which
    contexts have been cancelled. *)
Definition context := nat.

Record flowLockCarrier := {
  mu : bool;                  (* sync.Mutex: [true] while locked *)
  wg : Z;                     (* sync.WaitGroup counter *)
  serial : Z;
  flowID : Z;
  released : bool;            (* atomic.Bool *)
  createdAt : Z;
  lastLockedAt : option Z;
  lastUnlockedAt : option Z;
  isHTTP2 : bool;
  activeRequests : Z;         (* atomic.Int64 *)
}.

(** The goroutine started by an expired [time.AfterFunc] timer runs the
    unblocker callback; its position in the callback is recorded. *)
Inductive unblocker_pc :=
| AtCAS       (* started, [isActive.CompareAndSwap] not yet executed *)
| AtMutex     (* won the CAS, at [lock.mu.Lock()] *)
| Finished.   (* callback returned *)

Inductive timer_phase :=
| Armed                       (* scheduled; [Stop] reports [true] *)
| Stopped                     (* [Stop] took effect before expiry *)
| Expired (pc : unblocker_pc).

Record timer := {
  due : Z;
  phase : timer_phase;
}.

Record TracedFlow := {
  tf_serial : Z;
  tf_flowID : Z;
  tf_lock : nat;              (* back reference to the carrier *)
  ts : traceAndSpan;
  isActive : bool;            (* atomic.Bool *)
  unblocker : timer;
}.

(** [skipmap.Uint32Map[*TracedFlow]]: entries in ascending key order. *)
Abbreviation STTFM := (list (Z * nat)).
(** [haxmap.Map[uint32, STTFM]] *)
Abbreviation STSM := (gmap Z (list (Z * nat))).

(** A pending [time.AfterFunc(trackingDeadline, untrack)] of the release
    winner. *)
Record untrackTimer := {
  ut_due : Z;
  ut_flowID : Z;
  ut_carrier : nat;
}.

Record fm_state := {
  now : Z;                                   (* time.Now() *)
  cancelled : gset nat;                      (* contexts that are done *)
  MutexMap : gmap Z nat;                     (* flow -> *flowLockCarrier *)
  carriers : gmap nat flowLockCarrier;       (* heap of carriers *)
  flowToStreamToSequenceMap : gmap Z nat;    (* flow -> STSM object *)
  streamMaps : gmap nat (gmap Z (list (Z * nat))); (* heap of STSMs *)
  tracedFlows : gmap nat TracedFlow;         (* heap of traced flows *)
  traceToHttpRequestMap : gmap string httpRequest;
  untrackTimers : list untrackTimer;
}.

Definition set_now (f : Z -> Z) (s : fm_state) : fm_state :=
  {| now := f (now s); cancelled := cancelled s; MutexMap := MutexMap s;
     carriers := carriers s;
     flowToStreamToSequenceMap := flowToStreamToSequenceMap s;
     streamMaps := streamMaps s; tracedFlows := tracedFlows s;
     traceToHttpRequestMap := traceToHttpRequestMap s;
     untrackTimers := untrackTimers s |}.

Definition set_cancelled (f : gset nat -> gset nat) (s : fm_state) : fm_state :=
  {| now := now s; cancelled := f (cancelled s); MutexMap := MutexMap s;
     carriers := carriers s;
     flowToStreamToSequenceMap := flowToStreamToSequenceMap s;
     streamMaps := streamMaps s; tracedFlows := tracedFlows s;
     traceToHttpRequestMap := traceToHttpRequestMap s;
     untrackTimers := untrackTimers s |}.

Definition set_MutexMap (f : gmap Z nat -> gmap Z nat) (s : fm_state) : fm_state :=
  {| now := now s; cancelled := cancelled s; MutexMap := f (MutexMap s);
     carriers := carriers s;
     flowToStreamToSequenceMap := flowToStreamToSequenceMap s;
     streamMaps := streamMaps s; tracedFlows := tracedFlows s;
     traceToHttpRequestMap := traceToHttpRequestMap s;
     untrackTimers := untrackTimers s |}.

Definition set_carriers (f : gmap nat flowLockCarrier -> gmap nat flowLockCarrier)
    (s : fm_state) : fm_state :=
  {| now := now s; cancelled := cancelled s; MutexMap := MutexMap s;
     carriers := f (carriers s);
     flowToStreamToSequenceMap := flowToStreamToSequenceMap s;
     streamMaps := streamMaps s; tracedFlows := tracedFlows s;
     traceToHttpRequestMap := traceToHttpRequestMap s;
     untrackTimers := untrackTimers s |}.

Definition set_index (f : gmap Z nat -> gmap Z nat) (s : fm_state) : fm_state :=
  {| now := now s; cancelled := cancelled s; MutexMap := MutexMap s;
     carriers := carriers s;
     flowToStreamToSequenceMap := f (flowToStreamToSequenceMap s);
     streamMaps := streamMaps s; tracedFlows := tracedFlows s;
     traceToHttpRequestMap := traceToHttpRequestMap s;
     untrackTimers := untrackTimers s |}.

Definition set_streamMaps
    (f : gmap nat (gmap Z (list (Z * nat))) -> gmap nat (gmap Z (list (Z * nat))))
    (s : fm_state) : fm_state :=
  {| now := now s; cancelled := cancelled s; MutexMap := MutexMap s;
     carriers := carriers s;
     flowToStreamToSequenceMap := flowToStreamToSequenceMap s;
     streamMaps := f (streamMaps s); tracedFlows := tracedFlows s;
     traceToHttpRequestMap := traceToHttpRequestMap s;
     untrackTimers := untrackTimers s |}.

Definition set_tracedFlows (f : gmap nat TracedFlow -> gmap nat TracedFlow)
    (s : fm_state) : fm_state :=
  {| now := now s; cancelled := cancelled s; MutexMap := MutexMap s;
     carriers := carriers s;
     flowToStreamToSequenceMap := flowToStreamToSequenceMap s;
     streamMaps := streamMaps s; tracedFlows := f (tracedFlows s);
     traceToHttpRequestMap := traceToHttpRequestMap s;
     untrackTimers := untrackTimers s |}.

Definition set_registry
    (f : gmap string httpRequest -> gmap string httpRequest)
    (s : fm_state) : fm_state :=
  {| now := now s; cancelled := cancelled s; MutexMap := MutexMap s;
     carriers := carriers s;
     flowToStreamToSequenceMap := flowToStreamToSequenceMap s;
     streamMaps := streamMaps s; tracedFlows := tracedFlows s;
     traceToHttpRequestMap := f (traceToHttpRequestMap s);
     untrackTimers := untrackTimers s |}.

Definition set_untrackTimers (f : list untrackTimer -> list untrackTimer)
    (s : fm_state) : fm_state :=
  {| now := now s; cancelled := cancelled s; MutexMap := MutexMap s;
     carriers := carriers s;
     flowToStreamToSequenceMap := flowToStreamToSequenceMap s;
     streamMaps := streamMaps s; tracedFlows := tracedFlows s;
     traceToHttpRequestMap := traceToHttpRequestMap s;
     untrackTimers := f (untrackTimers s) |}.

(** The engine right after [newFlowMutex]. *)
Definition newFlowMutex : fm_state :=
  {| now := 0; cancelled := ∅; MutexMap := ∅; carriers := ∅;
     flowToStreamToSequenceMap := ∅; streamMaps := ∅; tracedFlows := ∅;
     traceToHttpRequestMap := ∅; untrackTimers := [] |}.

(** ** Computations that can panic *)

Inductive outcome (A : Type) : Type :=
| Returned (a : A)
| Panicked          (* a Go panic is propagating *)
| Fatal.            (* runtime throw: cannot be recovered *)
Arguments Returned {A} a.
Arguments Panicked {A}.
Arguments Fatal {A}.

Definition M (A : Type) : Type := fm_state -> outcome A * fm_state.

Definition ret {A} (a : A) : M A := fun s => (Returned a, s).

Definition bind {A B} (m : M A) (k : A -> M B) : M B := fun s =>
  match m s with
  | (Returned a, s1) => k a s1
  | (Panicked, s1) => (Panicked, s1)
  | (Fatal, s1) => (Fatal, s1)
  end.

Definition panic {A} : M A := fun s => (Panicked, s).
Definition throw {A} : M A := fun s => (Fatal, s).
Definition gets {A} (f : fm_state -> A) : M A := fun s => (Returned (f s), s).
Definition modify (f : fm_state -> fm_state) : M unit := fun s => (Returned tt, f s).

Declare Scope go_scope.
Delimit Scope go_scope with go.
Notation "'do' x <- m ; k" := (bind m (fun x => k))
  (at level 10, x name, m at level 100, k at level 200) : go_scope.
Notation "'do' ' p <- m ; k" := (bind m (fun x => let 'p := x in k))
  (at level 10, p pattern, m at level 100, k at level 200) : go_scope.
Notation "'run' m ; k" := (bind m (fun _ => k))
  (at level 10, m at level 100, k at level 200) : go_scope.
Local Open Scope go_scope.

(** [defer d(); body]: [d] runs when [body] returns or panics.  [d] does
    not call [recover] in its own frame, so a panic of [body] keeps
    propagating after [d] has run. *)
Definition defer_ {A} (d : M unit) (body : M A) : M A := fun s =>
  match body s with
  | (Returned a, s1) =>
      match d s1 with
      | (Returned _, s2) => (Returned a, s2)
      | (Panicked, s2) => (Panicked, s2)
      | (Fatal, s2) => (Fatal, s2)
      end
  | (Panicked, s1) =>
      match d s1 with
      | (Fatal, s2) => (Fatal, s2)
      | (_, s2) => (Panicked, s2)
      end
  | (Fatal, s1) => (Fatal, s1)
  end.

(** [defer func() { recover() }(); body] for a [body] without results:
    a panic raised in this frame is swallowed. *)
Definition defer_recover (body : M unit) : M unit := fun s =>
  match body s with
  | (Panicked, s1) => (Returned tt, s1)
  | r => r
  end.

(** ** Pointers *)

Definition loadCarrier (c : nat) : M flowLockCarrier := fun s =>
  match carriers s !! c with
  | Some x => (Returned x, s)
  | None => (Panicked, s)
  end.

Definition storeCarrier (c : nat) (x : flowLockCarrier) : M unit :=
  modify (set_carriers (<[c := x]>)).

(** [carrier.field = ...]: a plain write to one field of the carrier. *)
Definition updateCarrier (c : nat) (f : flowLockCarrier -> flowLockCarrier) : M unit :=
  do x <- loadCarrier c; storeCarrier c (f x).

Definition loadTracedFlow (t : nat) : M TracedFlow := fun s =>
  match tracedFlows s !! t with
  | Some x => (Returned x, s)
  | None => (Panicked, s)
  end.

Definition storeTracedFlow (t : nat) (x : TracedFlow) : M unit :=
  modify (set_tracedFlows (<[t := x]>)).

Definition loadStreamMap (l : nat) : M (gmap Z (list (Z * nat))) := fun s =>
  match streamMaps s !! l with
  | Some m => (Returned m, s)
  | None => (Panicked, s)
  end.

Definition storeStreamMap (l : nat) (m : gmap Z (list (Z * nat))) : M unit :=
  modify (set_streamMaps (<[l := m]>)).

(** ** Carrier fields *)

Definition with_mu (b : bool) (x : flowLockCarrier) : flowLockCarrier :=
  {| mu := b; wg := wg x; serial := serial x; flowID := flowID x;
     released := released x; createdAt := createdAt x;
     lastLockedAt := lastLockedAt x; lastUnlockedAt := lastUnlockedAt x;
     isHTTP2 := isHTTP2 x; activeRequests := activeRequests x |}.

Definition with_wg (v : Z) (x : flowLockCarrier) : flowLockCarrier :=
  {| mu := mu x; wg := v; serial := serial x; flowID := flowID x;
     released := released x; createdAt := createdAt x;
     lastLockedAt := lastLockedAt x; lastUnlockedAt := lastUnlockedAt x;
     isHTTP2 := isHTTP2 x; activeRequests := activeRequests x |}.

Definition with_released (b : bool) (x : flowLockCarrier) : flowLockCarrier :=
  {| mu := mu x; wg := wg x; serial := serial x; flowID := flowID x;
     released := b; createdAt := createdAt x;
     lastLockedAt := lastLockedAt x; lastUnlockedAt := lastUnlockedAt x;
     isHTTP2 := isHTTP2 x; activeRequests := activeRequests x |}.

Definition with_lastLockedAt (t : Z) (x : flowLockCarrier) : flowLockCarrier :=
  {| mu := mu x; wg := wg x; serial := serial x; flowID := flowID x;
     released := released x; createdAt := createdAt x;
     lastLockedAt := Some t; lastUnlockedAt := lastUnlockedAt x;
     isHTTP2 := isHTTP2 x; activeRequests := activeRequests x |}.

Definition with_lastUnlockedAt (t : Z) (x : flowLockCarrier) : flowLockCarrier :=
  {| mu := mu x; wg := wg x; serial := serial x; flowID := flowID x;
     released := released x; createdAt := createdAt x;
     lastLockedAt := lastLockedAt x; lastUnlockedAt := Some t;
     isHTTP2 := isHTTP2 x; activeRequests := activeRequests x |}.

Definition with_isHTTP2 (b : bool) (x : flowLockCarrier) : flowLockCarrier :=
  {| mu := mu x; wg := wg x; serial := serial x; flowID := flowID x;
     released := released x; createdAt := createdAt x;
     lastLockedAt := lastLockedAt x; lastUnlockedAt := lastUnlockedAt x;
     isHTTP2 := b; activeRequests := activeRequests x |}.

Definition with_activeRequests (v : Z) (x : flowLockCarrier) : flowLockCarrier :=
  {| mu := mu x; wg := wg x; serial := serial x; flowID := flowID x;
     released := released x; createdAt := createdAt x;
     lastLockedAt := lastLockedAt x; lastUnlockedAt := lastUnlockedAt x;
     isHTTP2 := isHTTP2 x; activeRequests := v |}.

Definition with_isActive (b : bool) (x : TracedFlow) : TracedFlow :=
  {| tf_serial := tf_serial x; tf_flowID := tf_flowID x; tf_lock := tf_lock x;
     ts := ts x; isActive := b; unblocker := unblocker x |}.

Definition with_phase (p : timer_phase) (x : TracedFlow) : TracedFlow :=
  {| tf_serial := tf_serial x; tf_flowID := tf_flowID x; tf_lock := tf_lock x;
     ts := ts x; isActive := isActive x;
     unblocker := {| due := due (unblocker x); phase := p |} |}.

(** ** Primitives of [sync], [sync/atomic], [time] and [context] *)

(** [carrier.activeRequests.Load()] *)
Definition activeRequests_Load (c : nat) : M Z :=
  do x <- loadCarrier c; ret (activeRequests x).

(** [carrier.activeRequests.Add(delta)]: returns the new value. *)
Definition activeRequests_Add (c : nat) (delta : Z) : M Z :=
  do x <- loadCarrier c;
  let v := wrap64 (activeRequests x + delta) in
  run storeCarrier c (with_activeRequests v x);
  ret v.

(** [carrier.released.CompareAndSwap(old, new)] *)
Definition released_CompareAndSwap (c : nat) (old new : bool) : M bool :=
  do x <- loadCarrier c;
  if Bool.eqb (released x) old
  then run storeCarrier c (with_released new x); ret true
  else ret false.

(** [wg.Add(delta)]: the counter is updated first and the call panics
    when the result is negative. *)
Definition wg_Add (c : nat) (delta : Z) : M unit :=
  do x <- loadCarrier c;
  let v := wrap32 (wg x + delta) in
  run storeCarrier c (with_wg v x);
  if v <? 0 then panic else ret tt.

(** [wg.Done()] is [wg.Add(-1)]. *)
Definition wg_Done (c : nat) : M unit := wg_Add c (-1).

(** [mu.Unlock()]: unlocking an unlocked mutex is a fatal error. *)
Definition mu_Unlock (c : nat) : M unit :=
  do x <- loadCarrier c;
  if mu x then storeCarrier c (with_mu false x) else throw.

(** [mu.Lock()] once the mutex is free; a goroutine that finds it held
    is blocked and takes no step. *)
Definition mu_Lock (c : nat) : M unit := updateCarrier c (with_mu true).

(** [mu.TryLock()] *)
Definition mu_TryLock (c : nat) : M bool :=
  do x <- loadCarrier c;
  if mu x then ret false
  else run storeCarrier c (with_mu true x); ret true.

(** [tf.isActive.CompareAndSwap(old, new)] *)
Definition isActive_CompareAndSwap (t : nat) (old new : bool) : M bool :=
  do x <- loadTracedFlow t;
  if Bool.eqb (isActive x) old
  then run storeTracedFlow t (with_isActive new x); ret true
  else ret false.

(** [tf.unblocker.Stop()]: [true] when the call stops the timer, [false]
    when the timer has already expired or been stopped. *)
Definition unblocker_Stop (t : nat) : M bool :=
  do x <- loadTracedFlow t;
  match phase (unblocker x) with
  | Armed => run storeTracedFlow t (with_phase Stopped x); ret true
  | _ => ret false
  end.

(** [time.Now()] *)
Definition time_Now : M Z := gets now.

(** The [case <-ctx.Done()] arm of a [select] with a [default]. *)
Definition ctx_Done (ctx : context) : M bool :=
  gets (fun s => bool_decide (ctx ∈ cancelled s)).

(** ** The sorted inner map *)

(** [skipmap.Store]: insert in ascending key order, replacing the value
    of an existing key. *)
Fixpoint skipmap_Store (k : Z) (v : nat) (m : list (Z * nat)) : list (Z * nat) :=
  match m with
  | [] => [(k, v)]
  | (k', v') :: m' =>
      if k <? k' then (k, v) :: m
      else if k =? k' then (k, v) :: m'
      else (k', v') :: skipmap_Store k v m'
  end.

(** [skipmap.Delete] *)
Fixpoint skipmap_Delete (k : Z) (m : list (Z * nat)) : list (Z * nat) :=
  match m with
  | [] => []
  | (k', v') :: m' =>
      if k =? k' then m' else (k', v') :: skipmap_Delete k m'
  end.

(** The callback handed to [sttsm.Range] by [getTracedFlow], applied to
    one entry: [(tracedFlow, lastTracedFlow)] are the two captured
    variables. *)
Definition range_visit (ref : Z) (acc : option nat * option nat)
    (entry : Z * nat) : option nat * option nat :=
  let '(tracedFlow, _) := acc in
  let '(r, tf) := entry in
  ((if ref >? r then Some tf else tracedFlow), Some tf).

(** ** [getTracedFlow] (flow_mutex.go, lines 202-250) *)

Definition TracedFlowProvider : Type := Z -> fm_state -> option nat * bool.

Definition getTracedFlow (flowID seq ack : Z) (local : bool)
    (s : fm_state) : TracedFlowProvider * bool :=
  let ref := if local then ack else seq in
  match flowToStreamToSequenceMap s !! flowID with
  | None => ((fun _ _ => (None, false)), false)
  | Some streamToSequenceMap =>
      ((fun stream s' =>
          match streamMaps s' !! streamToSequenceMap with
          | None => (None, false)
          | Some m =>
              match m !! stream with
              | Some sttsm =>
                  let '(tracedFlow, lastTracedFlow) :=
                    fold_left (range_visit ref) sttsm (None, None) in
                  (match tracedFlow with
                   | None => lastTracedFlow
                   | Some _ => tracedFlow
                   end, true)
              | None => (None, false)
              end
          end), true)
  end.

(** ** [trackConnection] (lines 252-349) *)

(** [haxmap.GetOrCompute] on a stream map. *)
Definition STSM_GetOrCompute (l : nat) (key : Z)
    (valueFn : M (list (Z * nat))) : M (list (Z * nat) * bool) :=
  do m <- loadStreamMap l;
  match m !! key with
  | Some v => ret (v, true)
  | None =>
      do v <- valueFn;
      do m' <- loadStreamMap l;
      run storeStreamMap l (<[key := v]> m');
      ret (v, false)
  end.

Definition sequenceToTracedFlowMapProvider (isLocal : bool)
    (streamID seq ack : Z) (tf : nat) (streamToSequenceMap : nat)
    : M (list (Z * nat)) :=
  do '(sttfm, _) <-
    STSM_GetOrCompute streamToSequenceMap streamID
      (ret (skipmap_Store (if isLocal then ack else seq) tf []));
  ret sttfm.

(** [haxmap.New[uint32, STTFM]()] *)
Definition newStreamMap : M nat := fun s =>
  let l := fresh (dom (streamMaps s)) in
  (Returned l, set_streamMaps (<[l := ∅]>) s).

(** [haxmap.GetOrCompute] on the outer map. *)
Definition FTSTSM_GetOrCompute (key : Z) (valueFn : M nat) : M (nat * bool) :=
  do idx <- gets flowToStreamToSequenceMap;
  match idx !! key with
  | Some l => ret (l, true)
  | None =>
      do l <- valueFn;
      run modify (set_index (<[key := l]>));
      ret (l, false)
  end.

(** Allocation of the [TracedFlow] together with its armed unblocker. *)
Definition newTracedFlow (lock : nat) (serial flowID : Z)
    (ts0 : traceAndSpan) : M nat := fun s =>
  let t := fresh (dom (tracedFlows s)) in
  (Returned t,
   set_tracedFlows
     (<[t := {| tf_serial := serial; tf_flowID := flowID; tf_lock := lock;
                ts := ts0; isActive := true;
                unblocker := {| due := now s + trackingDeadline;
                                phase := Armed |} |}]>) s).

(** The statement [if streamToSequenceMap, loaded := ... { ... }] of
    [trackConnection], which files [tf] in the three-level index. *)
Definition indexTracedFlow (flowID seq ack : Z) (local : bool)
    (ts1 : traceAndSpan) (tf : nat) : M unit :=
  do '(streamToSequenceMap, loaded) <-
    FTSTSM_GetOrCompute flowID
      (do m <- newStreamMap;
       run sequenceToTracedFlowMapProvider local (streamID ts1) seq ack tf m;
       ret m);
  if loaded : bool then
    do '(_, loaded') <-
      STSM_GetOrCompute streamToSequenceMap (streamID ts1)
        (sequenceToTracedFlowMapProvider local (streamID ts1)
           seq ack tf streamToSequenceMap);
    if loaded' : bool then
      run sequenceToTracedFlowMapProvider local (streamID ts1)
            seq ack tf streamToSequenceMap;
      ret tt
    else ret tt
  else ret tt.

Definition trackConnection (lock : nat) (serial flowID tcpFlags seq ack : Z)
    (local : bool) (ts0 : option traceAndSpan) : M (option nat * bool) :=
  match ts0 with
  | None => ret (None, false)
  | Some ts1 =>
      do tf <- newTracedFlow lock serial flowID ts1;
      run indexTracedFlow flowID seq ack local ts1 tf;
      ret (Some tf, true)
  end.

(** ** The unblocker of a traced flow (lines 305-324) *)

(** The part of the [time.AfterFunc] callback of [trackConnection] that
    runs once [lock.mu.Lock()] has returned. *)
Definition unblocker_critical (lock : nat) : M unit :=
  defer_ (mu_Unlock lock)
    (do v <- activeRequests_Add lock (-1);
     if v >=? 0 then wg_Done lock else ret tt).

(** The runtime starts the callback once the deadline has passed. *)
Definition unblocker_expire (t : nat) (s : fm_state) : option fm_state :=
  match tracedFlows s !! t with
  | Some x =>
      match phase (unblocker x) with
      | Armed =>
          if due (unblocker x) <=? now s
          then Some (set_tracedFlows (<[t := with_phase (Expired AtCAS) x]>) s)
          else None
      | _ => None
      end
  | None => None
  end.

(** First statement of the callback:
    [if !isActive.CompareAndSwap(true, false) { return }]. *)
Definition unblocker_cas (t : nat) (s : fm_state) : option fm_state :=
  match tracedFlows s !! t with
  | Some x =>
      match phase (unblocker x) with
      | Expired AtCAS =>
          Some (set_tracedFlows
                  (<[t := if isActive x
                          then with_phase (Expired AtMutex) (with_isActive false x)
                          else with_phase (Expired Finished) x]>) s)
      | _ => None
      end
  | None => None
  end.

(** Rest of the callback; it is blocked while the carrier mutex is held. *)
Definition unblocker_run (t : nat) (s : fm_state) : option (outcome unit * fm_state) :=
  match tracedFlows s !! t with
  | Some x =>
      match phase (unblocker x) with
      | Expired AtMutex =>
          match carriers s !! tf_lock x with
          | Some c =>
              if mu c then None
              else Some ((run mu_Lock (tf_lock x);
                          run unblocker_critical (tf_lock x);
                          storeTracedFlow t (with_phase (Expired Finished) x)) s)
          | None => None
          end
      | _ => None
      end
  | None => None
  end.

(** ** [untrackConnection] (lines 351-405) *)

Fixpoint forM_ {A} (l : list A) (f : A -> M unit) : M unit :=
  match l with
  | [] => ret tt
  | a :: l' => run f a; forM_ l' f
  end.

(** Body of the callback given to [sttsm.Range]. *)
Definition untrack_flow (tf : nat) : M unit :=
  do won <- isActive_CompareAndSwap tf true false;
  run (if won then do _ <- unblocker_Stop tf; ret tt else ret tt);
  do x <- loadTracedFlow tf;
  modify (set_registry (delete (traceID (ts x)))).

(** Body of the callback given to [ftsm.ForEach]: visit the entries in
    ascending order, then delete the collected sequences last to first. *)
Definition untrack_stream (ftsm : nat) (stream : Z) (sttsm : list (Z * nat)) : M unit :=
  run forM_ sttsm (fun entry => untrack_flow (snd entry));
  do m <- loadStreamMap ftsm;
  storeStreamMap ftsm
    (<[stream := fold_left (fun acc k => skipmap_Delete k acc)
                   (rev (map fst sttsm)) sttsm]> m).

(** The drain loop [for lock.activeRequests.Load() > 0 { ... }]; the
    counter itself bounds the number of iterations. *)
Fixpoint drain (fuel : nat) (lock : nat) : M unit :=
  match fuel with
  | O => ret tt
  | S fuel' =>
      do v <- activeRequests_Load lock;
      if v >? 0 then
        do _ <- activeRequests_Add lock (-1);
        run wg_Done lock;
        drain fuel' lock
      else ret tt
  end.

Definition untrackConnection (flowID : Z) (lock : nat) : M unit :=
  defer_recover
    (do idx <- gets flowToStreamToSequenceMap;
     run (match idx !! flowID with
          | Some ftsm =>
              do m <- loadStreamMap ftsm;
              let entries := map_to_list m in
              run forM_ entries (fun e => untrack_stream ftsm (fst e) (snd e));
              run forM_ (rev (map fst entries))
                    (fun stream =>
                       do m' <- loadStreamMap ftsm;
                       storeStreamMap ftsm (delete stream m'));
              modify (set_index (delete flowID))
          | None => ret tt
          end);
     do v <- activeRequests_Load lock;
     run drain (Z.to_nat v) lock;
     modify (set_MutexMap (delete flowID))).

(** ** [newFlowLockCarrier] (lines 407-426) *)

Definition newFlowLockCarrier (serial0 flowID0 : Z) : M nat := fun s =>
  let c := fresh (dom (carriers s)) in
  (Returned c,
   set_carriers
     (<[c := {| mu := false; wg := 0; serial := serial0; flowID := flowID0;
                released := false; createdAt := now s;
                lastLockedAt := None; lastUnlockedAt := None;
                isHTTP2 := false; activeRequests := 0 |}]>) s).

(** ** The handle returned by [lock] (lines 490-666) *)

Record flowLock := {
  IsHTTP2 : M bool;
  Unlock : context -> M (bool * Z);
  UnlockAndRelease : context -> M (bool * Z);
  UnlockWithTCPFlags : context -> Z -> M (bool * Z);
  UnlockWithTraceAndSpan :
    context -> Z -> bool -> list Z -> list Z ->
    gmap Z (option traceAndSpan) -> gmap Z (option traceAndSpan) ->
    M (Z * Z);
}.

Definition TraceAndSpanProvider : Type := Z -> M (option traceAndSpan * bool).

(** The closures built by [lock], over the variables they capture. *)
Section LockClosures.
Variables (serial flowID tcpFlags seq ack : Z) (local : bool).
Variable carrier : nat.
Variable lockAcquiredTS : Z.
Variable tracedFlowProvider : TracedFlowProvider.

Definition _unlock : M unit :=
  defer_recover
    (defer_ (mu_Unlock carrier)
       (do lastUnlockedTS <- time_Now;
        updateCarrier carrier (with_lastUnlockedAt lastUnlockedTS))).

(** [time.AfterFunc(trackingDeadline, func() { fm.untrackConnection(...) })] *)
Definition schedule_untrack : M unit :=
  do n <- time_Now;
  modify (set_untrackTimers
            (fun l => l ++ [{| ut_due := n + trackingDeadline;
                               ut_flowID := flowID;
                               ut_carrier := carrier |}])).

Definition UnlockAndReleaseFN (ctx : context) : M (bool * Z) :=
  defer_ _unlock
    (do v <- activeRequests_Load carrier;
     do won <- (if v =? 0
                then released_CompareAndSwap carrier false true
                else ret false);
     if won : bool then
       do done <- ctx_Done ctx;
       run (if done : bool
            then untrackConnection flowID carrier
            else schedule_untrack);
       do n <- time_Now;
       ret (true, n - lockAcquiredTS)
     else
       do n <- time_Now;
       ret (false, n - lockAcquiredTS)).

Definition UnlockWithTCPFlagsFN (ctx : context) (tcpFlags' : Z) : M (bool * Z) :=
  if isConnectionTermination tcpFlags'
  then UnlockAndReleaseFN ctx
  else defer_ _unlock (do n <- time_Now; ret (false, n - lockAcquiredTS)).

Definition UnlockFn (ctx : context) : M (bool * Z) :=
  UnlockWithTCPFlagsFN ctx tcpFlags.

Definition IsHTTP2FN : M bool :=
  do x <- loadCarrier carrier; ret (isHTTP2 x).

(** Body of the loop over [requestStreams]; the result is the new
    value of the local variable [activeRequests]. *)
Definition handle_request (tcpFlags' : Z)
    (requestTS : gmap Z (option traceAndSpan))
    (activeRequests0 : Z) (stream : Z) : M Z :=
  match requestTS !! stream with
  | Some ts0 =>
      do '(tf, tracked) <-
        trackConnection carrier serial flowID tcpFlags' seq ack local ts0;
      if tracked : bool then
        do v <- activeRequests_Add carrier 1;
        run (if v >? 0 then wg_Add carrier 1
             else
               match tf with
               | Some t =>
                   do won <- isActive_CompareAndSwap t true false;
                   if won : bool
                   then do _ <- unblocker_Stop t; ret tt
                   else ret tt
               | None => panic
               end);
        ret v
      else ret activeRequests0
  | None => ret activeRequests0
  end.

(** Body of the loop over [responseStreams]. *)
Definition handle_response (responseTS : gmap Z (option traceAndSpan))
    (activeRequests0 : Z) (stream : Z) : M Z :=
  match responseTS !! stream with
  | Some None => panic                 (* [ts.streamID] on a nil [ts] *)
  | Some (Some ts1) =>
      do '(tf, traceFound) <- gets (tracedFlowProvider (streamID ts1));
      if traceFound : bool then
        do v <- activeRequests_Add carrier (-1);
        run (if v >=? 0 then
               match tf with
               | None => panic         (* [tf.ts] on a nil [tf] *)
               | Some t =>
                   do x <- loadTracedFlow t;
                   if String.eqb (traceID (ts x)) (traceID ts1) then
                     do won <- isActive_CompareAndSwap t true false;
                     if won : bool then
                       do stopped <- unblocker_Stop t;
                       if stopped : bool then wg_Done carrier else ret tt
                     else ret tt
                   else ret tt
               end
             else ret tt);
        ret v
      else ret activeRequests0
  | None => ret activeRequests0
  end.

(** [for _, stream := range streams { ... }] threading a local. *)
Fixpoint range_streams (body : Z -> Z -> M Z) (streams : list Z) (acc : Z) : M Z :=
  match streams with
  | [] => ret acc
  | stream :: rest => do acc' <- body acc stream; range_streams body rest acc'
  end.

(** The variant installed for segments without SYN, FIN and RST. *)
Definition UnlockWithTraceAndSpanFN (ctx : context) (tcpFlags' : Z)
    (isHTTP2' : bool) (requestStreams responseStreams : list Z)
    (requestTS responseTS : gmap Z (option traceAndSpan)) : M (Z * Z) :=
  run updateCarrier carrier (with_isHTTP2 isHTTP2');
  do activeRequests0 <- activeRequests_Load carrier;
  do activeRequests1 <-
    (if (0 <? Z.of_nat (size requestTS)) || (0 <? Z.of_nat (length requestStreams))
     then range_streams (handle_request tcpFlags' requestTS) requestStreams activeRequests0
     else ret activeRequests0);
  do activeRequests2 <-
    (if (0 <? Z.of_nat (size responseTS)) || (0 <? Z.of_nat (length responseStreams))
     then range_streams (handle_response responseTS) responseStreams activeRequests1
     else ret activeRequests1);
  do '(_, lockLatency) <- UnlockWithTCPFlagsFN ctx tcpFlags';
  ret (activeRequests2, lockLatency).

(** The variant installed for SYN, FIN and RST segments;
    [activeRequests0] was read when the handle was built. *)
Definition UnlockWithTraceAndSpanFallback (activeRequests0 : Z)
    (ctx : context) (tcpFlags' : Z) (_ : bool) (_ _ : list Z)
    (_ _ : gmap Z (option traceAndSpan)) : M (Z * Z) :=
  do '(_, lockLatency) <- UnlockWithTCPFlagsFN ctx tcpFlags';
  ret (activeRequests0, lockLatency).

(** The second result of [lock]. *)
Definition traceAndSpanProvider : TraceAndSpanProvider := fun streamID0 =>
  do '(tf, ok) <- gets (tracedFlowProvider streamID0);
  if ok : bool then
    match tf with
    | Some t => do x <- loadTracedFlow t; ret (Some (ts x), true)
    | None => panic
    end
  else ret (None, false).
End LockClosures.

(** ** [lock] (lines 428-488) *)

(** Where a goroutine executing [lock] stands. *)
Inductive lock_pc :=
| AtGetOrCompute               (* before [fm.MutexMap.GetOrCompute] *)
| AtGate (carrier : nat)       (* at [if isConnectionTermination(tcpFlags)] *)
| InWait (carrier : nat)       (* inside [wg.Wait()] *)
| AtLock (carrier : nat)       (* at [mu.Lock()] *)
| Acquired (h : flowLock) (p : TraceAndSpanProvider).   (* returned *)

Section Lock.
Variables (ctx : context) (serial flowID tcpFlags seq ack : Z) (local : bool).

(** [fm.MutexMap.GetOrCompute]: what one caller sees of it, as one step.
    The map is [haxmap]'s, whose code is not part of the sources; no
    property below relies on two first callers of a flow racing through
    it. *)
Definition lock_carrier : M nat :=
  do mm <- gets MutexMap;
  match mm !! flowID with
  | Some c => ret c
  | None =>
      do c <- newFlowLockCarrier serial flowID;
      run modify (set_MutexMap (<[flowID := c]>));
      ret c
  end.

(** Everything [lock] does after [mu.Lock()] has returned. *)
Definition lock_locked (carrier : nat) : M (flowLock * TraceAndSpanProvider) :=
  do lockAcquiredTS <- time_Now;
  run updateCarrier carrier (with_lastLockedAt lockAcquiredTS);
  do '(tracedFlowProvider, _) <- gets (getTracedFlow flowID seq ack local);
  do unlockWithTraceAndSpan <-
    (if Z.land tcpFlags (Z.lor (Z.lor tcpSyn tcpFin) tcpRst) =? 0
     then ret (UnlockWithTraceAndSpanFN serial flowID seq ack local carrier
                 lockAcquiredTS tracedFlowProvider)
     else
       do activeRequests0 <- activeRequests_Load carrier;
       ret (UnlockWithTraceAndSpanFallback flowID carrier lockAcquiredTS
              activeRequests0));
  ret ({| IsHTTP2 := IsHTTP2FN carrier;
          Unlock := UnlockFn flowID tcpFlags carrier lockAcquiredTS;
          UnlockAndRelease := UnlockAndReleaseFN flowID carrier lockAcquiredTS;
          UnlockWithTCPFlags := UnlockWithTCPFlagsFN flowID carrier lockAcquiredTS;
          UnlockWithTraceAndSpan := unlockWithTraceAndSpan |},
       traceAndSpanProvider tracedFlowProvider).

(** One step of the goroutine; [None] when it is blocked (or done). *)
Definition lock_step (pc : lock_pc) (s : fm_state) : option (lock_pc * fm_state) :=
  match pc with
  | AtGetOrCompute =>
      match lock_carrier s with
      | (Returned c, s1) => Some (AtGate c, s1)
      | _ => None
      end
  | AtGate c =>
      if isConnectionTermination tcpFlags then
        (* select { case <-ctx.Done(): break; default: wg.Wait() } *)
        if bool_decide (ctx ∈ cancelled s)
        then Some (AtLock c, s)
        else Some (InWait c, s)
      else Some (AtLock c, s)
  | InWait c =>
      match carriers s !! c with
      | Some x => if wg x =? 0 then Some (AtLock c, s) else None
      | None => None
      end
  | AtLock c =>
      match carriers s !! c with
      | Some x =>
          if mu x then None
          else
            match (run mu_Lock c; lock_locked c) s with
            | (Returned (h, p), s1) => Some (Acquired h p, s1)
            | _ => None
            end
      | None => None
      end
  | Acquired _ _ => None
  end.

(** Run the goroutine for at most [n] steps, stopping where it blocks. *)
Fixpoint lock_steps (n : nat) (pc : lock_pc) (s : fm_state) : lock_pc * fm_state :=
  match n with
  | O => (pc, s)
  | S n' =>
      match lock_step pc s with
      | Some (pc', s') => lock_steps n' pc' s'
      | None => (pc, s)
      end
  end.

(** A call of [lock] that is never preempted: four steps when nothing
    blocks. *)
Definition lock (s : fm_state) : option (flowLock * TraceAndSpanProvider * fm_state) :=
  match lock_steps 4 AtGetOrCompute s with
  | (Acquired h p, s') => Some (h, p, s')
  | _ => None
  end.
End Lock.

(** ** The reaper (lines 168-200) *)

(** Body of the callback given to [fm.MutexMap.ForEach] on a tick. *)
Definition reap (flowID0 : Z) (carrier : nat) : M unit :=
  do x <- loadCarrier carrier;
  match lastUnlockedAt x with
  | None => ret tt
  | Some _ =>
      do locked <- mu_TryLock carrier;
      if locked : bool then
        defer_ (mu_Unlock carrier)
          (do y <- loadCarrier carrier;
           do n <- time_Now;
           match lastUnlockedAt y with
           | Some t =>
               if n - t >=? carrierDeadline then
                 run untrackConnection flowID0 carrier;
                 modify (set_MutexMap (delete flowID0))
               else ret tt
           | None => panic
           end)
      else ret tt
  end.

Definition reaper_tick : M unit :=
  do mm <- gets MutexMap;
  forM_ (map_to_list mm) (fun e => reap (fst e) (snd e)).

(** ** Scenario S1 of the specification, executed *)

Definition T1 : traceAndSpan :=
  {| traceID := "T1"; spanID := "S1"; streamID := 10 |}.

Definition S1_request : option (outcome (Z * Z) * fm_state) :=
  match lock 0%nat 1 1 (Z.lor tcpPsh tcpAck) 1000 0 false newFlowMutex with
  | Some (h, _, s) =>
      Some (UnlockWithTraceAndSpan h 0%nat (Z.lor tcpPsh tcpAck) false
              [10] [] {[ 10 := Some T1 ]} ∅ s)
  | None => None
  end.

Definition S1_response : option (outcome (Z * Z) * fm_state) :=
  match S1_request with
  | Some (_, s) =>
      match lock 0%nat 2 1 (Z.lor tcpPsh tcpAck) 2000 1500 false s with
      | Some (h, _, s') =>
          Some (UnlockWithTraceAndSpan h 0%nat (Z.lor tcpPsh tcpAck) false
                  [] [10] ∅ {[ 10 := Some T1 ]} s')
      | None => None
      end
  | None => None
  end.

Definition S1_fin : option (outcome (bool * Z) * fm_state) :=
  match S1_response with
  | Some (_, s) =>
      match lock 0%nat 3 1 (Z.lor tcpFin tcpAck) 2001 1500 false s with
      | Some (h, _, s') => Some (UnlockAndRelease h 0%nat s')
      | None => None
      end
  | None => None
  end.


(** ** Vocabulary of the range-lookup contract *)

(** Keys of a skip map are strictly ascending. *)
Fixpoint skipmap_sorted (m : list (Z * nat)) : bool :=
  match m with
  | [] => true
  | (k, _) :: m' =>
      match m' with
      | [] => true
      | (k', _) :: _ => (k <? k') && skipmap_sorted m'
      end
  end.

(** [(k, tf)] is the entry at the greatest key strictly less than [ref]. *)
Definition greatest_below (ref : Z) (m : list (Z * nat)) (k : Z) (tf : nat) : Prop :=
  In (k, tf) m /\ k < ref /\ forall k' tf', In (k', tf') m -> k' < ref -> k' <= k.

(** [(k, tf)] is the entry at the greatest key overall. *)
Definition greatest_entry (m : list (Z * nat)) (k : Z) (tf : nat) : Prop :=
  In (k, tf) m /\ forall k' tf', In (k', tf') m -> k' <= k.

(** An engine whose index holds the single flow [fid], with the single
    stream [sid] and the given inner map. *)
Definition index_with (fid sid : Z) (inner : list (Z * nat)) : fm_state :=
  set_index (<[fid := 0%nat]>)
    (set_streamMaps (<[0%nat := {[ sid := inner ]}]>) newFlowMutex).

(** ** Runs of the engine *)

(** What the goroutines sharing one engine can do to it.  An unlock
    operation carries the variables its closure has captured. *)
Inductive op :=
| Tick (d : Z)
| Cancel (ctx : context)
| CallLock (ctx : context) (serial0 flowID0 tcpFlags seq ack : Z) (local : bool)
| CallUnlock (flowID0 tcpFlags : Z) (carrier : nat) (lockAcquiredTS : Z)
    (ctx : context)
| CallUnlockAndRelease (flowID0 : Z) (carrier : nat) (lockAcquiredTS : Z)
    (ctx : context)
| CallUnlockWithTCPFlags (flowID0 : Z) (carrier : nat) (lockAcquiredTS : Z)
    (ctx : context) (tcpFlags' : Z)
| CallUnlockWithTraceAndSpan (serial0 flowID0 seq ack : Z) (local : bool)
    (carrier : nat) (lockAcquiredTS : Z) (provider : TracedFlowProvider)
    (ctx : context) (tcpFlags' : Z) (isHTTP2' : bool)
    (requestStreams responseStreams : list Z)
    (requestTS responseTS : gmap Z (option traceAndSpan))
| CallUnlockFallback (flowID0 : Z) (carrier : nat)
    (lockAcquiredTS activeRequests0 : Z) (ctx : context) (tcpFlags' : Z)
| UnblockerExpire (t : nat)
| UnblockerCAS (t : nat)
| UnblockerRun (t : nat)
| UntrackTimerFires (i : nat)
| ReaperTick.

(** [released_winner] as reported to the caller, with the carrier. *)
Definition reported (carrier : nat) (r : outcome (bool * Z) * fm_state)
    : fm_state * option (nat * bool) :=
  match r with
  | (Returned (won, _), s') => (s', Some (carrier, won))
  | (_, s') => (s', None)
  end.

Definition exec (o : op) (s : fm_state) : fm_state * option (nat * bool) :=
  match o with
  | Tick d => (set_now (fun n => n + Z.max d 0) s, None)
  | Cancel ctx => (set_cancelled (fun cs => {[ ctx ]} ∪ cs) s, None)
  | CallLock ctx serial0 flowID0 tcpFlags seq ack local =>
      (snd (lock_steps ctx serial0 flowID0 tcpFlags seq ack local 4 AtGetOrCompute s),
       None)
  | CallUnlock flowID0 tcpFlags carrier lockAcquiredTS ctx =>
      reported carrier (UnlockFn flowID0 tcpFlags carrier lockAcquiredTS ctx s)
  | CallUnlockAndRelease flowID0 carrier lockAcquiredTS ctx =>
      reported carrier (UnlockAndReleaseFN flowID0 carrier lockAcquiredTS ctx s)
  | CallUnlockWithTCPFlags flowID0 carrier lockAcquiredTS ctx tcpFlags' =>
      reported carrier
        (UnlockWithTCPFlagsFN flowID0 carrier lockAcquiredTS ctx tcpFlags' s)
  | CallUnlockWithTraceAndSpan serial0 flowID0 seq ack local carrier
      lockAcquiredTS provider ctx tcpFlags' isHTTP2' requestStreams
      responseStreams requestTS responseTS =>
      (snd (UnlockWithTraceAndSpanFN serial0 flowID0 seq ack local carrier
              lockAcquiredTS provider ctx tcpFlags' isHTTP2' requestStreams
              responseStreams requestTS responseTS s), None)
  | CallUnlockFallback flowID0 carrier lockAcquiredTS activeRequests0 ctx tcpFlags' =>
      (snd (UnlockWithTraceAndSpanFallback flowID0 carrier lockAcquiredTS
              activeRequests0 ctx tcpFlags' false [] [] ∅ ∅ s), None)
  | UnblockerExpire t => (default s (unblocker_expire t s), None)
  | UnblockerCAS t => (default s (unblocker_cas t s), None)
  | UnblockerRun t =>
      (match unblocker_run t s with Some r => snd r | None => s end, None)
  | UntrackTimerFires i =>
      (match untrackTimers s !! i with
       | Some ut =>
           if ut_due ut <=? now s
           then snd (untrackConnection (ut_flowID ut) (ut_carrier ut)
                       (set_untrackTimers (delete i) s))
           else s
       | None => s
       end, None)
  | ReaperTick => (snd (reaper_tick s), None)
  end.

Definition released_of (c : nat) (s : fm_state) : bool :=
  match carriers s !! c with
  | Some x => released x
  | None => false
  end.

(** How often [released] of carrier [c] goes from [false] to [true]
    along a run. *)
Fixpoint flips (c : nat) (ops : list op) (s : fm_state) : nat :=
  match ops with
  | [] => O
  | o :: rest =>
      let s' := fst (exec o s) in
      ((if negb (released_of c s) && released_of c s' then 1 else 0)
       + flips c rest s')%nat
  end.

(** How many unlock calls on carrier [c] report [released_winner = true]. *)
Fixpoint winners (c : nat) (ops : list op) (s : fm_state) : nat :=
  match ops with
  | [] => O
  | o :: rest =>
      let '(s', r) := exec o s in
      ((match r with
        | Some (c', true) => if decide (c' = c) then 1 else 0
        | _ => 0
        end) + winners c rest s')%nat
  end.

(** ** A goroutine in [lock] among the others *)

Inductive turn :=
| Me                  (* the goroutine executing [lock] is scheduled *)
| Others (o : op).    (* some other goroutine acts on the engine *)

Section Interleaving.
Variables (ctx : context) (serial0 flowID0 tcpFlags seq ack : Z) (local : bool).

Fixpoint interleave (sch : list turn) (pc : lock_pc) (s : fm_state)
    : lock_pc * fm_state :=
  match sch with
  | [] => (pc, s)
  | Me :: rest =>
      match lock_step ctx serial0 flowID0 tcpFlags seq ack local pc s with
      | Some (pc', s') => interleave rest pc' s'
      | None => interleave rest pc s
      end
  | Others o :: rest => interleave rest pc (fst (exec o s))
  end.

(** The states in which the goroutine executing [lock] is scheduled. *)
Fixpoint observations (sch : list turn) (pc : lock_pc) (s : fm_state)
    : list fm_state :=
  match sch with
  | [] => []
  | Me :: rest =>
      s :: match lock_step ctx serial0 flowID0 tcpFlags seq ack local pc s with
           | Some (pc', s') => observations rest pc' s'
           | None => observations rest pc s
           end
  | Others o :: rest => observations rest pc (fst (exec o s))
  end.
End Interleaving.



(** ** Frame conditions *)

(** Every result state of [m] is related to its start state by [G]. *)
Definition guarantees {A} (G : fm_state -> fm_state -> Prop) (m : M A) : Prop :=
  forall s, G s (snd (m s)).

(** Carriers are never freed, and each one evolves along [R]; the clock
    and the set of cancelled contexts stay as they are. *)
Definition frame (R : flowLockCarrier -> flowLockCarrier -> Prop)
    (s s' : fm_state) : Prop :=
  now s' = now s /\ cancelled s' = cancelled s /\
  forall c x, carriers s !! c = Some x ->
              exists x', carriers s' !! c = Some x' /\ R x x'.

(** [R] relates a carrier to itself after the field write [f]. *)
Class StableUnder (R : flowLockCarrier -> flowLockCarrier -> Prop)
    (f : flowLockCarrier -> flowLockCarrier) : Prop :=
  stable_under : forall x, R x (f x).

(** [released] is never reset. *)
Definition released_kept (x x' : flowLockCarrier) : Prop :=
  released x = true -> released x' = true.

(** [released] is never reset and the mutex is not touched. *)
Definition mutex_kept (x x' : flowLockCarrier) : Prop :=
  mu x' = mu x /\ (released x = true -> released x' = true).

(** [m] never ends in a fatal error. *)
Definition recoverable {A} (m : M A) : Prop :=
  forall s, fst (m s) <> Fatal.

(** A carrier whose mutex is held, in an otherwise empty engine. *)
Definition held_carrier (ar : Z) (rel : bool) : flowLockCarrier :=
  {| mu := true; wg := 0; serial := 1; flowID := 1; released := rel;
     createdAt := 0; lastLockedAt := Some 0; lastUnlockedAt := None;
     isHTTP2 := false; activeRequests := ar |}.

Definition held_state (ar : Z) (rel : bool) : fm_state :=
  set_MutexMap (<[1 := 0%nat]>)
    (set_carriers (<[0%nat := held_carrier ar rel]>) newFlowMutex).

(** Only the three-level index (the outer map and the heap of stream
    maps) differs between [s] and [s']. *)
Definition index_only (s s' : fm_state) : Prop :=
  now s' = now s /\ cancelled s' = cancelled s /\ MutexMap s' = MutexMap s /\
  carriers s' = carriers s /\ tracedFlows s' = tracedFlows s /\
  traceToHttpRequestMap s' = traceToHttpRequestMap s /\
  untrackTimers s' = untrackTimers s.

(** The traced flow built by [trackConnection]. *)
Definition tracked_flow (lock : nat) (serial0 flowID0 : Z) (ts1 : traceAndSpan)
    (s : fm_state) : TracedFlow :=
  {| tf_serial := serial0; tf_flowID := flowID0; tf_lock := lock; ts := ts1;
     isActive := true;
     unblocker := {| due := now s + trackingDeadline; phase := Armed |} |}.

(** A traced flow whose unblocker has fired and won the CAS, on a free
    carrier holding one request and one token. *)
Definition fired_flow : TracedFlow :=
  {| tf_serial := 1; tf_flowID := 1; tf_lock := 0%nat;
     ts := T1; isActive := false;
     unblocker := {| due := 10000000000; phase := Expired AtMutex |} |}.

Definition fired_carrier : flowLockCarrier :=
  {| mu := false; wg := 1; serial := 1; flowID := 1; released := false;
     createdAt := 0; lastLockedAt := Some 0; lastUnlockedAt := Some 0;
     isHTTP2 := false; activeRequests := 1 |}.

Definition fired_state : fm_state :=
  set_now (fun _ => 10000000000)
    (set_tracedFlows (<[0%nat := fired_flow]>)
       (set_MutexMap (<[1 := 0%nat]>)
          (set_carriers (<[0%nat := fired_carrier]>) newFlowMutex))).



(** [tf.unblocker.Stop()] would report [true]. *)
Definition armed (x : TracedFlow) : bool :=
  match phase (unblocker x) with
  | Armed => true
  | _ => false
  end.

Definition activeRequests_of (c : nat) (s : fm_state) : Z :=
  match carriers s !! c with
  | Some x => activeRequests x
  | None => 0
  end.

Definition wg_of (c : nat) (s : fm_state) : Z :=
  match carriers s !! c with
  | Some x => wg x
  | None => 0
  end.

(** Scenario S1 continued with a response on stream 10 that carries
    another trace id than the tracked request. *)
Definition T2 : traceAndSpan :=
  {| traceID := "T2"; spanID := "S2"; streamID := 10 |}.

Definition S1_mismatched_response : option (outcome (Z * Z) * fm_state) :=
  match S1_request with
  | Some (_, s) =>
      match lock 0%nat 2 1 (Z.lor tcpPsh tcpAck) 2000 1500 false s with
      | Some (h, _, s') =>
          Some (UnlockWithTraceAndSpan h 0%nat (Z.lor tcpPsh tcpAck) false
                  [] [10] ∅ {[ 10 := Some T2 ]} s')
      | None => None
      end
  | None => None
  end.

(** The engine after the request of scenario S1: flow 1 is tracked,
    carrier 0 holds one request and one token, its mutex is free. *)
Definition S1_tracked : fm_state :=
  match S1_request with
  | Some (_, s) => s
  | None => newFlowMutex
  end.

(** Scenario S5: a FIN segment enters the wait with one token
    outstanding, then the context is cancelled. *)
Definition S5_schedule : list turn :=
  [Me; Me; Others (Cancel 0%nat); Me; Me; Me].


(** A response stream whose entry in [responseTS] is a nil pointer, on
    a handle obtained for a PSH+ACK segment. *)
Definition nil_response : option (outcome (Z * Z) * fm_state) :=
  match lock 0%nat 1 1 (Z.lor tcpPsh tcpAck) 1000 0 false newFlowMutex with
  | Some (h, _, s) =>
      Some (UnlockWithTraceAndSpan h 0%nat (Z.lor tcpPsh tcpAck) false
              [] [10] ∅ {[ 10 := None ]} s)
  | None => None
  end.

(** ** Vocabulary of untracking *)

(** What [untrackConnection] does to one traced flow: a won CAS on
    [isActive] followed by [unblocker.Stop()]. *)
Definition deactivate (x : TracedFlow) : TracedFlow :=
  if isActive x then
    if armed x then with_phase Stopped (with_isActive false x)
    else with_isActive false x
  else x.

(** The traced flows filed under a stream map, in visiting order. *)
Definition flows_of (entries : list (Z * list (Z * nat))) : list nat :=
  concat (map (fun e => map snd (snd e)) entries).

(** Every pointer reachable from the index entry of [flowID0] is
    allocated. *)
Definition index_allocated (flowID0 : Z) (s : fm_state) : bool :=
  match flowToStreamToSequenceMap s !! flowID0 with
  | Some l =>
      match streamMaps s !! l with
      | Some m =>
          forallb (fun t => bool_decide (is_Some (tracedFlows s !! t)))
            (flows_of (map_to_list m))
      | None => false
      end
  | None => true
  end.

(** Traced flows are only deactivated and the registry only shrinks;
    the rest of the engine, but for the heap of stream maps, is as it
    was. *)
Definition untracking (s s' : fm_state) : Prop :=
  (forall (t : nat) (x : TracedFlow),
     tracedFlows s !! t = Some x ->
     exists x', tracedFlows s' !! t = Some x' /\ (x' = x \/ x' = deactivate x)) /\
  (forall k : string,
     traceToHttpRequestMap s !! k = None ->
     traceToHttpRequestMap s' !! k = None) /\
  now s' = now s /\ cancelled s' = cancelled s /\ MutexMap s' = MutexMap s /\
  carriers s' = carriers s /\
  flowToStreamToSequenceMap s' = flowToStreamToSequenceMap s /\
  untrackTimers s' = untrackTimers s.

(** Flow [t] has been untracked between [s] and [s']. *)
Definition untracked (t : nat) (s s' : fm_state) : Prop :=
  forall x : TracedFlow,
    tracedFlows s !! t = Some x ->
    tracedFlows s' !! t = Some (deactivate x) /\
    traceToHttpRequestMap s' !! traceID (ts x) = None.

(** An engine with flow 1 tracked on stream 10 by an active traced flow,
    whose carrier holds one request and one token; the registry knows
    the trace id. *)
Definition tracked_state : fm_state :=
  set_registry (<["T1" := {| timestamp := 0; url := "/"; method := "GET" |}]>)
    (set_index (<[1 := 0%nat]>)
       (set_streamMaps (<[0%nat := {[ 10 := [(1000, 0%nat)] ]}]>)
          (set_tracedFlows
             (<[0%nat := {| tf_serial := 1; tf_flowID := 1; tf_lock := 0%nat;
                            ts := T1; isActive := true;
                            unblocker := {| due := 10000000000; phase := Armed |} |}]>)
             (set_MutexMap (<[1 := 0%nat]>)
                (set_carriers (<[0%nat := fired_carrier]>) newFlowMutex))))).

(** Invariant 2 of the data model: the wait-group holds a token for
    every request counted in [activeRequests]; both fit their types. *)
Definition coupled (x : flowLockCarrier) : Prop :=
  - 2 ^ 63 <= activeRequests x /\ activeRequests x <= wg x /\
  0 <= wg x < 2 ^ 31.

(** ** Vocabulary of acquisition and release *)

(** The carrier once [lock] has taken its mutex at time [t]. *)
Definition acquired (t : Z) (x : flowLockCarrier) : flowLockCarrier :=
  with_lastLockedAt t (with_mu true x).

(** The carrier once the deferred [_unlock] has run at time [t]. *)
Definition unlocked (t : Z) (x : flowLockCarrier) : flowLockCarrier :=
  with_mu false (with_lastUnlockedAt t x).

(** The wait of [lock] lets a segment with [tcpFlags] through. *)
Definition gate_free (ctx : context) (tcpFlags : Z) (x : flowLockCarrier)
    (s : fm_state) : bool :=
  negb (isConnectionTermination tcpFlags) ||
  bool_decide (ctx ∈ cancelled s) || (wg x =? 0).

(** The mutex of carrier [c] is free. *)
Definition mutex_free (c : nat) (s : fm_state) : bool :=
  match carriers s !! c with
  | Some x => negb (mu x)
  | None => false
  end.

(** The goroutine has not returned from [lock] and, once past
    [GetOrCompute], is bound to carrier [c]. *)
Definition before_acquire (c : nat) (pc : lock_pc) : Prop :=
  pc = AtGate c \/ pc = InWait c \/ pc = AtLock c.

Definition is_acquired (pc : lock_pc) : bool :=
  match pc with
  | Acquired _ _ => true
  | _ => false
  end.

(** What the handle and the provider returned by [lock] for carrier [c]
    at time [t] are made of; [s1] is the engine when [lock] returns. *)
Definition bound_to (flowID0 tcpFlags seq ack : Z) (local : bool) (c : nat)
    (t : Z) (s1 : fm_state) (h : flowLock) (p : TraceAndSpanProvider) : Prop :=
  IsHTTP2 h = IsHTTP2FN c /\
  Unlock h = UnlockFn flowID0 tcpFlags c t /\
  UnlockAndRelease h = UnlockAndReleaseFN flowID0 c t /\
  UnlockWithTCPFlags h = UnlockWithTCPFlagsFN flowID0 c t /\
  p = traceAndSpanProvider (fst (getTracedFlow flowID0 seq ack local s1)).

(** ** Vocabulary of the index *)

(** Stream [sid] of flow [fid] has no inner map in the index: either the
    flow is not indexed, or its stream map has no entry for [sid]. *)
Definition stream_untracked (fid sid : Z) (s : fm_state) : Prop :=
  match flowToStreamToSequenceMap s !! fid with
  | None => True
  | Some l => exists m, streamMaps s !! l = Some m /\ m !! sid = None
  end.

(** Stream [sid] of flow [fid] is indexed with the inner map [sttsm]. *)
Definition stream_tracked (fid sid : Z) (sttsm : list (Z * nat))
    (s : fm_state) : Prop :=
  exists l m,
    flowToStreamToSequenceMap s !! fid = Some l /\
    streamMaps s !! l = Some m /\ m !! sid = Some sttsm.

(** The answer, in engine [s], of the lookup that [lock] builds in [s]
    for a segment [(seq, ack, local)] of flow [fid], for stream [sid]. *)
Definition lookup (fid seq ack : Z) (local : bool) (sid : Z) (s : fm_state)
    : option nat * bool :=
  fst (getTracedFlow fid seq ack local s) sid s.

(** No stream of [responseStreams] has a nil [ts] in [responseTS]. *)
Definition no_nil_ts (responseTS : gmap Z (option traceAndSpan))
    (responseStreams : list Z) : bool :=
  forallb (fun stream =>
             match responseTS !! stream with
             | Some None => false
             | _ => true
             end) responseStreams.

(** The index and the stream maps are the same in both engines. *)
Definition index_kept (s s' : fm_state) : Prop :=
  flowToStreamToSequenceMap s' = flowToStreamToSequenceMap s /\
  streamMaps s' = streamMaps s.

(** The carrier map of both engines agrees outside flow [fid]. *)
Definition mutexmap_but (fid : Z) (s s' : fm_state) : Prop :=
  delete fid (MutexMap s') = delete fid (MutexMap s).

(** [carrier] would be reaped at the next tick: it has been unlocked,
    its mutex is free, and the last unlock is [carrierDeadline] old. *)
Definition reapable (x : flowLockCarrier) (s : fm_state) : bool :=
  match lastUnlockedAt x with
  | Some t => negb (mu x) && (now s - t >=? carrierDeadline)
  | None => false
  end.

(** A free carrier registered for flow 1 and last unlocked at time 0,
    [d] nanoseconds ago. *)
Definition idle_state (d : Z) : fm_state :=
  set_now (fun _ => d)
    (set_MutexMap (<[1 := 0%nat]>)
       (set_carriers (<[0%nat := fired_carrier]>) newFlowMutex)).

(** Two versions of a carrier that differ at most in [activeRequests]
    and in the wait-group counter. *)
Definition counters_only (x x' : flowLockCarrier) : Prop :=
  mu x' = mu x /\ released x' = released x /\
  lastLockedAt x' = lastLockedAt x /\ lastUnlockedAt x' = lastUnlockedAt x /\
  isHTTP2 x' = isHTTP2 x /\ serial x' = serial x /\ flowID x' = flowID x /\
  createdAt x' = createdAt x.

(** No untrack timer is scheduled or removed between [s] and [s']. *)
Definition timers_kept (s s' : fm_state) : Prop :=
  untrackTimers s' = untrackTimers s.

(** The counters of carrier [c] are coupled, with room for [a] more
    tokens and [b] more decrements before either counter leaves its
    type. *)
Definition coupled_with_room (c : nat) (a b : nat) (s : fm_state) : Prop :=
  exists x, carriers s !! c = Some x /\ coupled x /\
            wg x + Z.of_nat a < 2 ^ 31 /\
            - 2 ^ 63 <= activeRequests x - Z.of_nat b.

(** The heap of carriers is the same in both engines. *)
Definition carriers_kept (s s' : fm_state) : Prop :=
  carriers s' = carriers s.

(** The two counters of a carrier are left as they are. *)
Definition counters_kept (x x' : flowLockCarrier) : Prop :=
  activeRequests x' = activeRequests x /\ wg x' = wg x.

(** [isHTTP2] of a carrier is left as it is. *)
Definition isHTTP2_kept (x x' : flowLockCarrier) : Prop :=
  isHTTP2 x' = isHTTP2 x.

(** ** Vocabulary of runs *)

(** The engine after the operations [ops], one after the other. *)
Fixpoint execs (ops : list op) (s : fm_state) : fm_state :=
  match ops with
  | [] => s
  | o :: rest => execs rest (fst (exec o s))
  end.

(** A later version of a traced flow: it is not reactivated, its timer
    is not re-armed, and its trace, its carrier, its flow and the
    deadline of its unblocker are the same. *)
Definition flow_kept (y y' : TracedFlow) : Prop :=
  (isActive y = false -> isActive y' = false) /\
  (armed y = false -> armed y' = false) /\
  ts y' = ts y /\ tf_lock y' = tf_lock y /\ tf_flowID y' = tf_flowID y /\
  tf_serial y' = tf_serial y /\ due (unblocker y') = due (unblocker y).

(** No traced flow is freed, and each one evolves along [flow_kept]. *)
Definition flows_kept (s s' : fm_state) : Prop :=
  forall t y, tracedFlows s !! t = Some y ->
              exists y', tracedFlows s' !! t = Some y' /\ flow_kept y y'.

(** The index of both engines agrees outside flow [fid]. *)
Definition index_but (fid : Z) (s s' : fm_state) : Prop :=
  delete fid (flowToStreamToSequenceMap s')
  = delete fid (flowToStreamToSequenceMap s).

(** The registry of requests only loses entries. *)
Definition registry_shrinks (s s' : fm_state) : Prop :=
  forall k : string,
    traceToHttpRequestMap s !! k = None -> traceToHttpRequestMap s' !! k = None.

(** No stream of [streams] has a [ts] in [tsByStream]; a stream mapped
    to a nil [ts] counts as having none when [nil_ok] is set. *)
Definition without_ts (nil_ok : bool) (tsByStream : gmap Z (option traceAndSpan))
    (streams : list Z) : bool :=
  forallb (fun stream =>
             match tsByStream !! stream with
             | None => true
             | Some None => nil_ok
             | Some (Some _) => false
             end) streams.

(** ** Well-formed engines *)

(** Every stream map the index points to is allocated, and every traced
    flow filed in a stream map is allocated. *)
Definition heap_wf (s : fm_state) : Prop :=
  (forall f l, flowToStreamToSequenceMap s !! f = Some l ->
               is_Some (streamMaps s !! l)) /\
  (forall l m sid sttsm k t,
     streamMaps s !! l = Some m -> m !! sid = Some sttsm -> In (k, t) sttsm ->
     is_Some (tracedFlows s !! t)).

(** Every carrier registered for a flow is allocated. *)
Definition carriers_wf (s : fm_state) : Prop :=
  forall f c, MutexMap s !! f = Some c -> is_Some (carriers s !! c).

Definition engine_wf (s : fm_state) : Prop := heap_wf s /\ carriers_wf s.

(** From a well-formed [s], [s'] is well-formed and nothing has been
    freed. *)
Definition wf_kept (s s' : fm_state) : Prop :=
  engine_wf s ->
  engine_wf s' /\
  (forall t, is_Some (tracedFlows s !! t) -> is_Some (tracedFlows s' !! t)) /\
  (forall c, is_Some (carriers s !! c) -> is_Some (carriers s' !! c)).

(** * The packet filters of the translator worker

    A shallow embedding of the filter decisions of
    [pcap-cli/internal/transformer/translator_worker.go]
    ([isIPv4Allowed] ... [shouldTranslate], lines 343-501).  Addresses
    and ports are numbers; a packet is what [w.asLayer] finds in it. *)

(** The interface [PcapFilters] as the worker uses it: one field per
    method called in [translator_worker.go]. *)
Record PcapFilters := {
  HasL3Protos : bool;
  AllowsIPv4 : bool;
  AllowsIPv6 : bool;
  HasIPv4s : bool;
  HasIPv6s : bool;
  AllowsIPv4Addr : Z -> bool;
  AllowsIPv6Addr : Z -> bool;
  HasL4Protos : bool;
  HasTCPflags : bool;
  HasL4Addrs : bool;
  AllowsTCP : bool;
  AllowsUDP : bool;
  AllowsAnyTCPflags : Z -> bool;
  AllowsAnyL4Addr : Z -> Z -> bool;
  AllowsSocket : Z -> Z -> Z -> Z -> bool;
}.

Record IPLayer := {
  SrcIP : Z;
  DstIP : Z;
}.

(** [tcp_flags] is the value of [parseTCPflags(tcp)]. *)
Record TCPLayer := {
  tcp_SrcPort : Z;
  tcp_DstPort : Z;
  tcp_flags : Z;
}.

Record UDPLayer := {
  udp_SrcPort : Z;
  udp_DstPort : Z;
}.

(** What [w.asLayer(ctx, layerType)] returns for the four layer types
    the filters look at; [None] is Go's [nil]. *)
Record Packet := {
  LayerTypeIPv4 : option IPLayer;
  LayerTypeIPv6 : option IPLayer;
  LayerTypeTCP : option TCPLayer;
  LayerTypeUDP : option UDPLayer;
}.

Section Worker.
Variable filters : PcapFilters.

Definition toIP4Addrs (ip4 : IPLayer) : Z * Z := (SrcIP ip4, DstIP ip4).

Definition toIP6Addrs (ip6 : IPLayer) : Z * Z := (SrcIP ip6, DstIP ip6).

Definition isIPv4Allowed (ip4 : IPLayer) : option Z * option Z * bool :=
  let '(src, dst) := toIP4Addrs ip4 in
  if HasL3Protos filters && negb (AllowsIPv4 filters)
  then (Some src, Some dst, false)
  else if negb (HasIPv4s filters)
  then (Some src, Some dst, true)
  else if negb (AllowsIPv4Addr filters src)
  then (Some src, Some dst, false)
  else (Some src, Some dst, AllowsIPv4Addr filters dst).

Definition isIPv6Allowed (ip6 : IPLayer) : option Z * option Z * bool :=
  let '(src, dst) := toIP6Addrs ip6 in
  if HasL3Protos filters && negb (AllowsIPv6 filters)
  then (Some src, Some dst, false)
  else if negb (HasIPv6s filters)
  then (Some src, Some dst, true)
  else if negb (AllowsIPv6Addr filters src)
  then (Some src, Some src, false)
  else (Some src, Some dst, AllowsIPv6Addr filters dst).

Definition isL3Allowed (p : Packet) : option Z * option Z * bool :=
  match LayerTypeIPv4 p with
  | Some ip4 => isIPv4Allowed ip4
  | None =>
      match LayerTypeIPv6 p with
      | None => (None, None, true)
      | Some ip6 => isIPv6Allowed ip6
      end
  end.

Definition arePortsAllowed (src dst : Z) : option Z * option Z * bool :=
  if AllowsAnyL4Addr filters src dst
  then (Some src, Some dst, true)
  else (Some src, Some dst, false).

Definition isL4Allowed (p : Packet) : option Z * option Z * bool :=
  let isProtosFilterAvailable := HasL4Protos filters in
  let isTCPflagsFilterAvailable := HasTCPflags filters in
  let isL4AddrsFilterAvailable := HasL4Addrs filters in
  match LayerTypeTCP p with
  | Some tcp =>
      let srcPort := tcp_SrcPort tcp in
      let dstPort := tcp_DstPort tcp in
      if isProtosFilterAvailable && negb (AllowsTCP filters)
      then (Some srcPort, Some dstPort, false)
      else if isTCPflagsFilterAvailable &&
              negb (AllowsAnyTCPflags filters (tcp_flags tcp))
      then (Some srcPort, Some dstPort, false)
      else if isL4AddrsFilterAvailable
      then arePortsAllowed srcPort dstPort
      else (Some srcPort, Some dstPort, true)
  | None =>
      match LayerTypeUDP p with
      | None => (None, None, true)
      | Some udp =>
          let srcPort := udp_SrcPort udp in
          let dstPort := udp_DstPort udp in
          if isProtosFilterAvailable && negb (AllowsUDP filters)
          then (Some srcPort, Some dstPort, false)
          else if isL4AddrsFilterAvailable
          then arePortsAllowed srcPort dstPort
          else (Some srcPort, Some dstPort, true)
      end
  end.

Definition isSocketAllowed (srcAddr srcPort dstAddr dstPort : option Z) : bool :=
  match srcAddr, srcPort, dstAddr, dstPort with
  | Some sa, Some sp, Some da, Some dp => AllowsSocket filters sa sp da dp
  | _, _, _, _ => true
  end.

Definition shouldTranslate (p : Packet) : bool :=
  let '(srcAddr, dstAddr, l3Allowed) := isL3Allowed p in
  let '(srcPort, dstPort, l4Allowed) := isL4Allowed p in
  if l3Allowed && l4Allowed
  then isSocketAllowed srcAddr srcPort dstAddr dstPort
  else false.
End Worker.

(** The same packet with other IPv6 and UDP layers. *)
Definition with_IPv6_UDP (ip6 : option IPLayer) (udp : option UDPLayer)
    (p : Packet) : Packet :=
  {| LayerTypeIPv4 := LayerTypeIPv4 p; LayerTypeIPv6 := ip6;
     LayerTypeTCP := LayerTypeTCP p; LayerTypeUDP := udp |}.

(** Filters that allow no IPv4 and no TCP, and nothing else. *)
Definition deny_IPv4_TCP : PcapFilters :=
  {| HasL3Protos := true; AllowsIPv4 := false; AllowsIPv6 := true;
     HasIPv4s := false; HasIPv6s := false;
     AllowsIPv4Addr := fun _ => false; AllowsIPv6Addr := fun _ => false;
     HasL4Protos := true; HasTCPflags := false; HasL4Addrs := false;
     AllowsTCP := false; AllowsUDP := true;
     AllowsAnyTCPflags := fun _ => false;
     AllowsAnyL4Addr := fun _ _ => false;
     AllowsSocket := fun _ _ _ _ => false |}.

(** Filters with every kind configured: IPv4 between hosts 1 and 2, TCP
    with flags PSH+ACK to port 80, and the socket 1:1000 -> 2:80. *)
Definition allow_web : PcapFilters :=
  {| HasL3Protos := true; AllowsIPv4 := true; AllowsIPv6 := false;
     HasIPv4s := true; HasIPv6s := true;
     AllowsIPv4Addr := fun a => (a =? 1) || (a =? 2);
     AllowsIPv6Addr := fun _ => false;
     HasL4Protos := true; HasTCPflags := true; HasL4Addrs := true;
     AllowsTCP := true; AllowsUDP := false;
     AllowsAnyTCPflags := fun f => f =? 24;
     AllowsAnyL4Addr := fun _ d => d =? 80;
     AllowsSocket := fun sa sp da dp =>
       (sa =? 1) && (sp =? 1000) && (da =? 2) && (dp =? 80) |}.

(** A packet with link-layer content only (ARP, say). *)
Definition arp_packet : Packet :=
  {| LayerTypeIPv4 := None; LayerTypeIPv6 := None;
     LayerTypeTCP := None; LayerTypeUDP := None |}.

(** A TCP segment over IPv4. *)
Definition tcp4_packet : Packet :=
  {| LayerTypeIPv4 := Some {| SrcIP := 1; DstIP := 2 |}; LayerTypeIPv6 := None;
     LayerTypeTCP := Some {| tcp_SrcPort := 1000; tcp_DstPort := 80; tcp_flags := 24 |};
     LayerTypeUDP := None |}.

(** * Properties *)

(** ** Range lookup *)

Lemma fold_range_visit_app ref m e acc :
  fold_left (range_visit ref) (m ++ [e]) acc =
  range_visit ref (fold_left (range_visit ref) m acc) e.
Proof. by rewrite fold_left_app. Qed.

Lemma in_snoc {A} (m : list A) (e : A) : In e (m ++ [e]).
Proof. apply in_or_app. right. by left. Qed.

Lemma skipmap_sorted_cons k v m :
  skipmap_sorted ((k, v) :: m) = true ->
  skipmap_sorted m = true /\ forall k' v', In (k', v') m -> k < k'.
Proof.
  revert k v. induction m as [|[k1 v1] m IH]; intros k v Hs.
  - split; [done | intros ? ? []].
  - simpl in Hs. apply andb_true_iff in Hs as [Hlt Hs].
    apply Z.ltb_lt in Hlt. split; [exact Hs |].
    intros k' v' [Heq | Hin].
    + by inversion Heq; subst.
    + destruct (IH k1 v1 Hs) as [_ Hall]. specialize (Hall k' v' Hin). lia.
Qed.

Lemma skipmap_sorted_snoc m k v :
  skipmap_sorted (m ++ [(k, v)]) = true ->
  skipmap_sorted m = true /\ forall k' v', In (k', v') m -> k' < k.
Proof.
  induction m as [|[k1 v1] m IH]; intros Hs.
  - split; [done | intros ? ? []].
  - change (((k1, v1) :: m) ++ [(k, v)]) with ((k1, v1) :: (m ++ [(k, v)])) in Hs.
    destruct (skipmap_sorted_cons _ _ _ Hs) as [Hs' Hall].
    destruct (IH Hs') as [Hm Hlt]. split.
    + destruct m as [|[k2 v2] m']; [done |].
      simpl. apply andb_true_iff. split; [| exact Hm].
      apply Z.ltb_lt. apply (Hall k2 v2). simpl. by left.
    + intros k' v' [Heq | Hin].
      * inversion Heq; subst. apply (Hall k v). apply in_or_app. right. by left.
      * by apply (Hlt k' v').
Qed.

(** What the two captured variables hold after [Range] has visited a
    sorted map. *)
Lemma range_visit_sorted ref m :
  skipmap_sorted m = true ->
  let '(tracedFlow, lastTracedFlow) := fold_left (range_visit ref) m (None, None) in
  (forall k tf, greatest_below ref m k tf -> tracedFlow = Some tf) /\
  ((forall k tf, In (k, tf) m -> ref <= k) -> tracedFlow = None) /\
  (forall k tf, greatest_entry m k tf -> lastTracedFlow = Some tf) /\
  (m = [] -> lastTracedFlow = None).
Proof.
  induction m as [|[k v] m IH] using rev_ind; intros Hs.
  - simpl. repeat split; try done.
    + intros k tf [[] _].
    + intros k tf [[] _].
  - rewrite fold_range_visit_app.
    destruct (skipmap_sorted_snoc _ _ _ Hs) as [Hm Hlt].
    specialize (IH Hm).
    destruct (fold_left (range_visit ref) m (None, None)) as [tracedFlow lastTracedFlow].
    destruct IH as (Hbelow & Hnone & _ & _).
    unfold range_visit.
    repeat split.
    + intros k' tf' (Hin & Hk & Hmax).
      apply in_app_or in Hin as [Hin | [Heq | []]].
      * pose proof (Hlt _ _ Hin) as Hk'.
        destruct (Z.gtb_spec ref k) as [Hgt | Hle].
        { assert (k <= k') by
            (apply (Hmax k v); [apply in_or_app; right; by left | lia]).
          lia. }
        apply (Hbelow k' tf'). repeat split; [done | done |].
        intros k2 tf2 Hin2 Hk2. apply (Hmax k2 tf2); [| done].
        apply in_or_app. by left.
      * inversion Heq; subst.
        destruct (Z.gtb_spec ref k'); [done | lia].
    + intros Hall.
      destruct (Z.gtb_spec ref k) as [Hgt | Hle].
      * specialize (Hall k v (in_snoc _ _)). lia.
      * apply Hnone. intros k' tf' Hin. apply (Hall k' tf').
        apply in_or_app. by left.
    + intros k' tf' (Hin & Hmax).
      apply in_app_or in Hin as [Hin | [Heq | []]].
      * pose proof (Hlt _ _ Hin).
        specialize (Hmax k v (in_snoc _ _)). lia.
      * by inversion Heq; subst.
    + intros Hnil. by destruct m.
Qed.

(** C3: the traced-flow lookup visits the inner map in ascending key
    order and returns the entry at the greatest key strictly less than
    the reference; when no key is strictly less it returns the entry at
    the greatest key overall; an absent flow or stream gives not-found.
    With keys 0xFFFFFFF0 and 0x10 and reference 0x5 the entry at
    0xFFFFFFF0 is returned, with keys 100, 200, 300 and reference 250
    the entry at 200. *)
Theorem getTracedFlow_range_lookup :
  (forall (s : fm_state) (flowID0 seq ack : Z) (local : bool) (stream : Z),
     let ref := if local then ack else seq in
     let provider := fst (getTracedFlow flowID0 seq ack local s) in
     let found := snd (getTracedFlow flowID0 seq ack local s) in
     match flowToStreamToSequenceMap s !! flowID0 with
     | None => found = false /\ provider stream s = (None, false)
     | Some l =>
         found = true /\
         match streamMaps s !! l with
         | None => provider stream s = (None, false)
         | Some m =>
             match m !! stream with
             | None => provider stream s = (None, false)
             | Some sttsm =>
                 skipmap_sorted sttsm = true ->
                 exists r,
                   provider stream s = (r, true) /\
                   (forall k tf, greatest_below ref sttsm k tf -> r = Some tf) /\
                   ((forall k tf, In (k, tf) sttsm -> ref <= k) ->
                    forall k tf, greatest_entry sttsm k tf -> r = Some tf) /\
                   (sttsm = [] -> r = None)
             end
         end
     end) /\
  (forall fid sid tfA tfB,
     let s := index_with fid sid
                (skipmap_Store 0xFFFFFFF0 tfA (skipmap_Store 0x00000010 tfB [])) in
     fst (getTracedFlow fid 0x00000005 0 false s) sid s = (Some tfA, true)) /\
  (forall fid sid tf1 tf2 tf3,
     let s := index_with fid sid
                (skipmap_Store 300 tf3 (skipmap_Store 100 tf1 (skipmap_Store 200 tf2 []))) in
     fst (getTracedFlow fid 250 0 false s) sid s = (Some tf2, true)).
Proof.
  split; [| split].
  - intros s flowID0 seq ack local stream ref provider found.
    subst provider found. unfold getTracedFlow. fold ref.
    destruct (flowToStreamToSequenceMap s !! flowID0) as [l|]; simpl; [| done].
    split; [done |].
    destruct (streamMaps s !! l) as [m|]; [| done].
    destruct (m !! stream) as [sttsm|]; [| done].
    intros Hs. pose proof (range_visit_sorted ref sttsm Hs) as Hr.
    destruct (fold_left (range_visit ref) sttsm (None, None))
      as [tracedFlow lastTracedFlow].
    destruct Hr as (Hbelow & Hnone & Hlast & Hnil).
    eexists. split; [reflexivity |]. repeat split.
    + intros k tf Hg. by rewrite (Hbelow k tf Hg).
    + intros Hall k tf Hg. rewrite (Hnone Hall). by apply (Hlast k tf).
    + intros ->. simpl in Hnone. rewrite Hnone; [by apply Hnil |].
      intros ? ? [].
  - intros fid sid tfA tfB s. subst s. unfold getTracedFlow, index_with. simpl.
    rewrite lookup_insert_eq. simpl. rewrite lookup_insert_eq.
    by rewrite lookup_singleton_eq.
  - intros fid sid tf1 tf2 tf3 s. subst s. unfold getTracedFlow, index_with. simpl.
    rewrite lookup_insert_eq. simpl. rewrite lookup_insert_eq.
    by rewrite lookup_singleton_eq.
Qed.

Lemma getTracedFlow_range_lookup_witness :
  exists r,
    fst (getTracedFlow 1 250 0 false (index_with 1 10 [(100, 1%nat); (200, 2%nat); (300, 3%nat)]))
      10 (index_with 1 10 [(100, 1%nat); (200, 2%nat); (300, 3%nat)]) = (r, true) /\
    (forall k tf, greatest_below 250 [(100, 1%nat); (200, 2%nat); (300, 3%nat)] k tf ->
                  r = Some tf).
Proof.
  destruct getTracedFlow_range_lookup as [H _].
  specialize (H (index_with 1 10 [(100, 1%nat); (200, 2%nat); (300, 3%nat)])
                1 250 0 false 10).
  simpl in H. rewrite lookup_insert_eq in H. destruct H as [_ H].
  rewrite lookup_insert_eq in H. rewrite lookup_singleton_eq in H.
  destruct (H eq_refl) as (r & Hr & Hb & _).
  exists r. split; [exact Hr | exact Hb].
Defined.

(** ** Frame conditions of the operations *)

Section Guarantees.
Context (G : fm_state -> fm_state -> Prop) `{!PreOrder G}.

Lemma g_ret {A} (a : A) : guarantees G (ret a).
Proof. intros s. reflexivity. Qed.

Lemma g_panic {A} : guarantees G (@panic A).
Proof. intros s. reflexivity. Qed.

Lemma g_throw {A} : guarantees G (@throw A).
Proof. intros s. reflexivity. Qed.

Lemma g_gets {A} (f : fm_state -> A) : guarantees G (gets f).
Proof. intros s. reflexivity. Qed.

Lemma g_modify (f : fm_state -> fm_state) :
  (forall s, G s (f s)) -> guarantees G (modify f).
Proof. intros Hf s. apply Hf. Qed.

Lemma g_bind {A B} (m : M A) (k : A -> M B) :
  guarantees G m -> (forall a, guarantees G (k a)) ->
  guarantees G (bind m k).
Proof.
  intros Hm Hk s. unfold bind. specialize (Hm s).
  destruct (m s) as [[a| |] s1]; simpl in *; [| done | done].
  etransitivity; [exact Hm | apply Hk].
Qed.

Lemma g_defer {A} (d : M unit) (body : M A) :
  guarantees G d -> guarantees G body -> guarantees G (defer_ d body).
Proof.
  intros Hd Hb s. unfold defer_. specialize (Hb s).
  destruct (body s) as [[a| |] s1]; simpl in *; [| | done].
  - specialize (Hd s1). destruct (d s1) as [[[]| |] s2]; simpl in *;
      by etransitivity.
  - specialize (Hd s1). destruct (d s1) as [[[]| |] s2]; simpl in *;
      by etransitivity.
Qed.

Lemma g_defer_recover (body : M unit) :
  guarantees G body -> guarantees G (defer_recover body).
Proof.
  intros Hb s. unfold defer_recover. specialize (Hb s).
  by destruct (body s) as [[[]| |] s1].
Qed.

Lemma g_forM_ {A} (l : list A) (f : A -> M unit) :
  (forall a, guarantees G (f a)) -> guarantees G (forM_ l f).
Proof.
  intros Hf. induction l as [|a l IH]; simpl.
  - apply g_ret.
  - apply g_bind; [apply Hf | intros _; exact IH].
Qed.

Lemma g_range_streams (body : Z -> Z -> M Z) streams acc :
  (forall a b, guarantees G (body a b)) ->
  guarantees G (range_streams body streams acc).
Proof.
  intros Hf. revert acc. induction streams as [|a l IH]; intros acc; simpl.
  - apply g_ret.
  - apply g_bind; [apply Hf | intros acc'; apply IH].
Qed.

Lemma g_loadCarrier c : guarantees G (loadCarrier c).
Proof. intros s. unfold loadCarrier. by destruct (carriers s !! c). Qed.

Lemma g_loadTracedFlow t : guarantees G (loadTracedFlow t).
Proof. intros s. unfold loadTracedFlow. by destruct (tracedFlows s !! t). Qed.

Lemma g_loadStreamMap l : guarantees G (loadStreamMap l).
Proof. intros s. unfold loadStreamMap. by destruct (streamMaps s !! l). Qed.

Lemma g_activeRequests_Load c : guarantees G (activeRequests_Load c).
Proof. apply g_bind; [apply g_loadCarrier | intros; apply g_ret]. Qed.
End Guarantees.

Section FrameGuarantees.
Context (R : flowLockCarrier -> flowLockCarrier -> Prop) `{!PreOrder R}.

Lemma frame_refl s : frame R s s.
Proof. repeat split. intros c x Hc. exists x. split; [done | reflexivity]. Qed.

Lemma frame_trans s1 s2 s3 : frame R s1 s2 -> frame R s2 s3 -> frame R s1 s3.
Proof.
  intros (Hn1 & Hc1 & H1) (Hn2 & Hc2 & H2). repeat split; [congruence.. |].
  intros c x Hc. destruct (H1 c x Hc) as (x' & Hx' & Hr1).
  destruct (H2 c x' Hx') as (x'' & Hx'' & Hr2).
  exists x''. split; [done | by etransitivity].
Qed.

#[local] Instance frame_preorder : PreOrder (frame R).
Proof. split; [intros s; apply frame_refl | intros s1 s2 s3; apply frame_trans]. Qed.

Lemma frame_same s s' :
  now s' = now s -> cancelled s' = cancelled s -> carriers s' = carriers s ->
  frame R s s'.
Proof.
  intros Hn Hc Hcs. repeat split; [done.. |]. intros c x Hx. exists x.
  rewrite Hcs. split; [done | reflexivity].
Qed.

(** A write to a field of carrier [c] along [R]. *)
Lemma frame_store s c x f `{!StableUnder R f} :
  carriers s !! c = Some x ->
  frame R s (set_carriers (<[c := f x]>) s).
Proof.
  intros Hc. repeat split. intros c' x' Hc'. simpl.
  destruct (decide (c = c')) as [<- | Hne].
  - rewrite lookup_insert_eq. exists (f x). split; [done |].
    replace x' with x by congruence. apply stable_under.
  - rewrite lookup_insert_ne by done. exists x'. split; [done | reflexivity].
Qed.

Lemma g_updateCarrier c f `{!StableUnder R f} :
  guarantees (frame R) (updateCarrier c f).
Proof.
  intros s. unfold updateCarrier, bind, loadCarrier.
  destruct (carriers s !! c) as [x|] eqn:Hc; simpl; [| apply frame_refl].
  by apply frame_store.
Qed.

Lemma g_activeRequests_Add c d
    `{!forall v, StableUnder R (with_activeRequests v)} :
  guarantees (frame R) (activeRequests_Add c d).
Proof.
  intros s. unfold activeRequests_Add, bind, loadCarrier.
  destruct (carriers s !! c) as [x|] eqn:Hc; simpl; [| apply frame_refl].
  by apply frame_store.
Qed.

Lemma g_released_CompareAndSwap c `{!StableUnder R (with_released true)} :
  guarantees (frame R) (released_CompareAndSwap c false true).
Proof.
  intros s. unfold released_CompareAndSwap, bind, loadCarrier.
  destruct (carriers s !! c) as [x|] eqn:Hc; simpl; [| apply frame_refl].
  destruct (Bool.eqb (released x) false); simpl; [| apply frame_refl].
  by apply frame_store.
Qed.

Lemma g_wg_Add c d `{!forall v, StableUnder R (with_wg v)} :
  guarantees (frame R) (wg_Add c d).
Proof.
  intros s. unfold wg_Add, bind, loadCarrier.
  destruct (carriers s !! c) as [x|] eqn:Hc; simpl; [| apply frame_refl].
  destruct (wrap32 (wg x + d) <? 0); simpl; by apply frame_store.
Qed.

Lemma g_mu_Unlock c `{!StableUnder R (with_mu false)} :
  guarantees (frame R) (mu_Unlock c).
Proof.
  intros s. unfold mu_Unlock, bind, loadCarrier.
  destruct (carriers s !! c) as [x|] eqn:Hc; simpl; [| apply frame_refl].
  destruct (mu x); simpl; [by apply frame_store | apply frame_refl].
Qed.

Lemma g_mu_TryLock c `{!StableUnder R (with_mu true)} :
  guarantees (frame R) (mu_TryLock c).
Proof.
  intros s. unfold mu_TryLock, bind, loadCarrier.
  destruct (carriers s !! c) as [x|] eqn:Hc; simpl; [| apply frame_refl].
  destruct (mu x); simpl; [apply frame_refl | by apply frame_store].
Qed.

Lemma g_isActive_CompareAndSwap t old new :
  guarantees (frame R) (isActive_CompareAndSwap t old new).
Proof.
  intros s. unfold isActive_CompareAndSwap, bind, loadTracedFlow.
  destruct (tracedFlows s !! t) as [x|]; simpl; [| apply frame_refl].
  destruct (Bool.eqb (isActive x) old); simpl; by apply frame_same.
Qed.

Lemma g_unblocker_Stop t : guarantees (frame R) (unblocker_Stop t).
Proof.
  intros s. unfold unblocker_Stop, bind, loadTracedFlow.
  destruct (tracedFlows s !! t) as [x|]; simpl; [| apply frame_refl].
  destruct (phase (unblocker x)); simpl; by apply frame_same.
Qed.

Lemma g_newTracedFlow lock serial0 flowID0 ts0 :
  guarantees (frame R) (newTracedFlow lock serial0 flowID0 ts0).
Proof. intros s. by apply frame_same. Qed.

Lemma g_newStreamMap : guarantees (frame R) newStreamMap.
Proof. intros s. by apply frame_same. Qed.

Lemma g_newFlowLockCarrier serial0 flowID0 :
  guarantees (frame R) (newFlowLockCarrier serial0 flowID0).
Proof.
  intros s. repeat split. intros c x Hc. simpl. exists x.
  split; [| reflexivity]. rewrite lookup_insert_ne; [done |].
  intros <-. apply (is_fresh (dom (carriers s))).
  apply elem_of_dom. by exists x.
Qed.
End FrameGuarantees.

#[local] Existing Instance frame_preorder.

#[local] Instance released_kept_preorder : PreOrder released_kept.
Proof.
  split; unfold released_kept; [intros x; auto | intros x y z Hxy Hyz Hx; auto].
Qed.

#[local] Instance mutex_kept_preorder : PreOrder mutex_kept.
Proof.
  split; unfold mutex_kept; [intros x; auto |].
  intros x y z [Hm1 Hr1] [Hm2 Hr2]. split; [congruence | auto].
Qed.

#[local] Instance released_kept_mu b : StableUnder released_kept (with_mu b).
Proof. unfold StableUnder, released_kept, mutex_kept. intros x. simpl. auto. Qed.
#[local] Instance released_kept_wg v : StableUnder released_kept (with_wg v).
Proof. unfold StableUnder, released_kept, mutex_kept. intros x. simpl. auto. Qed.
#[local] Instance released_kept_released : StableUnder released_kept (with_released true).
Proof. unfold StableUnder, released_kept, mutex_kept. intros x. simpl. auto. Qed.
#[local] Instance released_kept_lastLockedAt t : StableUnder released_kept (with_lastLockedAt t).
Proof. unfold StableUnder, released_kept, mutex_kept. intros x. simpl. auto. Qed.
#[local] Instance released_kept_lastUnlockedAt t : StableUnder released_kept (with_lastUnlockedAt t).
Proof. unfold StableUnder, released_kept, mutex_kept. intros x. simpl. auto. Qed.
#[local] Instance released_kept_isHTTP2 b : StableUnder released_kept (with_isHTTP2 b).
Proof. unfold StableUnder, released_kept, mutex_kept. intros x. simpl. auto. Qed.
#[local] Instance released_kept_activeRequests v : StableUnder released_kept (with_activeRequests v).
Proof. unfold StableUnder, released_kept, mutex_kept. intros x. simpl. auto. Qed.

#[local] Instance mutex_kept_wg v : StableUnder mutex_kept (with_wg v).
Proof. unfold StableUnder, released_kept, mutex_kept. intros x. simpl. auto. Qed.
#[local] Instance mutex_kept_released : StableUnder mutex_kept (with_released true).
Proof. unfold StableUnder, released_kept, mutex_kept. intros x. simpl. auto. Qed.
#[local] Instance mutex_kept_lastLockedAt t : StableUnder mutex_kept (with_lastLockedAt t).
Proof. unfold StableUnder, released_kept, mutex_kept. intros x. simpl. auto. Qed.
#[local] Instance mutex_kept_lastUnlockedAt t : StableUnder mutex_kept (with_lastUnlockedAt t).
Proof. unfold StableUnder, released_kept, mutex_kept. intros x. simpl. auto. Qed.
#[local] Instance mutex_kept_isHTTP2 b : StableUnder mutex_kept (with_isHTTP2 b).
Proof. unfold StableUnder, released_kept, mutex_kept. intros x. simpl. auto. Qed.
#[local] Instance mutex_kept_activeRequests v : StableUnder mutex_kept (with_activeRequests v).
Proof. unfold StableUnder, released_kept, mutex_kept. intros x. simpl. auto. Qed.

Create HintDb guar.
#[local] Hint Resolve g_loadCarrier g_loadTracedFlow g_loadStreamMap
  g_updateCarrier g_activeRequests_Load g_activeRequests_Add
  g_released_CompareAndSwap g_wg_Add g_mu_Unlock g_mu_TryLock
  g_isActive_CompareAndSwap g_unblocker_Stop g_newTracedFlow g_newStreamMap
  g_newFlowLockCarrier : guar.

Ltac frame_done :=
  solve [ apply frame_same; [apply _ | done..] | by repeat split ].

Ltac guar_step :=
  match goal with
  | |- PreOrder _ => apply _
  | |- StableUnder _ _ => apply _
  | |- forall _, StableUnder _ _ => apply _
  | |- forall _, _ => intros
  | |- guarantees _ (ret _) => apply g_ret
  | |- guarantees _ panic => apply g_panic
  | |- guarantees _ throw => apply g_throw
  | |- guarantees _ (gets _) => apply g_gets
  | |- guarantees _ time_Now => apply g_gets
  | |- guarantees _ (ctx_Done _) => apply g_gets
  | |- guarantees _ (bind _ _) => apply g_bind
  | |- guarantees _ (defer_ _ _) => apply g_defer
  | |- guarantees _ (defer_recover _) => apply g_defer_recover
  | |- guarantees _ (forM_ _ _) => apply g_forM_
  | |- guarantees _ (range_streams _ _ _) => apply g_range_streams
  | |- guarantees _ (modify _) => apply g_modify; intros; frame_done
  | |- guarantees _ (storeStreamMap _ _) => apply g_modify; intros; frame_done
  | |- guarantees _ (storeTracedFlow _ _) => apply g_modify; intros; frame_done
  | |- guarantees _ (match ?x with _ => _ end) => destruct x
  | |- guarantees _ _ => solve [eauto with guar typeclass_instances]
  end.

Ltac guar := repeat guar_step.

Section Composite.
Context (R : flowLockCarrier -> flowLockCarrier -> Prop) `{!PreOrder R}.
Context `{!forall v, StableUnder R (with_activeRequests v)}.
Context `{!forall v, StableUnder R (with_wg v)}.

Lemma g_wg_Done c : guarantees (frame R) (wg_Done c).
Proof. unfold wg_Done. guar. Qed.

Lemma g_STSM_GetOrCompute l key valueFn :
  guarantees (frame R) valueFn ->
  guarantees (frame R) (STSM_GetOrCompute l key valueFn).
Proof. intros Hv. unfold STSM_GetOrCompute. guar. Qed.

Lemma g_sequenceToTracedFlowMapProvider isLocal sid seq ack tf m :
  guarantees (frame R) (sequenceToTracedFlowMapProvider isLocal sid seq ack tf m).
Proof.
  unfold sequenceToTracedFlowMapProvider. guar.
  apply g_STSM_GetOrCompute. guar.
Qed.

Lemma g_FTSTSM_GetOrCompute key valueFn :
  guarantees (frame R) valueFn ->
  guarantees (frame R) (FTSTSM_GetOrCompute key valueFn).
Proof. intros Hv. unfold FTSTSM_GetOrCompute. guar. Qed.

Lemma g_indexTracedFlow flowID0 seq ack local ts1 tf :
  guarantees (frame R) (indexTracedFlow flowID0 seq ack local ts1 tf).
Proof.
  pose proof g_sequenceToTracedFlowMapProvider as Hp.
  unfold indexTracedFlow. guar.
  - apply g_FTSTSM_GetOrCompute. guar.
  - apply g_STSM_GetOrCompute. guar.
Qed.

Lemma g_trackConnection lock serial0 flowID0 tcpFlags seq ack local ts0 :
  guarantees (frame R)
    (trackConnection lock serial0 flowID0 tcpFlags seq ack local ts0).
Proof. pose proof g_indexTracedFlow. unfold trackConnection. guar. Qed.

Lemma g_untrack_flow tf : guarantees (frame R) (untrack_flow tf).
Proof. unfold untrack_flow. guar. Qed.

Lemma g_untrack_stream ftsm stream sttsm :
  guarantees (frame R) (untrack_stream ftsm stream sttsm).
Proof. pose proof g_untrack_flow. unfold untrack_stream. guar. Qed.

Lemma g_drain fuel lock : guarantees (frame R) (drain fuel lock).
Proof. induction fuel as [|fuel IH]; simpl; guar. Qed.

Lemma g_untrackConnection flowID0 lock :
  guarantees (frame R) (untrackConnection flowID0 lock).
Proof.
  pose proof g_untrack_stream. pose proof g_drain.
  unfold untrackConnection. guar.
Qed.

Lemma g_schedule_untrack flowID0 carrier :
  guarantees (frame R) (schedule_untrack flowID0 carrier).
Proof. unfold schedule_untrack. guar. Qed.
End Composite.

Section CompositeAll.
Context (R : flowLockCarrier -> flowLockCarrier -> Prop) `{!PreOrder R}.
Context `{!forall v, StableUnder R (with_activeRequests v)}.
Context `{!forall v, StableUnder R (with_wg v)}.
Context `{!forall b, StableUnder R (with_mu b)}.
Context `{!forall b, StableUnder R (with_isHTTP2 b)}.
Context `{!forall t, StableUnder R (with_lastLockedAt t)}.
Context `{!forall t, StableUnder R (with_lastUnlockedAt t)}.
Context `{!StableUnder R (with_released true)}.

Lemma g_mu_Lock c : guarantees (frame R) (mu_Lock c).
Proof. unfold mu_Lock. guar. Qed.

Lemma g_unblocker_critical c : guarantees (frame R) (unblocker_critical c).
Proof. pose proof (g_wg_Done R). unfold unblocker_critical. guar. Qed.

Lemma g__unlock c : guarantees (frame R) (_unlock c).
Proof. unfold _unlock. guar. Qed.

Lemma g_UnlockAndReleaseFN flowID0 c ts0 ctx :
  guarantees (frame R) (UnlockAndReleaseFN flowID0 c ts0 ctx).
Proof.
  pose proof g__unlock. pose proof (g_untrackConnection R).
  pose proof (g_schedule_untrack R).
  unfold UnlockAndReleaseFN. guar.
Qed.

Lemma g_UnlockWithTCPFlagsFN flowID0 c ts0 ctx flags :
  guarantees (frame R) (UnlockWithTCPFlagsFN flowID0 c ts0 ctx flags).
Proof.
  pose proof g__unlock. pose proof g_UnlockAndReleaseFN.
  unfold UnlockWithTCPFlagsFN. guar.
Qed.

Lemma g_UnlockFn flowID0 flags c ts0 ctx :
  guarantees (frame R) (UnlockFn flowID0 flags c ts0 ctx).
Proof. apply g_UnlockWithTCPFlagsFN. Qed.

Lemma g_handle_request serial0 flowID0 seq ack local c flags requestTS acc stream :
  guarantees (frame R)
    (handle_request serial0 flowID0 seq ack local c flags requestTS acc stream).
Proof. pose proof (g_trackConnection R). unfold handle_request. guar. Qed.

Lemma g_handle_response c provider responseTS acc stream :
  guarantees (frame R) (handle_response c provider responseTS acc stream).
Proof. pose proof (g_wg_Done R). unfold handle_response. guar. Qed.

Lemma g_UnlockWithTraceAndSpanFN serial0 flowID0 seq ack local c ts0 provider
    ctx flags h2 rs ps rts pts :
  guarantees (frame R)
    (UnlockWithTraceAndSpanFN serial0 flowID0 seq ack local c ts0 provider
       ctx flags h2 rs ps rts pts).
Proof.
  pose proof g_handle_request. pose proof g_handle_response.
  pose proof g_UnlockWithTCPFlagsFN.
  unfold UnlockWithTraceAndSpanFN. guar.
Qed.

Lemma g_UnlockWithTraceAndSpanFallback flowID0 c ts0 ar ctx flags h2 rs ps rts pts :
  guarantees (frame R)
    (UnlockWithTraceAndSpanFallback flowID0 c ts0 ar ctx flags h2 rs ps rts pts).
Proof.
  pose proof g_UnlockWithTCPFlagsFN.
  unfold UnlockWithTraceAndSpanFallback. guar.
Qed.

Lemma g_lock_carrier serial0 flowID0 :
  guarantees (frame R) (lock_carrier serial0 flowID0).
Proof. unfold lock_carrier. guar. Qed.

Lemma g_lock_locked serial0 flowID0 flags seq ack local c :
  guarantees (frame R) (lock_locked serial0 flowID0 flags seq ack local c).
Proof. unfold lock_locked. guar. Qed.

Lemma g_reap flowID0 c : guarantees (frame R) (reap flowID0 c).
Proof. pose proof (g_untrackConnection R). unfold reap. guar. Qed.

Lemma g_reaper_tick : guarantees (frame R) reaper_tick.
Proof. pose proof g_reap. unfold reaper_tick. guar. Qed.

Lemma frame_lock_step ctx serial0 flowID0 flags seq ack local pc s pc' s' :
  lock_step ctx serial0 flowID0 flags seq ack local pc s = Some (pc', s') ->
  frame R s s'.
Proof.
  destruct pc as [|c|c|c|h p]; simpl.
  - pose proof (g_lock_carrier serial0 flowID0 s) as Hg.
    destruct (lock_carrier serial0 flowID0 s) as [[c| |] s1]; [| done..].
    intros [= <- <-]. exact Hg.
  - destruct (isConnectionTermination flags);
      [destruct (bool_decide _) |]; intros [= <- <-]; apply (frame_refl R).
  - destruct (carriers s !! c) as [x|]; [| done].
    destruct (wg x =? 0); [| done]. intros [= <- <-]. apply (frame_refl R).
  - destruct (carriers s !! c) as [x|]; [| done].
    destruct (mu x); [done |].
    assert (guarantees (frame R)
              (run mu_Lock c; lock_locked serial0 flowID0 flags seq ack local c))
      as Hg by (pose proof g_mu_Lock; pose proof g_lock_locked; guar).
    specialize (Hg s).
    destruct ((run mu_Lock c; lock_locked serial0 flowID0 flags seq ack local c) s)
      as [[[h p]| |] s1]; [| done..].
    intros [= <- <-]. exact Hg.
  - done.
Qed.

Lemma frame_lock_steps ctx serial0 flowID0 flags seq ack local n pc s :
  frame R s (snd (lock_steps ctx serial0 flowID0 flags seq ack local n pc s)).
Proof.
  revert pc s. induction n as [|n IH]; intros pc s; simpl; [apply (frame_refl R) |].
  destruct (lock_step ctx serial0 flowID0 flags seq ack local pc s)
    as [[pc' s']|] eqn:Hstep; [| apply (frame_refl R)].
  eapply (frame_trans R); [by eapply frame_lock_step | apply IH].
Qed.
End CompositeAll.

(** ** [released] along a run *)

Lemma fst_reported c r : fst (reported c r) = snd r.
Proof. by destruct r as [[[won l]| |] s']. Qed.

Lemma frame_carriers R s s' c x :
  frame R s s' -> carriers s !! c = Some x ->
  exists x', carriers s' !! c = Some x' /\ R x x'.
Proof. intros (_ & _ & H). apply H. Qed.

Lemma exec_keeps_released o s c x :
  carriers s !! c = Some x ->
  exists x', carriers (fst (exec o s)) !! c = Some x' /\ released_kept x x'.
Proof.
  intros Hc.
  assert (forall s', frame released_kept s s' ->
            exists x', carriers s' !! c = Some x' /\ released_kept x x') as Hframe
    by (intros s' Hf; by eapply frame_carriers).
  assert (forall s', carriers s' = carriers s ->
            exists x', carriers s' !! c = Some x' /\ released_kept x x') as Hsame
    by (intros s' ->; exists x; split; [done | by intros ?]).
  destruct o; unfold exec; try rewrite fst_reported; cbn [fst].
  - by apply Hsame.
  - by apply Hsame.
  - apply Hframe. apply (frame_lock_steps released_kept).
  - apply Hframe. apply (g_UnlockFn released_kept).
  - apply Hframe. apply (g_UnlockAndReleaseFN released_kept).
  - apply Hframe. apply (g_UnlockWithTCPFlagsFN released_kept).
  - apply Hframe. apply (g_UnlockWithTraceAndSpanFN released_kept).
  - apply Hframe. apply (g_UnlockWithTraceAndSpanFallback released_kept).
  - unfold unblocker_expire.
    destruct (tracedFlows s !! t) as [y|]; [| by apply Hsame].
    destruct (phase (unblocker y)); [| by apply Hsame..].
    destruct (due (unblocker y) <=? now s); by apply Hsame.
  - unfold unblocker_cas.
    destruct (tracedFlows s !! t) as [y|]; [| by apply Hsame].
    destruct (phase (unblocker y)) as [| |[]]; by apply Hsame.
  - unfold unblocker_run.
    destruct (tracedFlows s !! t) as [y|]; [| by apply Hsame].
    destruct (phase (unblocker y)) as [| |[]]; try by apply Hsame.
    destruct (carriers s !! tf_lock y) as [z|]; [| by apply Hsame].
    destruct (mu z); [by apply Hsame |]. cbn [snd]. apply Hframe.
    pose proof (g_mu_Lock released_kept).
    pose proof (g_unblocker_critical released_kept).
    assert (guarantees (frame released_kept)
              (run mu_Lock (tf_lock y); run unblocker_critical (tf_lock y);
               storeTracedFlow t (with_phase (Expired Finished) y))) as Hg by guar.
    apply Hg.
  - destruct (untrackTimers s !! i) as [ut|]; [| by apply Hsame].
    destruct (ut_due ut <=? now s); [| by apply Hsame].
    pose proof (g_untrackConnection released_kept (ut_flowID ut) (ut_carrier ut)
                  (set_untrackTimers (delete i) s)) as Hg.
    destruct (frame_carriers _ _ _ c x Hg Hc) as (x' & Hx' & Hr). by exists x'.
  - apply Hframe. apply (g_reaper_tick released_kept).
Qed.

Lemma exec_released_of o s c :
  released_of c s = true -> released_of c (fst (exec o s)) = true.
Proof.
  unfold released_of. destruct (carriers s !! c) as [x|] eqn:Hc; [| done].
  intros Hr. destruct (exec_keeps_released o s c x Hc) as (x' & -> & Hk).
  by apply Hk.
Qed.

Lemma flips_released c ops s :
  released_of c s = true -> flips c ops s = O.
Proof.
  revert s. induction ops as [|o ops IH]; intros s Hr; simpl; [done |].
  rewrite Hr. simpl. apply IH. by apply exec_released_of.
Qed.

Lemma flips_at_most_once c ops s : (flips c ops s <= 1)%nat.
Proof.
  revert s. induction ops as [|o ops IH]; intros s; simpl; [lia |].
  destruct (released_of c s) eqn:Hr; simpl.
  - rewrite flips_released; [lia | by apply exec_released_of].
  - destruct (released_of c (fst (exec o s))) eqn:Hr'.
    + rewrite flips_released; [lia | done].
    + specialize (IH (fst (exec o s))). lia.
Qed.

(** ** Executing the primitives on a known state *)

Lemma run_bind {A B} (m : M A) (k : A -> M B) s a s1 :
  m s = (Returned a, s1) -> bind m k s = k a s1.
Proof. intros H. unfold bind. by rewrite H. Qed.

Lemma run_bind_panicked {A B} (m : M A) (k : A -> M B) s s1 :
  m s = (Panicked, s1) -> bind m k s = (Panicked, s1).
Proof. intros H. unfold bind. by rewrite H. Qed.

Lemma run_loadCarrier s c x :
  carriers s !! c = Some x -> loadCarrier c s = (Returned x, s).
Proof. intros H. unfold loadCarrier. by rewrite H. Qed.

Lemma run_updateCarrier s c x f :
  carriers s !! c = Some x ->
  updateCarrier c f s = (Returned tt, set_carriers (<[c := f x]>) s).
Proof. intros H. unfold updateCarrier. by rewrite (run_bind _ _ _ _ _ (run_loadCarrier _ _ _ H)). Qed.

Lemma run_activeRequests_Load s c x :
  carriers s !! c = Some x ->
  activeRequests_Load c s = (Returned (activeRequests x), s).
Proof. intros H. unfold activeRequests_Load. by rewrite (run_bind _ _ _ _ _ (run_loadCarrier _ _ _ H)). Qed.

Lemma run_activeRequests_Add s c x d :
  carriers s !! c = Some x ->
  activeRequests_Add c d s =
  (Returned (wrap64 (activeRequests x + d)),
   set_carriers (<[c := with_activeRequests (wrap64 (activeRequests x + d)) x]>) s).
Proof. intros H. unfold activeRequests_Add. by rewrite (run_bind _ _ _ _ _ (run_loadCarrier _ _ _ H)). Qed.

Lemma run_released_CompareAndSwap s c x :
  carriers s !! c = Some x ->
  released_CompareAndSwap c false true s =
  if released x then (Returned false, s)
  else (Returned true, set_carriers (<[c := with_released true x]>) s).
Proof.
  intros H. unfold released_CompareAndSwap.
  rewrite (run_bind _ _ _ _ _ (run_loadCarrier _ _ _ H)). by destruct (released x).
Qed.

Lemma run_wg_Add s c x d :
  carriers s !! c = Some x ->
  wg_Add c d s =
  (if wrap32 (wg x + d) <? 0 then Panicked else Returned tt,
   set_carriers (<[c := with_wg (wrap32 (wg x + d)) x]>) s).
Proof.
  intros H. unfold wg_Add.
  rewrite (run_bind _ _ _ _ _ (run_loadCarrier _ _ _ H)). cbn.
  by destruct (wrap32 (wg x + d) <? 0).
Qed.

Lemma run_mu_Unlock s c x :
  carriers s !! c = Some x -> mu x = true ->
  mu_Unlock c s = (Returned tt, set_carriers (<[c := with_mu false x]>) s).
Proof.
  intros H Hm. unfold mu_Unlock.
  rewrite (run_bind _ _ _ _ _ (run_loadCarrier _ _ _ H)). by rewrite Hm.
Qed.

Lemma run_loadTracedFlow s t x :
  tracedFlows s !! t = Some x -> loadTracedFlow t s = (Returned x, s).
Proof. intros H. unfold loadTracedFlow. by rewrite H. Qed.

Lemma run_isActive_CompareAndSwap s t x :
  tracedFlows s !! t = Some x ->
  isActive_CompareAndSwap t true false s =
  if isActive x
  then (Returned true, set_tracedFlows (<[t := with_isActive false x]>) s)
  else (Returned false, s).
Proof.
  intros H. unfold isActive_CompareAndSwap.
  rewrite (run_bind _ _ _ _ _ (run_loadTracedFlow _ _ _ H)). by destruct (isActive x).
Qed.

Lemma run_unblocker_Stop s t x :
  tracedFlows s !! t = Some x ->
  unblocker_Stop t s =
  match phase (unblocker x) with
  | Armed => (Returned true, set_tracedFlows (<[t := with_phase Stopped x]>) s)
  | _ => (Returned false, s)
  end.
Proof.
  intros H. unfold unblocker_Stop.
  rewrite (run_bind _ _ _ _ _ (run_loadTracedFlow _ _ _ H)).
  by destruct (phase (unblocker x)).
Qed.

(** The unlock helper on a held mutex. *)
Lemma run__unlock s c x :
  carriers s !! c = Some x -> mu x = true ->
  _unlock c s =
  (Returned tt,
   set_carriers (<[c := with_mu false (with_lastUnlockedAt (now s) x)]>) s).
Proof.
  intros H Hm. unfold _unlock, defer_recover, defer_.
  rewrite (run_bind time_Now _ s (now s) s) by done.
  rewrite (run_updateCarrier _ _ _ _ H).
  rewrite (run_mu_Unlock _ c (with_lastUnlockedAt (now s) x));
    [| by cbn; rewrite lookup_insert_eq | done].
  cbn. unfold set_carriers. cbn. by rewrite insert_insert_eq.
Qed.

(** What a [defer] hides: a normal return means that both the body and
    the deferred call returned. *)
Lemma defer_returned {A} (d : M unit) (body : M A) s a s' :
  defer_ d body s = (Returned a, s') ->
  exists s1, body s = (Returned a, s1) /\ d s1 = (Returned tt, s').
Proof.
  unfold defer_. destruct (body s) as [[a1| |] s1]; [| | done].
  - destruct (d s1) as [[[]| |] s2] eqn:Hd; [| done..].
    intros [= <- <-]. by exists s1.
  - by destruct (d s1) as [[[]| |] s2].
Qed.

(** ** Single-shot release *)

Lemma released_of_frame c s s' :
  frame released_kept s s' -> released_of c s = true -> released_of c s' = true.
Proof.
  intros Hf. unfold released_of.
  destruct (carriers s !! c) as [x|] eqn:Hc; [| done].
  destruct (frame_carriers _ _ _ _ _ Hf Hc) as (x' & -> & Hk). exact Hk.
Qed.

(** The body of [UnlockAndReleaseFN], before the deferred unlock. *)
Lemma run_release_body flowID0 c ts0 ctx s x :
  carriers s !! c = Some x ->
  let won := (activeRequests x =? 0) && negb (released x) in
  let body :=
    (do v <- activeRequests_Load c;
     do won <- (if v =? 0 then released_CompareAndSwap c false true else ret false);
     if won : bool then
       do done <- ctx_Done ctx;
       run (if done : bool then untrackConnection flowID0 c
            else schedule_untrack flowID0 c);
       do n <- time_Now; ret (true, n - ts0)
     else do n <- time_Now; ret (false, n - ts0)) in
  body s =
  if won then
    (do done <- ctx_Done ctx;
     run (if done : bool then untrackConnection flowID0 c
          else schedule_untrack flowID0 c);
     do n <- time_Now; ret (true, n - ts0))
      (set_carriers (<[c := with_released true x]>) s)
  else (Returned (false, now s - ts0), s).
Proof.
  intros Hc won body. subst won body.
  rewrite (run_bind _ _ _ _ _ (run_activeRequests_Load _ _ _ Hc)).
  destruct (activeRequests x =? 0); cbn [andb].
  - unfold bind at 1. rewrite (run_released_CompareAndSwap _ _ _ Hc).
    by destruct (released x).
  - done.
Qed.

Lemma UnlockAndReleaseFN_winner flowID0 c ts0 ctx s l s' :
  UnlockAndReleaseFN flowID0 c ts0 ctx s = (Returned (true, l), s') ->
  released_of c s = false /\ released_of c s' = true.
Proof.
  unfold UnlockAndReleaseFN. intros Hd.
  apply defer_returned in Hd as (s1 & Hbody & Hunlock).
  destruct (carriers s !! c) as [x|] eqn:Hc.
  - rewrite (run_release_body flowID0 c ts0 ctx s x Hc) in Hbody.
    destruct ((activeRequests x =? 0) && negb (released x)) eqn:Hwon; [| done].
    apply andb_true_iff in Hwon as [_ Hrel]. apply negb_true_iff in Hrel.
    split; [unfold released_of; by rewrite Hc |].
    pose proof (g__unlock released_kept c s1) as Hf2. rewrite Hunlock in Hf2.
    apply (released_of_frame c s1 s' Hf2).
    assert (guarantees (frame released_kept)
              (do done <- ctx_Done ctx;
               run (if done : bool then untrackConnection flowID0 c
                    else schedule_untrack flowID0 c);
               do n <- time_Now; ret (true, n - ts0))) as Hg.
    { pose proof (g_untrackConnection released_kept).
      pose proof (g_schedule_untrack released_kept). guar. }
    specialize (Hg (set_carriers (<[c := with_released true x]>) s)).
    rewrite Hbody in Hg.
    apply (released_of_frame c _ s1 Hg).
    unfold released_of. cbn. by rewrite lookup_insert_eq.
  - unfold bind at 1 in Hbody. unfold activeRequests_Load, bind, loadCarrier in Hbody.
    by rewrite Hc in Hbody.
Qed.

Lemma UnlockWithTCPFlagsFN_winner flowID0 c ts0 ctx flags s l s' :
  UnlockWithTCPFlagsFN flowID0 c ts0 ctx flags s = (Returned (true, l), s') ->
  released_of c s = false /\ released_of c s' = true.
Proof.
  unfold UnlockWithTCPFlagsFN. destruct (isConnectionTermination flags).
  - apply UnlockAndReleaseFN_winner.
  - intros Hd. apply defer_returned in Hd as (s1 & Hbody & _). done.
Qed.

Lemma exec_winner o s s' c :
  exec o s = (s', Some (c, true)) ->
  released_of c s = false /\ released_of c s' = true.
Proof.
  destruct o; unfold exec; try done.
  - unfold UnlockFn, reported.
    destruct (UnlockWithTCPFlagsFN _ _ _ _ _ s) as [[[won l]| |] s1] eqn:Hu; [| done..].
    intros [= <- <- ->]. by eapply UnlockWithTCPFlagsFN_winner.
  - unfold reported.
    destruct (UnlockAndReleaseFN _ _ _ _ s) as [[[won l]| |] s1] eqn:Hu; [| done..].
    intros [= <- <- ->]. by eapply UnlockAndReleaseFN_winner.
  - unfold reported.
    destruct (UnlockWithTCPFlagsFN _ _ _ _ _ s) as [[[won l]| |] s1] eqn:Hu; [| done..].
    intros [= <- <- ->]. by eapply UnlockWithTCPFlagsFN_winner.
Qed.

Lemma winners_le_flips c ops s : (winners c ops s <= flips c ops s)%nat.
Proof.
  revert s. induction ops as [|o ops IH]; intros s; simpl; [lia |].
  destruct (exec o s) as [s' r] eqn:He. cbn [fst].
  specialize (IH s').
  destruct r as [[c' []]|]; [| lia..].
  destruct (decide (c' = c)) as [-> |]; [| lia].
  destruct (exec_winner o s s' c He) as [-> ->]. simpl. lia.
Qed.

(** [untrackConnection] recovers from its own panics. *)
Section Recoverable.
Lemma rec_ret {A} (a : A) : recoverable (ret a).
Proof. by intros s. Qed.

Lemma rec_panic {A} : recoverable (@panic A).
Proof. by intros s. Qed.

Lemma rec_gets {A} (f : fm_state -> A) : recoverable (gets f).
Proof. by intros s. Qed.

Lemma rec_modify f : recoverable (modify f).
Proof. by intros s. Qed.

Lemma rec_bind {A B} (m : M A) (k : A -> M B) :
  recoverable m -> (forall a, recoverable (k a)) -> recoverable (bind m k).
Proof.
  intros Hm Hk s. unfold bind. specialize (Hm s).
  destruct (m s) as [[a| |] s1]; simpl in *; [apply Hk | done | done].
Qed.

Lemma rec_forM_ {A} (l : list A) (f : A -> M unit) :
  (forall a, recoverable (f a)) -> recoverable (forM_ l f).
Proof.
  intros Hf. induction l as [|a l IH]; simpl; [apply rec_ret |].
  apply rec_bind; [apply Hf | intros _; exact IH].
Qed.

Lemma rec_loadCarrier c : recoverable (loadCarrier c).
Proof. intros s. unfold loadCarrier. by destruct (carriers s !! c). Qed.

Lemma rec_loadTracedFlow t : recoverable (loadTracedFlow t).
Proof. intros s. unfold loadTracedFlow. by destruct (tracedFlows s !! t). Qed.

Lemma rec_loadStreamMap l : recoverable (loadStreamMap l).
Proof. intros s. unfold loadStreamMap. by destruct (streamMaps s !! l). Qed.
End Recoverable.

Ltac rec_step :=
  match goal with
  | |- forall _, _ => intros
  | |- recoverable (ret _) => apply rec_ret
  | |- recoverable panic => apply rec_panic
  | |- recoverable (gets _) => apply rec_gets
  | |- recoverable (modify _) => apply rec_modify
  | |- recoverable (storeCarrier _ _) => apply rec_modify
  | |- recoverable (storeTracedFlow _ _) => apply rec_modify
  | |- recoverable (storeStreamMap _ _) => apply rec_modify
  | |- recoverable (loadCarrier _) => apply rec_loadCarrier
  | |- recoverable (loadTracedFlow _) => apply rec_loadTracedFlow
  | |- recoverable (loadStreamMap _) => apply rec_loadStreamMap
  | |- recoverable (bind _ _) => apply rec_bind
  | |- recoverable (forM_ _ _) => apply rec_forM_
  | |- recoverable (match ?x with _ => _ end) => destruct x
  | |- recoverable _ => solve [eauto]
  end.

Lemma rec_drain fuel lock : recoverable (drain fuel lock).
Proof.
  induction fuel as [|fuel IH]; simpl; [apply rec_ret |].
  unfold activeRequests_Load, activeRequests_Add, wg_Done, wg_Add.
  repeat rec_step.
Qed.

Lemma untrackConnection_returns flowID0 lock s :
  exists s', untrackConnection flowID0 lock s = (Returned tt, s').
Proof.
  unfold untrackConnection, defer_recover.
  match goal with |- context [match ?b s with _ => _ end] =>
    assert (recoverable b) as Hrec; [| specialize (Hrec s); destruct (b s) as [[[]| |] s1] ]
  end.
  - pose proof rec_drain.
    unfold untrack_stream, untrack_flow, isActive_CompareAndSwap, unblocker_Stop,
      activeRequests_Load.
    repeat rec_step.
  - by eexists.
  - by eexists.
  - done.
Qed.

Lemma run_schedule_untrack flowID0 c s :
  schedule_untrack flowID0 c s =
  (Returned tt,
   set_untrackTimers
     (fun l => l ++ [{| ut_due := now s + trackingDeadline;
                        ut_flowID := flowID0; ut_carrier := c |}]) s).
Proof. done. Qed.

Lemma UnlockAndReleaseFN_spec flowID0 c ts0 ctx s x :
  carriers s !! c = Some x -> mu x = true ->
  let won := (activeRequests x =? 0) && negb (released x) in
  exists s' x',
    UnlockAndReleaseFN flowID0 c ts0 ctx s = (Returned (won, now s - ts0), s') /\
    carriers s' !! c = Some x' /\ mu x' = false /\
    lastUnlockedAt x' = Some (now s) /\
    released x' = released x || won /\
    (won = false ->
     s' = set_carriers (<[c := with_mu false (with_lastUnlockedAt (now s) x)]>) s) /\
    (won = true -> ctx ∉ cancelled s ->
     s' = set_untrackTimers
            (fun l => l ++ [{| ut_due := now s + trackingDeadline;
                               ut_flowID := flowID0; ut_carrier := c |}])
            (set_carriers
               (<[c := with_mu false
                         (with_lastUnlockedAt (now s) (with_released true x))]>) s)) /\
    (won = true -> ctx ∈ cancelled s ->
     exists s2 x2,
       untrackConnection flowID0 c (set_carriers (<[c := with_released true x]>) s)
       = (Returned tt, s2) /\
       carriers s2 !! c = Some x2 /\
       s' = set_carriers (<[c := with_mu false (with_lastUnlockedAt (now s) x2)]>) s2).
Proof.
  intros Hc Hmu won. unfold UnlockAndReleaseFN, defer_.
  rewrite (run_release_body flowID0 c ts0 ctx s x Hc). fold won.
  destruct won eqn:Hwon.
  - (* the caller wins the CAS *)
    set (s0 := set_carriers (<[c := with_released true x]>) s).
    assert (carriers s0 !! c = Some (with_released true x)) as Hc0
      by (subst s0; cbn; by rewrite lookup_insert_eq).
    unfold bind at 1. unfold ctx_Done at 1. cbn [gets].
    destruct (bool_decide (ctx ∈ cancelled s0)) eqn:Hdone.
    + apply bool_decide_eq_true in Hdone.
      destruct (untrackConnection_returns flowID0 c s0) as [s2 Hu].
      pose proof (g_untrackConnection mutex_kept flowID0 c s0) as Hf.
      rewrite Hu in Hf. cbn [snd] in Hf.
      destruct Hf as (Hnow & _ & Hcs).
      destruct (Hcs c _ Hc0) as (x2 & Hc2 & Hmu2 & Hrel2).
      rewrite (run_bind _ _ _ _ _ Hu).
      rewrite (run_bind time_Now _ s2 (now s2) s2) by done.
      cbn [ret]. rewrite (run__unlock _ _ _ Hc2); [| by rewrite Hmu2].
      rewrite Hnow. subst s0. cbn [now set_carriers].
      eexists _, _. split; [reflexivity |].
      split; [cbn; by rewrite lookup_insert_eq |].
      split; [done |]. split; [done |].
      split; [cbn; rewrite Hrel2 by reflexivity; by rewrite orb_true_r |].
      split; [done |].
      split; [intros _ Hnot; destruct Hnot; exact Hdone |].
      intros _ _. by exists s2, x2.
    + apply bool_decide_eq_false in Hdone.
      rewrite (run_bind _ _ _ _ _ (run_schedule_untrack flowID0 c s0)).
      match goal with |- context [bind time_Now _ ?st] =>
        rewrite (run_bind time_Now _ st (now st) st) by done end.
      cbn [ret].
      rewrite (run__unlock _ c (with_released true x)); [| done | done].
      subst s0. cbn [now set_untrackTimers set_carriers].
      eexists _, _. split; [reflexivity |].
      split; [cbn; by rewrite lookup_insert_eq |].
      split; [done |]. split; [done |].
      split; [cbn; by rewrite orb_true_r |].
      split; [done |].
      split; [| intros _ Hin; destruct Hdone; exact Hin].
      intros _ _. unfold set_untrackTimers, set_carriers. cbn.
      by rewrite insert_insert_eq.
  - rewrite (run__unlock _ _ _ Hc Hmu).
    eexists _, _. split; [reflexivity |].
    split; [cbn; by rewrite lookup_insert_eq |].
    split; [done |]. split; [done |].
    split; [cbn; by rewrite orb_false_r |]. by split_and!.
Qed.

(** C4: along every run [released] of a carrier goes from false to true
    at most once and at most one unlock on that carrier reports
    [released_winner = true]; a termination-flagged [unlock_with_flags]
    is [unlock_and_release]; a caller wins exactly when
    [active_requests] is 0 and [released] is still false, only the
    winner schedules (or, on a cancelled context, runs) untrack, and the
    mutex is released whether or not the caller wins. *)
Theorem single_shot_release :
  (forall c ops s, (flips c ops s <= 1)%nat /\ (winners c ops s <= 1)%nat) /\
  (forall flowID0 c ts0 ctx flags,
     isConnectionTermination flags = true ->
     UnlockWithTCPFlagsFN flowID0 c ts0 ctx flags =
     UnlockAndReleaseFN flowID0 c ts0 ctx) /\
  (forall flowID0 c ts0 ctx s x,
     carriers s !! c = Some x -> mu x = true ->
     let won := (activeRequests x =? 0) && negb (released x) in
     exists s' x',
       UnlockAndReleaseFN flowID0 c ts0 ctx s = (Returned (won, now s - ts0), s') /\
       carriers s' !! c = Some x' /\ mu x' = false /\
       lastUnlockedAt x' = Some (now s) /\
       released x' = released x || won /\
       (won = false ->
        s' = set_carriers (<[c := with_mu false (with_lastUnlockedAt (now s) x)]>) s) /\
       (won = true -> ctx ∉ cancelled s ->
        s' = set_untrackTimers
               (fun l => l ++ [{| ut_due := now s + trackingDeadline;
                                  ut_flowID := flowID0; ut_carrier := c |}])
               (set_carriers
                  (<[c := with_mu false
                            (with_lastUnlockedAt (now s) (with_released true x))]>) s)) /\
       (won = true -> ctx ∈ cancelled s ->
        exists s2 x2,
          untrackConnection flowID0 c (set_carriers (<[c := with_released true x]>) s)
          = (Returned tt, s2) /\
          carriers s2 !! c = Some x2 /\
          s' = set_carriers (<[c := with_mu false (with_lastUnlockedAt (now s) x2)]>) s2)).
Proof.
  split; [| split].
  - intros c ops s. pose proof (flips_at_most_once c ops s).
    pose proof (winners_le_flips c ops s). lia.
  - intros flowID0 c ts0 ctx flags Hterm. unfold UnlockWithTCPFlagsFN.
    by rewrite Hterm.
  - apply UnlockAndReleaseFN_spec.
Qed.

Lemma single_shot_release_witness :
  exists s',
    UnlockAndReleaseFN 1 0%nat 0 0%nat (held_state 0 false)
    = (Returned (true, 0), s') /\
    released_of 0%nat s' = true.
Proof.
  destruct single_shot_release as (_ & _ & H).
  destruct (H 1 0%nat 0 0%nat (held_state 0 false) (held_carrier 0 false)
              eq_refl eq_refl) as (s' & x' & Hrun & Hc & _ & _ & Hrel & _).
  exists s'. split; [exact Hrun |].
  unfold released_of. rewrite Hc. exact Hrel.
Defined.

(** ** Tracking a connection *)

#[local] Instance index_only_preorder : PreOrder index_only.
Proof.
  split.
  - intros s. by repeat split.
  - intros s1 s2 s3 (? & ? & ? & ? & ? & ? & ?) (? & ? & ? & ? & ? & ? & ?).
    repeat split; congruence.
Qed.

Lemma g_indexTracedFlow_index_only flowID0 seq ack local ts1 tf :
  guarantees index_only (indexTracedFlow flowID0 seq ack local ts1 tf).
Proof.
  assert (guarantees index_only newStreamMap) as Hnew by (intros s; by repeat split).
  assert (forall l key valueFn, guarantees index_only valueFn ->
            guarantees index_only (STSM_GetOrCompute l key valueFn)) as Hstsm
    by (intros l key valueFn Hv; unfold STSM_GetOrCompute; guar).
  assert (forall isLocal sid seq0 ack0 tf0 m,
            guarantees index_only
              (sequenceToTracedFlowMapProvider isLocal sid seq0 ack0 tf0 m)) as Hprov
    by (intros; unfold sequenceToTracedFlowMapProvider; guar; apply Hstsm; guar).
  unfold indexTracedFlow, FTSTSM_GetOrCompute. guar.
Qed.

Lemma trackConnection_spec lock serial0 flowID0 tcpFlags seq ack local ts1 s :
  let t := fresh (dom (tracedFlows s)) in
  let r := trackConnection lock serial0 flowID0 tcpFlags seq ack local (Some ts1) s in
  (fst r = Returned (Some t, true) \/ fst r = Panicked) /\
  tracedFlows s !! t = None /\
  tracedFlows (snd r) = <[t := tracked_flow lock serial0 flowID0 ts1 s]> (tracedFlows s) /\
  carriers (snd r) = carriers s /\ now (snd r) = now s /\
  cancelled (snd r) = cancelled s /\ MutexMap (snd r) = MutexMap s /\
  traceToHttpRequestMap (snd r) = traceToHttpRequestMap s /\
  untrackTimers (snd r) = untrackTimers s.
Proof.
  intros t r. subst r. unfold trackConnection.
  set (s0 := set_tracedFlows
               (<[t := tracked_flow lock serial0 flowID0 ts1 s]>) s).
  rewrite (run_bind _ _ s t s0) by done.
  pose proof (g_indexTracedFlow_index_only flowID0 seq ack local ts1 t s0) as Hg.
  assert (fst (indexTracedFlow flowID0 seq ack local ts1 t s0) <> Fatal) as Hnf.
  { unfold indexTracedFlow, FTSTSM_GetOrCompute, STSM_GetOrCompute,
      sequenceToTracedFlowMapProvider, STSM_GetOrCompute, newStreamMap.
    assert (forall f, recoverable (fun s1 : fm_state => (Returned (fresh (dom (streamMaps s1))), f s1)))
      as Hx by (by intros f s1).
    match goal with |- fst (?m s0) <> _ => assert (recoverable m) as Hr end;
      [| apply Hr].
    repeat rec_step. }
  unfold bind.
  destruct (indexTracedFlow flowID0 seq ack local ts1 t s0) as [[[]| |] s1];
    cbn [fst snd] in *; [| | done].
  - destruct Hg as (? & ? & ? & ? & ? & ? & ?). subst s0. cbn in *.
    split; [by left |].
    split; [apply not_elem_of_dom, is_fresh |]. by split_and!.
  - destruct Hg as (? & ? & ? & ? & ? & ? & ?). subst s0. cbn in *.
    split; [by right |].
    split; [apply not_elem_of_dom, is_fresh |]. by split_and!.
Qed.

(** ** The unblocker *)

Ltac lk := cbn; rewrite ?lookup_insert_eq; reflexivity.

(** A bind whose first computation ends in a known way. *)
Lemma run_bind_or {A B} (m : M A) (k : A -> M B) s (cond : bool) (a : A) s1 :
  m s = (if cond then Panicked else Returned a, s1) ->
  bind m k s = if cond then (Panicked, s1) else k a s1.
Proof. intros H. unfold bind. rewrite H. by destruct cond. Qed.

Lemma run_unblocker_critical s c x :
  carriers s !! c = Some x -> mu x = true ->
  let v := wrap64 (activeRequests x + -1) in
  let w := wrap32 (wg x + -1) in
  unblocker_critical c s =
  (if (v >=? 0) && (w <? 0) then Panicked else Returned tt,
   set_carriers
     (<[c := with_mu false
               (if v >=? 0 then with_wg w (with_activeRequests v x)
                else with_activeRequests v x)]>) s).
Proof.
  intros Hc Hmu v w. unfold unblocker_critical, defer_.
  rewrite (run_bind _ _ _ _ _ (run_activeRequests_Add _ _ _ (-1) Hc)). fold v.
  destruct (v >=? 0) eqn:Hv; cbn [andb].
  - unfold wg_Done.
    rewrite (run_wg_Add _ c (with_activeRequests v x)) by lk.
    cbn [wg with_activeRequests]. fold w.
    destruct (w <? 0).
    + rewrite (run_mu_Unlock _ c (with_wg w (with_activeRequests v x))); [| lk | done].
      unfold set_carriers; cbn. by rewrite !insert_insert_eq.
    + rewrite (run_mu_Unlock _ c (with_wg w (with_activeRequests v x))); [| lk | done].
      unfold set_carriers; cbn. by rewrite !insert_insert_eq.
  - cbn [ret].
    rewrite (run_mu_Unlock _ c (with_activeRequests v x)); [| lk | done].
    unfold set_carriers; cbn. by rewrite !insert_insert_eq.
Qed.

Lemma wrap64_small z : - 2 ^ 63 <= z < 2 ^ 63 -> wrap64 z = z.
Proof.
  intros Hz. unfold wrap64.
  change (2 ^ 64) with (2 * 2 ^ 63) in *.
  rewrite Z.mod_small; lia.
Qed.

Lemma wrap32_small z : - 2 ^ 31 <= z < 2 ^ 31 -> wrap32 z = z.
Proof.
  intros Hz. unfold wrap32.
  change (2 ^ 32) with (2 * 2 ^ 31) in *.
  rewrite Z.mod_small; lia.
Qed.




(** ** Request accounting *)

Lemma range_streams_guard (body : Z -> Z -> M Z) (streams : list Z) (acc : Z)
    (n : nat) :
  (if (0 <? Z.of_nat n) || (0 <? Z.of_nat (length streams))
   then range_streams body streams acc else ret acc)
  = range_streams body streams acc.
Proof.
  destruct ((0 <? Z.of_nat n) || (0 <? Z.of_nat (length streams))) eqn:Hg; [done |].
  apply orb_false_iff in Hg as [_ Hl]. by destruct streams.
Qed.

(** One iteration of the loop over [requestStreams] on a stream whose
    [ts] gets tracked. *)
Lemma handle_request_run serial0 flowID0 seq ack local c flags
    (requestTS : gmap Z (option traceAndSpan)) acc stream s x ts1 s1 :
  carriers s !! c = Some x ->
  requestTS !! stream = Some (Some ts1) ->
  trackConnection c serial0 flowID0 flags seq ack local (Some ts1) s
  = (Returned (Some (fresh (dom (tracedFlows s))), true), s1) ->
  let t := fresh (dom (tracedFlows s)) in
  let v := wrap64 (activeRequests x + 1) in
  let tf := tracked_flow c serial0 flowID0 ts1 s in
  let s2 := set_carriers (<[c := with_activeRequests v x]>) s1 in
  tracedFlows s2 !! t = Some tf /\
  handle_request serial0 flowID0 seq ack local c flags requestTS acc stream s =
  if v >? 0
  then (if wrap32 (wg x + 1) <? 0 then Panicked else Returned v,
        set_carriers
          (<[c := with_wg (wrap32 (wg x + 1)) (with_activeRequests v x)]>) s2)
  else (Returned v,
        set_tracedFlows
          (<[t := with_phase Stopped (with_isActive false tf)]>)
          (set_tracedFlows (<[t := with_isActive false tf]>) s2)).
Proof.
  intros Hc Hts Hrun t v tf s2.
  destruct (trackConnection_spec c serial0 flowID0 flags seq ack local ts1 s)
    as (_ & Hfresh & Htf & Hcs & _).
  rewrite Hrun in Htf, Hcs. cbn [snd] in Htf, Hcs.
  assert (carriers s1 !! c = Some x) as Hc1 by (by rewrite Hcs).
  assert (carriers s2 !! c = Some (with_activeRequests v x)) as Hc2 by lk.
  assert (tracedFlows s2 !! t = Some tf) as Ht2
    by (subst s2; cbn; rewrite Htf; by rewrite lookup_insert_eq).
  split; [exact Ht2 |].
  set (s3 := set_tracedFlows (<[t := with_isActive false tf]>) s2).
  assert (tracedFlows s3 !! t = Some (with_isActive false tf)) as Ht3 by lk.
  unfold handle_request. rewrite Hts.
  rewrite (run_bind _ _ _ _ _ Hrun). cbn beta iota.
  rewrite (run_bind _ _ _ _ _ (run_activeRequests_Add _ _ _ 1 Hc1)).
  fold v s2 t.
  destruct (v >? 0).
  - pose proof (run_wg_Add _ _ _ 1 Hc2) as Hadd.
    cbn [wg with_activeRequests] in Hadd.
    rewrite (run_bind_or _ _ _ _ _ _ Hadd).
    by destruct (wrap32 (wg x + 1) <? 0).
  - unfold bind at 1. unfold bind at 1.
    rewrite (run_isActive_CompareAndSwap _ _ _ Ht2).
    replace (isActive tf) with true by done. fold s3.
    by rewrite (run_bind _ _ _ _ _ (run_unblocker_Stop _ _ _ Ht3)).
Qed.

(** C6: for each stream of [request_streams] that has a [ts] for which
    [track_connection] succeeds, [active_requests] is incremented by
    one; when the new value is > 0 the wait-group counter is incremented
    by one; when it is <= 0 no token is added and the unblocker of the
    newly tracked flow is cancelled through a CAS on [is_active].  A
    stream without [ts], or with a nil [ts], changes nothing. *)
Theorem request_accounting :
  forall serial0 flowID0 seq ack local c flags
         (requestTS : gmap Z (option traceAndSpan)) acc stream s x,
    carriers s !! c = Some x ->
    let r := handle_request serial0 flowID0 seq ack local c flags requestTS acc stream s in
    (requestTS !! stream = None \/ requestTS !! stream = Some None ->
     r = (Returned acc, s)) /\
    (forall ts1,
       requestTS !! stream = Some (Some ts1) ->
       let t := fresh (dom (tracedFlows s)) in
       let v := wrap64 (activeRequests x + 1) in
       fst (trackConnection c serial0 flowID0 flags seq ack local (Some ts1) s)
       = Returned (Some t, true) ->
       exists x' tf',
         carriers (snd r) !! c = Some x' /\
         tracedFlows (snd r) !! t = Some tf' /\
         ts tf' = ts1 /\
         activeRequests x' = v /\
         (v > 0 ->
          wg x' = wrap32 (wg x + 1) /\ isActive tf' = true /\
          phase (unblocker tf') = Armed /\
          fst r = if wrap32 (wg x + 1) <? 0 then Panicked else Returned v) /\
         (v <= 0 ->
          wg x' = wg x /\ isActive tf' = false /\
          phase (unblocker tf') = Stopped /\ fst r = Returned v)) /\
    (forall ts0 provider ctx isHTTP2' requestStreams responseStreams responseTS s0,
       UnlockWithTraceAndSpanFN serial0 flowID0 seq ack local c ts0 provider
         ctx flags isHTTP2' requestStreams responseStreams requestTS responseTS s0
       = (run updateCarrier c (with_isHTTP2 isHTTP2');
          do activeRequests0 <- activeRequests_Load c;
          do activeRequests1 <-
            range_streams
              (handle_request serial0 flowID0 seq ack local c flags requestTS)
              requestStreams activeRequests0;
          do activeRequests2 <-
            range_streams (handle_response c provider responseTS)
              responseStreams activeRequests1;
          do '(_, lockLatency) <- UnlockWithTCPFlagsFN flowID0 c ts0 ctx flags;
          ret (activeRequests2, lockLatency)) s0).
Proof.
  intros serial0 flowID0 seq ack local c flags requestTS acc stream s x Hc r.
  split; [| split].
  - subst r. unfold handle_request. by intros [-> | ->].
  - intros ts1 Hts t v Htrack.
    destruct (trackConnection c serial0 flowID0 flags seq ack local (Some ts1) s)
      as [o s1] eqn:Hrun.
    cbn [fst] in Htrack. subst o.
    destruct (handle_request_run serial0 flowID0 seq ack local c flags requestTS
                acc stream s x ts1 s1 Hc Hts Hrun) as [Ht2 Hr].
    cbv zeta in Ht2, Hr. fold t v in Ht2, Hr.
    subst r. rewrite Hr. clear Hr.
    destruct (Z.gtb_spec v 0) as [Hpos | Hneg].
    + exists (with_wg (wrap32 (wg x + 1)) (with_activeRequests v x)),
             (tracked_flow c serial0 flowID0 ts1 s).
      cbn [fst snd].
      split; [lk |]. split; [exact Ht2 |]. split_and!; try done; lia.
    + exists (with_activeRequests v x),
             (with_phase Stopped
                (with_isActive false (tracked_flow c serial0 flowID0 ts1 s))).
      cbn [fst snd].
      split; [lk |]. split; [lk |]. split_and!; try done; lia.
  - intros ts0 provider ctx isHTTP2' requestStreams responseStreams responseTS s0.
    unfold UnlockWithTraceAndSpanFN. unfold bind at 1 6.
    destruct (updateCarrier c (with_isHTTP2 isHTTP2') s0) as [[[]| |] s1]; [| done..].
    unfold bind at 1 5.
    destruct (activeRequests_Load c s1) as [[a0| |] s2]; [| done..].
    rewrite range_streams_guard. unfold bind at 1 4.
    destruct (range_streams _ requestStreams a0 s2) as [[a1| |] s3]; [| done..].
    by rewrite range_streams_guard.
Qed.

Lemma request_accounting_witness :
  exists x' tf',
    carriers (snd (handle_request 1 1 1000 0 false 0%nat 24 {[ 10 := Some T1 ]}
                     0 10 (held_state 0 false))) !! 0%nat = Some x' /\
    tracedFlows (snd (handle_request 1 1 1000 0 false 0%nat 24 {[ 10 := Some T1 ]}
                        0 10 (held_state 0 false))) !! 0%nat = Some tf' /\
    activeRequests x' = 1 /\ wg x' = 1 /\ isActive tf' = true.
Proof.
  destruct (request_accounting 1 1 1000 0 false 0%nat 24 {[ 10 := Some T1 ]}
              0 10 (held_state 0 false) (held_carrier 0 false) eq_refl)
    as (_ & H & _).
  assert (({[ 10 := Some T1 ]} : gmap Z (option traceAndSpan)) !! 10 = Some (Some T1))
    as Hts by (vm_compute; reflexivity).
  assert (fst (trackConnection 0%nat 1 1 24 1000 0 false (Some T1) (held_state 0 false))
          = Returned (Some (fresh (dom (tracedFlows (held_state 0 false)))), true))
    as Htrack by (vm_compute; reflexivity).
  destruct (H T1 Hts Htrack) as (x' & tf' & Hc & Ht & _ & Har & Hpos & _).
  assert (wrap64 (activeRequests (held_carrier 0 false) + 1) > 0) as Hv
    by (vm_compute; reflexivity).
  destruct (Hpos Hv) as (Hwg & Hact & _).
  exists x', tf'. split; [exact Hc |]. split; [exact Ht |].
  split; [exact Har |]. split; [exact Hwg | exact Hact].
Defined.

(** ** Response accounting *)

(** C1 as stated fails: in scenario S1 a response on stream 10 whose
    trace id ("T2") differs from the tracked one ("T1") is not a
    matched response, yet [active_requests] goes from 1 to 0 (the
    wait-group keeps its token and the flow stays active). *)
Lemma response_mismatch_decrements :
  option_map (fun r => (activeRequests_of 0%nat (snd r), wg_of 0%nat (snd r)))
    S1_request = Some (1, 1) /\
  option_map (fun r => ts <$> tracedFlows (snd r) !! 0%nat) S1_request
    = Some (Some T1) /\
  traceID T1 <> traceID T2 /\
  option_map (fun r => (fst r, activeRequests_of 0%nat (snd r), wg_of 0%nat (snd r),
                        isActive <$> tracedFlows (snd r) !! 0%nat))
    S1_mismatched_response = Some (Returned (0, 0), 0, 1, Some true).
Proof. split_and!; [by vm_compute | by vm_compute | done | by vm_compute]. Qed.

(** One iteration of the loop over [responseStreams] on a stream whose
    lookup finds a traced flow. *)
Lemma handle_response_run c (provider : TracedFlowProvider)
    (responseTS : gmap Z (option traceAndSpan)) acc stream s x ts1 t y :
  carriers s !! c = Some x ->
  responseTS !! stream = Some (Some ts1) ->
  provider (streamID ts1) s = (Some t, true) ->
  tracedFlows s !! t = Some y ->
  let v := wrap64 (activeRequests x + -1) in
  let same := String.eqb (traceID (ts y)) (traceID ts1) in
  let s1 := set_carriers (<[c := with_activeRequests v x]>) s in
  let s2 := set_tracedFlows (<[t := with_isActive false y]>) s1 in
  let s3 := set_tracedFlows (<[t := with_phase Stopped (with_isActive false y)]>) s2 in
  handle_response c provider responseTS acc stream s =
  if (v >=? 0) && same && isActive y then
    if armed y then
      (if wrap32 (wg x + -1) <? 0 then Panicked else Returned v,
       set_carriers
         (<[c := with_wg (wrap32 (wg x + -1)) (with_activeRequests v x)]>) s3)
    else (Returned v, s2)
  else (Returned v, s1).
Proof.
  intros Hc Hts Hfound Ht v same s1 s2 s3.
  assert (carriers s1 !! c = Some (with_activeRequests v x)) as Hc1 by lk.
  assert (tracedFlows s1 !! t = Some y) as Ht1 by done.
  assert (tracedFlows s2 !! t = Some (with_isActive false y)) as Ht2 by lk.
  assert (carriers s3 !! c = Some (with_activeRequests v x)) as Hc3 by lk.
  unfold handle_response. rewrite Hts.
  rewrite (run_bind (gets (provider (streamID ts1))) _ s (Some t, true) s)
    by (unfold gets; by rewrite Hfound).
  cbn beta iota.
  rewrite (run_bind _ _ _ _ _ (run_activeRequests_Add _ _ _ (-1) Hc)).
  fold v s1.
  destruct (v >=? 0); cbn [andb]; [| done].
  unfold bind at 1.
  rewrite (run_bind _ _ _ _ _ (run_loadTracedFlow _ _ _ Ht1)). fold same.
  destruct same; cbn [andb]; [| done].
  unfold bind at 1.
  rewrite (run_isActive_CompareAndSwap _ _ _ Ht1).
  destruct (isActive y); [| done]. fold s2.
  unfold bind at 1.
  rewrite (run_unblocker_Stop _ _ _ Ht2). unfold armed.
  cbn [phase unblocker with_isActive].
  destruct (phase (unblocker y)); [| done..]. fold s3.
  unfold wg_Done. rewrite (run_wg_Add _ _ _ (-1) Hc3).
  cbn [wg with_activeRequests].
  by destruct (wrap32 (wg x + -1) <? 0).
Qed.

(** C1, amended: for each stream of [response_streams] that has a [ts]:
    when the lookup captured at lock time finds no traced flow the
    response is skipped and nothing changes; when it finds one,
    [active_requests] is decremented by one whether or not the response
    matches, and one token is released only when moreover the
    decremented counter is >= 0, the trace ids are equal, the CAS of
    [is_active] from true to false succeeds and the unblocker is
    stopped in time. *)
Theorem response_accounting :
  forall c (provider : TracedFlowProvider)
         (responseTS : gmap Z (option traceAndSpan)) acc stream s x,
    carriers s !! c = Some x ->
    let r := handle_response c provider responseTS acc stream s in
    (responseTS !! stream = None -> r = (Returned acc, s)) /\
    (forall ts1,
       responseTS !! stream = Some (Some ts1) ->
       (snd (provider (streamID ts1) s) = false -> r = (Returned acc, s)) /\
       (forall t y,
          provider (streamID ts1) s = (Some t, true) ->
          tracedFlows s !! t = Some y ->
          let v := wrap64 (activeRequests x + -1) in
          let same := String.eqb (traceID (ts y)) (traceID ts1) in
          let matched := (v >=? 0) && same && isActive y && armed y in
          exists x',
            carriers (snd r) !! c = Some x' /\
            activeRequests x' = v /\
            wg x' = (if matched then wrap32 (wg x + -1) else wg x) /\
            fst r = (if matched && (wrap32 (wg x + -1) <? 0)
                     then Panicked else Returned v) /\
            tracedFlows (snd r) !! t =
            Some (if (v >=? 0) && same && isActive y
                  then (if armed y then with_phase Stopped (with_isActive false y)
                        else with_isActive false y)
                  else y))).
Proof.
  intros c provider responseTS acc stream s x Hc r. split.
  - intros Hts. subst r. unfold handle_response. by rewrite Hts.
  - intros ts1 Hts. split.
    + intros Hnf. subst r. unfold handle_response. rewrite Hts.
      unfold bind, gets. destruct (provider (streamID ts1) s) as [tf found].
      cbn in Hnf. by subst found.
    + intros t y Hfound Ht v same matched.
      pose proof (handle_response_run c provider responseTS acc stream s x ts1 t y
                    Hc Hts Hfound Ht) as Hr.
      cbv zeta in Hr. fold v same in Hr. subst r. rewrite Hr. clear Hr.
      subst matched.
      destruct ((v >=? 0) && same && isActive y); cbn [andb].
      * destruct (armed y); cbn [fst snd].
        -- eexists. split; [lk |]. split_and!; try done. lk.
        -- eexists. split; [lk |]. split_and!; try done. lk.
      * eexists. split; [lk |]. by split_and!.
Qed.

Lemma response_accounting_witness :
  exists x',
    carriers (snd (handle_response 0%nat (fun _ _ => (Some 0%nat, true))
                     {[ 10 := Some T2 ]} 1 10 fired_state)) !! 0%nat = Some x' /\
    activeRequests x' = 0 /\ wg x' = 1.
Proof.
  destruct (response_accounting 0%nat (fun _ _ => (Some 0%nat, true))
              {[ 10 := Some T2 ]} 1 10 fired_state fired_carrier eq_refl)
    as (_ & H).
  assert (({[ 10 := Some T2 ]} : gmap Z (option traceAndSpan)) !! 10 = Some (Some T2))
    as Hts by (vm_compute; reflexivity).
  destruct (H T2 Hts) as (_ & H2).
  destruct (H2 0%nat fired_flow eq_refl eq_refl) as (x' & Hc & Har & Hwg & _).
  exists x'. split; [exact Hc |]. split; [exact Har | exact Hwg].
Defined.

(** ** The handle of a SYN, FIN or RST segment *)

(** What [lock] builds once it holds the mutex. *)
Lemma run_lock_locked serial0 flowID0 tcpFlags seq ack local c s x :
  carriers s !! c = Some x ->
  let s1 := set_carriers (<[c := with_lastLockedAt (now s) x]>) s in
  let provider := fst (getTracedFlow flowID0 seq ack local s1) in
  lock_locked serial0 flowID0 tcpFlags seq ack local c s =
  (Returned
     ({| IsHTTP2 := IsHTTP2FN c;
         Unlock := UnlockFn flowID0 tcpFlags c (now s);
         UnlockAndRelease := UnlockAndReleaseFN flowID0 c (now s);
         UnlockWithTCPFlags := UnlockWithTCPFlagsFN flowID0 c (now s);
         UnlockWithTraceAndSpan :=
           if Z.land tcpFlags (Z.lor (Z.lor tcpSyn tcpFin) tcpRst) =? 0
           then UnlockWithTraceAndSpanFN serial0 flowID0 seq ack local c (now s) provider
           else UnlockWithTraceAndSpanFallback flowID0 c (now s) (activeRequests x) |},
      traceAndSpanProvider provider), s1).
Proof.
  intros Hc s1 provider. unfold lock_locked.
  rewrite (run_bind time_Now _ s (now s) s) by done.
  rewrite (run_bind _ _ _ _ _ (run_updateCarrier _ _ _ _ Hc)). fold s1.
  rewrite (run_bind (gets (getTracedFlow flowID0 seq ack local)) _ s1
             (getTracedFlow flowID0 seq ack local s1) s1) by done.
  subst provider.
  destruct (getTracedFlow flowID0 seq ack local s1) as [prov found]. cbn [fst].
  destruct (Z.land tcpFlags (Z.lor (Z.lor tcpSyn tcpFin) tcpRst) =? 0).
  - done.
  - unfold bind at 1.
    rewrite (run_bind _ _ _ _ _ (run_activeRequests_Load s1 c (with_lastLockedAt (now s) x)
                                   ltac:(subst s1; lk))).
    done.
Qed.

Lemma run_UnlockWithTCPFlagsFN_plain flowID0 c ts0 ctx flags s x :
  isConnectionTermination flags = false ->
  carriers s !! c = Some x -> mu x = true ->
  UnlockWithTCPFlagsFN flowID0 c ts0 ctx flags s =
  (Returned (false, now s - ts0),
   set_carriers (<[c := with_mu false (with_lastUnlockedAt (now s) x)]>) s).
Proof.
  intros Hterm Hc Hmu. unfold UnlockWithTCPFlagsFN, defer_. rewrite Hterm.
  rewrite (run_bind time_Now _ s (now s) s) by done. cbn [ret].
  by rewrite (run__unlock _ _ _ Hc Hmu).
Qed.

(** C9: when the flags given to [lock] include SYN, FIN or RST, the
    handle's [unlock_with_trace_and_span] ignores its stream and trace
    arguments: it ends in the state in which [unlock_with_flags] with the
    same flags ends, returns the [active_requests] value recorded when
    the mutex was taken together with the latency of [unlock_with_flags],
    and so files nothing in the index, adds no token and leaves
    [active_requests] as it is. *)
Theorem fallback_unlock_with_trace_and_span :
  forall ctx serial0 flowID0 tcpFlags seq ack local c s h p s1,
    Z.land tcpFlags (Z.lor (Z.lor tcpSyn tcpFin) tcpRst) <> 0 ->
    lock_step ctx serial0 flowID0 tcpFlags seq ack local (AtLock c) s
    = Some (Acquired h p, s1) ->
    (forall ctx' flags' isHTTP2' rs ps rts pts s2,
       UnlockWithTraceAndSpan h ctx' flags' isHTTP2' rs ps rts pts s2 =
       (match fst (UnlockWithTCPFlags h ctx' flags' s2) with
        | Returned (_, lockLatency) => Returned (activeRequests_of c s, lockLatency)
        | Panicked => Panicked
        | Fatal => Fatal
        end,
        snd (UnlockWithTCPFlags h ctx' flags' s2))) /\
    (forall ctx' flags' isHTTP2' rs ps rts pts s2 x2,
       carriers s2 !! c = Some x2 -> mu x2 = true ->
       isConnectionTermination flags' = false \/ ctx' ∉ cancelled s2 \/
       activeRequests x2 <> 0 \/ released x2 = true ->
       let s3 := snd (UnlockWithTraceAndSpan h ctx' flags' isHTTP2' rs ps rts pts s2) in
       flowToStreamToSequenceMap s3 = flowToStreamToSequenceMap s2 /\
       streamMaps s3 = streamMaps s2 /\
       tracedFlows s3 = tracedFlows s2 /\
       exists x3,
         carriers s3 !! c = Some x3 /\ wg x3 = wg x2 /\
         activeRequests x3 = activeRequests x2 /\
         isHTTP2 x3 = isHTTP2 x2 /\ mu x3 = false).
Proof.
  intros ctx serial0 flowID0 tcpFlags seq ack local c s h p s1 Hflags Hstep.
  cbn [lock_step] in Hstep.
  destruct (carriers s !! c) as [x|] eqn:Hc; [| done].
  destruct (mu x) eqn:Hmu; [done |].
  unfold mu_Lock in Hstep.
  rewrite (run_bind _ _ _ _ _ (run_updateCarrier _ _ _ (with_mu true) Hc)) in Hstep.
  set (s0 := set_carriers (<[c := with_mu true x]>) s) in Hstep.
  rewrite (run_lock_locked serial0 flowID0 tcpFlags seq ack local c s0 (with_mu true x))
    in Hstep by (subst s0; lk).
  apply Z.eqb_neq in Hflags. rewrite Hflags in Hstep.
  injection Hstep as <- _ _. cbn [UnlockWithTraceAndSpan UnlockWithTCPFlags].
  cbn [activeRequests with_mu].
  assert (activeRequests_of c s = activeRequests x) as ->
    by (unfold activeRequests_of; by rewrite Hc).
  assert (forall ctx' flags' isHTTP2' rs ps rts pts s2,
            UnlockWithTraceAndSpanFallback flowID0 c (now s0) (activeRequests x)
              ctx' flags' isHTTP2' rs ps rts pts s2 =
            (match fst (UnlockWithTCPFlagsFN flowID0 c (now s0) ctx' flags' s2) with
             | Returned (_, lockLatency) => Returned (activeRequests x, lockLatency)
             | Panicked => Panicked
             | Fatal => Fatal
             end,
             snd (UnlockWithTCPFlagsFN flowID0 c (now s0) ctx' flags' s2))) as Heq.
  { intros. unfold UnlockWithTraceAndSpanFallback, bind.
    by destruct (UnlockWithTCPFlagsFN flowID0 c (now s0) ctx' flags' s2)
      as [[[won lat]| |] s3]. }
  split; [exact Heq |].
  intros ctx' flags' isHTTP2' rs ps rts pts s2 x2 Hc2 Hmu2 Hcase.
  rewrite Heq. cbn [snd].
  destruct (isConnectionTermination flags') eqn:Hterm.
  - unfold UnlockWithTCPFlagsFN. rewrite Hterm.
    destruct (UnlockAndReleaseFN_spec flowID0 c (now s0) ctx' s2 x2 Hc2 Hmu2)
      as (s' & x' & -> & Hc' & Hmu' & _ & _ & Hlose & Hsched & _).
    cbn [snd].
    destruct ((activeRequests x2 =? 0) && negb (released x2)) eqn:Hwon.
    + destruct Hcase as [? | [Hctx | [Har | Hrel]]]; [done | | |].
      * rewrite (Hsched eq_refl Hctx). split_and!; try done.
        eexists. split; [lk |]. done.
      * apply andb_true_iff in Hwon as [Har' _]. apply Z.eqb_eq in Har'. done.
      * apply andb_true_iff in Hwon as [_ Hrel']. by rewrite Hrel in Hrel'.
    + rewrite (Hlose eq_refl). split_and!; try done.
      eexists. split; [lk |]. done.
  - rewrite (run_UnlockWithTCPFlagsFN_plain _ _ _ _ _ _ _ Hterm Hc2 Hmu2).
    cbn [snd]. split_and!; try done.
    eexists. split; [lk |]. done.
Qed.

Lemma fallback_unlock_with_trace_and_span_witness :
  match lock_step 0%nat 3 1 (Z.lor tcpFin tcpAck) 2001 1500 false (AtLock 0%nat)
          fired_state with
  | Some (Acquired h _, _) =>
      forall s2,
        snd (UnlockWithTraceAndSpan h 0%nat (Z.lor tcpFin tcpAck) true [10] [10]
               {[ 10 := Some T1 ]} {[ 10 := Some T1 ]} s2)
        = snd (UnlockWithTCPFlags h 0%nat (Z.lor tcpFin tcpAck) s2)
  | _ => False
  end.
Proof.
  assert (carriers fired_state !! 0%nat = Some fired_carrier) as Hc by reflexivity.
  set (s0 := set_carriers (<[0%nat := with_mu true fired_carrier]>) fired_state).
  assert (carriers s0 !! 0%nat = Some (with_mu true fired_carrier)) as Hc0
    by reflexivity.
  pose proof (run_lock_locked 3 1 (Z.lor tcpFin tcpAck) 2001 1500 false 0%nat s0
                (with_mu true fired_carrier) Hc0) as Hl.
  cbv zeta in Hl.
  eassert (lock_step 0%nat 3 1 (Z.lor tcpFin tcpAck) 2001 1500 false (AtLock 0%nat)
             fired_state = Some (Acquired _ _, _)) as Hstep.
  { cbn [lock_step]. rewrite Hc. cbn [mu fired_carrier]. unfold mu_Lock.
    rewrite (run_bind _ _ _ _ _ (run_updateCarrier _ _ _ (with_mu true) Hc)).
    fold s0. rewrite Hl. reflexivity. }
  rewrite Hstep. intros s2.
  destruct (fallback_unlock_with_trace_and_span 0%nat 3 1 (Z.lor tcpFin tcpAck)
              2001 1500 false 0%nat fired_state _ _ _
              ltac:(vm_compute; discriminate) Hstep) as [H _].
  rewrite H. reflexivity.
Defined.

(** ** Releasing the mutex *)

(** On a held mutex, [unlock], [unlock_with_flags] and
    [unlock_and_release] return with the mutex released and
    [last_unlocked_at] set. *)
Lemma UnlockWithTCPFlagsFN_releases flowID0 c ts0 ctx flags s x :
  carriers s !! c = Some x -> mu x = true ->
  exists r s' x',
    UnlockWithTCPFlagsFN flowID0 c ts0 ctx flags s = (Returned r, s') /\
    carriers s' !! c = Some x' /\ mu x' = false /\
    lastUnlockedAt x' = Some (now s).
Proof.
  intros Hc Hmu. destruct (isConnectionTermination flags) eqn:Hterm.
  - unfold UnlockWithTCPFlagsFN. rewrite Hterm.
    destruct (UnlockAndReleaseFN_spec flowID0 c ts0 ctx s x Hc Hmu)
      as (s' & x' & Hrun & Hc' & Hmu' & Hlast & _).
    by eexists _, s', x'.
  - rewrite (run_UnlockWithTCPFlagsFN_plain _ _ _ _ _ _ _ Hterm Hc Hmu).
    eexists _, _, _. split; [reflexivity |]. split; [lk |]. done.
Qed.

(** When its loops return, the tracking [unlock_with_trace_and_span]
    releases the mutex as well: it ends with [UnlockWithTCPFlagsFN]. *)
Lemma defer__unlock_releases {A} (body : M A) c s o s1 x1 :
  body s = (o, s1) -> o <> Fatal ->
  carriers s1 !! c = Some x1 -> mu x1 = true ->
  exists x', carriers (snd (defer_ (_unlock c) body s)) !! c = Some x' /\
             mu x' = false.
Proof.
  intros Hb Ho Hc Hmu. unfold defer_. rewrite Hb.
  rewrite (run__unlock _ _ _ Hc Hmu).
  destruct o; [| | done]; eexists; (split; [lk | done]).
Qed.

(** C10, the failing input: a handle of a PSH+ACK segment is unlocked
    through [unlock_with_trace_and_span] with a response stream whose
    [ts] is nil.  The call panics in its response loop, before
    [UnlockWithTCPFlagsFN] and its deferred [_unlock] are reached: the
    carrier mutex stays locked and [last_unlocked_at] stays unset. *)
Theorem unlock_with_trace_and_span_panic_keeps_mutex :
  option_map
    (fun r => (fst r, mu <$> carriers (snd r) !! 0%nat,
               lastUnlockedAt <$> carriers (snd r) !! 0%nat))
    nil_response
  = Some (Panicked, Some true, Some None).
Proof. by vm_compute. Qed.

(** ** The termination gate *)

Section Gate.
Variables (ctx : context) (serial0 flowID0 tcpFlags seq ack : Z) (local : bool).

Local Abbreviation step := (lock_step ctx serial0 flowID0 tcpFlags seq ack local).
Local Abbreviation sched := (interleave ctx serial0 flowID0 tcpFlags seq ack local).
Local Abbreviation seen := (observations ctx serial0 flowID0 tcpFlags seq ack local).


Lemma step_gate_cancelled c s :
  isConnectionTermination tcpFlags = true -> ctx ∈ cancelled s ->
  step (AtGate c) s = Some (AtLock c, s).
Proof.
  intros Hterm Hdone. cbn [lock_step]. rewrite Hterm.
  by rewrite bool_decide_eq_true_2.
Qed.

Lemma step_gate_wait c s :
  isConnectionTermination tcpFlags = true -> ctx ∉ cancelled s ->
  step (AtGate c) s = Some (InWait c, s).
Proof.
  intros Hterm Hdone. cbn [lock_step]. rewrite Hterm.
  by rewrite bool_decide_eq_false_2.
Qed.

Lemma step_gate_plain c s :
  isConnectionTermination tcpFlags = false ->
  step (AtGate c) s = Some (AtLock c, s).
Proof. intros Hterm. cbn [lock_step]. by rewrite Hterm. Qed.

Lemma step_wait_blocked c s x :
  carriers s !! c = Some x -> wg x <> 0 -> step (InWait c) s = None.
Proof.
  intros Hc Hwg. cbn [lock_step]. rewrite Hc.
  by destruct (Z.eqb_spec (wg x) 0).
Qed.

Lemma step_wait_released c s x :
  carriers s !! c = Some x -> wg x = 0 -> step (InWait c) s = Some (AtLock c, s).
Proof. intros Hc Hwg. cbn [lock_step]. by rewrite Hc, Hwg. Qed.

End Gate.

(** C2 as stated fails: in scenario S5 the FIN segment enters the wait
    with one token outstanding, the context is then cancelled, and the
    goroutine is still inside [wg.Wait()] however often it is scheduled
    afterwards. *)
Lemma cancellation_mid_wait_keeps_waiting :
  let r := interleave 0%nat 3 1 (Z.lor tcpFin tcpAck) 2001 1500 false
             S5_schedule AtGetOrCompute S1_tracked in
  match fst r with InWait c => c = 0%nat | _ => False end /\
  bool_decide (0%nat ∈ cancelled (snd r)) = true /\
  wg_of 0%nat (snd r) = 1 /\
  lock_step 0%nat 3 1 (Z.lor tcpFin tcpAck) 2001 1500 false (fst r) (snd r) = None.
Proof. by vm_compute. Qed.

(** C2, amended: for a [lock] call with termination flags, a context
    that is already cancelled when the call reaches the wait makes it
    skip the wait and go on to acquire the mutex; once [wg.Wait()] has
    begun, cancellation does not end it: the call stays blocked while
    the counter is not zero and leaves the wait when it is zero. *)
Theorem cancellation_skips_wait_at_gate :
  forall ctx serial0 flowID0 tcpFlags seq ack local c s,
    isConnectionTermination tcpFlags = true ->
    (ctx ∈ cancelled s ->
     lock_step ctx serial0 flowID0 tcpFlags seq ack local (AtGate c) s
     = Some (AtLock c, s)) /\
    (ctx ∉ cancelled s ->
     lock_step ctx serial0 flowID0 tcpFlags seq ack local (AtGate c) s
     = Some (InWait c, s)) /\
    (forall x,
       carriers s !! c = Some x -> wg x <> 0 ->
       lock_step ctx serial0 flowID0 tcpFlags seq ack local (InWait c) s = None) /\
    (forall x,
       carriers s !! c = Some x -> wg x = 0 ->
       lock_step ctx serial0 flowID0 tcpFlags seq ack local (InWait c) s
       = Some (AtLock c, s)).
Proof.
  intros ctx serial0 flowID0 tcpFlags seq ack local c s Hterm. split_and!.
  - by apply step_gate_cancelled.
  - by apply step_gate_wait.
  - intros x. apply step_wait_blocked.
  - intros x. apply step_wait_released.
Qed.

Lemma cancellation_skips_wait_at_gate_witness :
  lock_step 0%nat 3 1 (Z.lor tcpFin tcpAck) 2001 1500 false (AtGate 0%nat)
    (set_cancelled (fun cs => {[ 0%nat ]} ∪ cs) S1_tracked)
  = Some (AtLock 0%nat, set_cancelled (fun cs => {[ 0%nat ]} ∪ cs) S1_tracked).
Proof.
  destruct (cancellation_skips_wait_at_gate 0%nat 3 1 (Z.lor tcpFin tcpAck)
              2001 1500 false 0%nat
              (set_cancelled (fun cs => {[ 0%nat ]} ∪ cs) S1_tracked) eq_refl)
    as [H _].
  apply H. cbn. set_solver.
Defined.



(** ** Untracking *)

Lemma deactivate_idemp x : deactivate (deactivate x) = deactivate x.
Proof.
  unfold deactivate. destruct (isActive x) eqn:Ha; [| by rewrite Ha].
  by destruct (armed x).
Qed.

Lemma deactivate_ts x : ts (deactivate x) = ts x.
Proof. unfold deactivate. destruct (isActive x); [| done]. by destruct (armed x). Qed.

Lemma deactivate_inactive x : isActive (deactivate x) = false.
Proof.
  unfold deactivate. destruct (isActive x) eqn:Ha; [| done]. by destruct (armed x).
Qed.

Lemma deactivate_stopped x :
  isActive x = true -> phase (unblocker (deactivate x)) <> Armed.
Proof.
  unfold deactivate, armed. intros ->.
  by destruct (phase (unblocker x)) eqn:Hp; cbn; rewrite ?Hp.
Qed.

Lemma deactivate_inactive_id x : isActive x = false -> deactivate x = x.
Proof. unfold deactivate. by intros ->. Qed.

#[local] Instance untracking_preorder : PreOrder untracking.
Proof.
  split.
  - intros s. split_and!; try done. intros t x Ht. exists x. by split; [| left].
  - intros s1 s2 s3 (Ht1 & Hr1 & ? & ? & ? & ? & ? & ?)
                    (Ht2 & Hr2 & ? & ? & ? & ? & ? & ?).
    split_and!; try congruence; [| by auto].
    intros t x Ht. destruct (Ht1 t x Ht) as (x1 & Hx1 & Hc1).
    destruct (Ht2 t x1 Hx1) as (x2 & Hx2 & Hc2). exists x2. split; [done |].
    destruct Hc1 as [-> | ->], Hc2 as [-> | ->]; auto.
    right. apply deactivate_idemp.
Qed.

Lemma untracked_then t s s1 s2 :
  untracked t s s1 -> untracking s1 s2 -> untracked t s s2.
Proof.
  intros Hu (Ht & Hr & _) x Hx. destruct (Hu x Hx) as [Hx1 Hr1].
  destruct (Ht t _ Hx1) as (x2 & Hx2 & Hc). split; [| by apply Hr].
  destruct Hc as [-> | ->]; [done | by rewrite deactivate_idemp in Hx2].
Qed.

Lemma untracked_after t s s1 s2 :
  untracking s s1 -> untracked t s1 s2 -> untracked t s s2.
Proof.
  intros (Ht & _) Hu x Hx. destruct (Ht t x Hx) as (x1 & Hx1 & Hc).
  destruct (Hu x1 Hx1) as [Hx2 Hr2].
  destruct Hc as [-> | ->]; [done |].
  by rewrite deactivate_idemp, deactivate_ts in *.
Qed.

(** One visit of the [Range] callback. *)
Lemma untrack_flow_spec t s x :
  tracedFlows s !! t = Some x ->
  exists s',
    untrack_flow t s = (Returned tt, s') /\
    untracking s s' /\ untracked t s s' /\ streamMaps s' = streamMaps s.
Proof.
  intros Ht. unfold untrack_flow.
  unfold bind at 1. rewrite (run_isActive_CompareAndSwap _ _ _ Ht).
  assert (forall s2 : fm_state,
            tracedFlows s2 = <[t := deactivate x]> (tracedFlows s) ->
            traceToHttpRequestMap s2 = traceToHttpRequestMap s ->
            now s2 = now s -> cancelled s2 = cancelled s ->
            MutexMap s2 = MutexMap s -> carriers s2 = carriers s ->
            flowToStreamToSequenceMap s2 = flowToStreamToSequenceMap s ->
            untrackTimers s2 = untrackTimers s -> streamMaps s2 = streamMaps s ->
            exists s',
              (do y <- loadTracedFlow t;
               modify (set_registry (delete (traceID (ts y))))) s2
              = (Returned tt, s') /\
              untracking s s' /\ untracked t s s' /\ streamMaps s' = streamMaps s)
    as Hrest.
  { intros s2 Htf Hreg Hn Hca Hmm Hcs Hidx Hut Hsm.
    assert (tracedFlows s2 !! t = Some (deactivate x)) as Ht2
      by (by rewrite Htf, lookup_insert_eq).
    rewrite (run_bind _ _ _ _ _ (run_loadTracedFlow _ _ _ Ht2)).
    rewrite deactivate_ts. eexists. split; [reflexivity |].
    split; [| split; [| done]].
    - split_and!; try done.
      + intros t' x' Ht'. cbn. rewrite Htf.
        destruct (decide (t = t')) as [<- | Hne].
        * rewrite lookup_insert_eq. exists (deactivate x). split; [done |].
          right. congruence.
        * rewrite lookup_insert_ne by done. exists x'. by split; [| left].
      + intros k Hk. cbn. rewrite Hreg.
        destruct (decide (traceID (ts x) = k)) as [<- | Hne].
        * apply lookup_delete_eq.
        * by rewrite lookup_delete_ne.
    - intros x' Hx'. replace x' with x by congruence. split; [exact Ht2 |].
      cbn. rewrite Hreg. apply lookup_delete_eq. }
  destruct (isActive x) eqn:Ha.
  - set (s1 := set_tracedFlows (<[t := with_isActive false x]>) s).
    assert (tracedFlows s1 !! t = Some (with_isActive false x)) as Ht1 by lk.
    unfold bind at 1. unfold bind at 1. rewrite (run_unblocker_Stop _ _ _ Ht1).
    cbn [phase unblocker with_isActive].
    destruct (phase (unblocker x)) eqn:Hp; cbn [ret].
    + apply Hrest; try done. subst s1. cbn. rewrite insert_insert_eq.
      unfold deactivate, armed. by rewrite Ha, Hp.
    + apply Hrest; try done. subst s1. cbn.
      unfold deactivate, armed. by rewrite Ha, Hp.
    + apply Hrest; try done. subst s1. cbn.
      unfold deactivate, armed. by rewrite Ha, Hp.
  - cbn [ret]. unfold bind at 1. cbn [ret]. apply Hrest; try done.
    rewrite (deactivate_inactive_id x Ha). symmetry. by apply insert_id.
Qed.

Lemma untracking_allocated s s' t :
  untracking s s' -> is_Some (tracedFlows s !! t) -> is_Some (tracedFlows s' !! t).
Proof.
  intros (Ht & _) [x Hx]. destruct (Ht t x Hx) as (x' & Hx' & _). by exists x'.
Qed.

(** The [Range] over one inner map. *)
Lemma range_untrack_spec (sttsm : list (Z * nat)) s :
  Forall (fun e => is_Some (tracedFlows s !! snd e)) sttsm ->
  exists s',
    forM_ sttsm (fun entry => untrack_flow (snd entry)) s = (Returned tt, s') /\
    untracking s s' /\
    (forall e, In e sttsm -> untracked (snd e) s s') /\
    streamMaps s' = streamMaps s.
Proof.
  revert s. induction sttsm as [|[k t] sttsm IH]; intros s Hall.
  - exists s. split; [done |]. split; [reflexivity |]. split; [intros ? [] | done].
  - apply Forall_cons in Hall as [[x Hx] Hall]. cbn [snd] in Hx.
    destruct (untrack_flow_spec t s x Hx) as (s1 & Hrun1 & Hu1 & Hd1 & Hsm1).
    destruct (IH s1) as (s2 & Hrun2 & Hu2 & Hd2 & Hsm2).
    { eapply Forall_impl; [exact Hall |]. intros e He.
      by eapply untracking_allocated. }
    exists s2. cbn [forM_ snd]. rewrite (run_bind _ _ _ _ _ Hrun1).
    split; [exact Hrun2 |]. split; [by etransitivity |].
    split; [| congruence].
    intros e [<- | Hin].
    + by eapply untracked_then.
    + eapply untracked_after; [exact Hu1 | by apply Hd2].
Qed.

(** The [ForEach] callback on one stream. *)
Lemma untrack_stream_spec ftsm stream (sttsm : list (Z * nat)) s :
  is_Some (streamMaps s !! ftsm) ->
  Forall (fun e => is_Some (tracedFlows s !! snd e)) sttsm ->
  exists s',
    untrack_stream ftsm stream sttsm s = (Returned tt, s') /\
    untracking s s' /\
    (forall e, In e sttsm -> untracked (snd e) s s') /\
    is_Some (streamMaps s' !! ftsm).
Proof.
  intros [m Hm] Hall. unfold untrack_stream.
  destruct (range_untrack_spec sttsm s Hall) as (s1 & Hrun & Hu & Hd & Hsm).
  rewrite (run_bind _ _ _ _ _ Hrun).
  assert (loadStreamMap ftsm s1 = (Returned m, s1)) as Hload
    by (unfold loadStreamMap; by rewrite Hsm, Hm).
  rewrite (run_bind _ _ _ _ _ Hload).
  eexists. split; [reflexivity |].
  destruct Hu as (Ht & Hr & ? & ? & ? & ? & ? & ?).
  split; [by split_and! |]. split.
  - intros e He x Hx. by apply (Hd e He x).
  - cbn. rewrite lookup_insert_eq. by eexists.
Qed.

(** The [ForEach] over the stream map. *)
Lemma foreach_untrack_spec ftsm (entries : list (Z * list (Z * nat))) s :
  is_Some (streamMaps s !! ftsm) ->
  Forall (fun t => is_Some (tracedFlows s !! t)) (flows_of entries) ->
  exists s',
    forM_ entries (fun e => untrack_stream ftsm (fst e) (snd e)) s
    = (Returned tt, s') /\
    untracking s s' /\
    (forall t, In t (flows_of entries) -> untracked t s s') /\
    is_Some (streamMaps s' !! ftsm).
Proof.
  revert s. induction entries as [|[stream sttsm] entries IH]; intros s Hsm Hall.
  - exists s. split; [done |]. split; [reflexivity |]. split; [intros ? [] | done].
  - unfold flows_of in Hall. cbn [map concat snd] in Hall.
    apply Forall_app in Hall as [Hall1 Hall2].
    destruct (untrack_stream_spec ftsm stream sttsm s Hsm) as (s1 & Hrun1 & Hu1 & Hd1 & Hsm1).
    { exact (proj1 (List.Forall_map snd
                      (fun t => is_Some (tracedFlows s !! t)) sttsm) Hall1). }
    destruct (IH s1 Hsm1) as (s2 & Hrun2 & Hu2 & Hd2 & Hsm2).
    { eapply Forall_impl; [exact Hall2 |]. intros t Ht.
      by eapply untracking_allocated. }
    exists s2. cbn [forM_ fst snd]. rewrite (run_bind _ _ _ _ _ Hrun1).
    split; [exact Hrun2 |]. split; [by etransitivity |]. split; [| done].
    intros t Hin. unfold flows_of in Hin. cbn [map concat snd] in Hin.
    apply in_app_or in Hin as [Hin | Hin].
    + apply in_map_iff in Hin as (e & <- & He).
      eapply untracked_then; [by apply Hd1 | done].
    + eapply untracked_after; [exact Hu1 | by apply Hd2].
Qed.

(** The loop deleting the collected streams. *)
Lemma delete_streams_spec ftsm (streams : list Z) s :
  is_Some (streamMaps s !! ftsm) ->
  exists s',
    forM_ streams
      (fun stream => do m' <- loadStreamMap ftsm;
                     storeStreamMap ftsm (delete stream m')) s
    = (Returned tt, s') /\
    untracking s s' /\ tracedFlows s' = tracedFlows s /\
    traceToHttpRequestMap s' = traceToHttpRequestMap s.
Proof.
  revert s. induction streams as [|stream streams IH]; intros s [m Hm].
  - exists s. by split_and!.
  - cbn [forM_].
    assert (loadStreamMap ftsm s = (Returned m, s)) as Hload
      by (unfold loadStreamMap; by rewrite Hm).
    unfold bind at 1. rewrite (run_bind _ _ _ _ _ Hload). cbn [storeStreamMap modify].
    set (s1 := set_streamMaps (<[ftsm := delete stream m]>) s).
    destruct (IH s1) as (s2 & Hrun & Hu & Htf & Hreg).
    { subst s1. cbn. rewrite lookup_insert_eq. by eexists. }
    exists s2. split; [exact Hrun |].
    split; [| split; [by rewrite Htf | by rewrite Hreg]].
    etransitivity; [| exact Hu]. split_and!; try done.
    intros t x Hx. exists x. by split; [| left].
Qed.

(** The drain loop on a carrier whose counters are coupled. *)
Lemma drain_spec fuel lock s x :
  carriers s !! lock = Some x ->
  activeRequests x <= Z.of_nat fuel ->
  activeRequests x <= 0 \/ (activeRequests x <= wg x /\ wg x < 2 ^ 31) ->
  drain fuel lock s =
  (Returned tt,
   if activeRequests x >? 0
   then set_carriers
          (<[lock := with_wg (wg x - activeRequests x) (with_activeRequests 0 x)]>) s
   else s).
Proof.
  revert s x. induction fuel as [|fuel IH]; intros s x Hc Hfuel Hcoupled.
  - cbn [drain ret]. destruct (Z.gtb_spec (activeRequests x) 0); [lia | done].
  - cbn [drain]. rewrite (run_bind _ _ _ _ _ (run_activeRequests_Load _ _ _ Hc)).
    destruct (Z.gtb_spec (activeRequests x) 0) as [Hpos | Hneg]; [| done].
    destruct Hcoupled as [? | [Hle Hwg]]; [lia |].
    rewrite (run_bind _ _ _ _ _ (run_activeRequests_Add _ _ _ (-1) Hc)).
    rewrite (wrap64_small (activeRequests x + -1))
      by (change (2 ^ 63) with 9223372036854775808;
          change (2 ^ 31) with 2147483648 in Hwg; lia).
    set (s1 := set_carriers
                 (<[lock := with_activeRequests (activeRequests x + -1) x]>) s).
    assert (carriers s1 !! lock = Some (with_activeRequests (activeRequests x + -1) x))
      as Hc1 by lk.
    unfold wg_Done. pose proof (run_wg_Add _ _ _ (-1) Hc1) as Hdone.
    cbn [wg with_activeRequests] in Hdone.
    rewrite (wrap32_small (wg x + -1)) in Hdone by lia.
    destruct (Z.ltb_spec (wg x + -1) 0) as [? | _]; [lia |].
    rewrite (run_bind _ _ _ _ _ Hdone).
    set (x2 := with_wg (wg x + -1) (with_activeRequests (activeRequests x + -1) x)).
    set (s2 := set_carriers (<[lock := x2]>) s1).
    rewrite (IH s2 x2); [| subst s2; lk | subst x2; cbn; lia
                         | right; subst x2; cbn; lia].
    subst x2. cbn [activeRequests wg with_wg with_activeRequests].
    f_equal. subst s2 s1.
    destruct (Z.gtb_spec (activeRequests x + -1) 0) as [Hp | Hn].
    + unfold set_carriers. cbn. rewrite !insert_insert_eq.
      do 2 f_equal. unfold with_wg, with_activeRequests. cbn. f_equal; lia.
    + assert (activeRequests x = 1) as Hone by lia.
      unfold set_carriers. cbn. rewrite !insert_insert_eq.
      do 2 f_equal. unfold with_wg, with_activeRequests. cbn. f_equal; lia.
Qed.

Lemma flows_of_In (m : gmap Z (list (Z * nat))) stream sttsm k t :
  m !! stream = Some sttsm -> In (k, t) sttsm -> In t (flows_of (map_to_list m)).
Proof.
  intros Hm Hin. unfold flows_of. apply in_concat.
  exists (map snd sttsm). split.
  - apply in_map_iff. exists (stream, sttsm). split; [done |].
    apply list_elem_of_In. by apply elem_of_map_to_list.
  - apply in_map_iff. by exists (k, t).
Qed.

(** The first half of [untrackConnection]: the subtree of the flow. *)
Lemma untrack_index_spec flowID0 s :
  index_allocated flowID0 s = true ->
  exists s',
    (match flowToStreamToSequenceMap s !! flowID0 with
     | Some ftsm =>
         do m <- loadStreamMap ftsm;
         let entries := map_to_list m in
         run forM_ entries (fun e => untrack_stream ftsm (fst e) (snd e));
         run forM_ (rev (map fst entries))
               (fun stream =>
                  do m' <- loadStreamMap ftsm;
                  storeStreamMap ftsm (delete stream m'));
         modify (set_index (delete flowID0))
     | None => ret tt
     end) s = (Returned tt, s') /\
    carriers s' = carriers s /\ MutexMap s' = MutexMap s /\
    flowToStreamToSequenceMap s' !! flowID0 = None /\
    (forall l m stream sttsm k t,
       flowToStreamToSequenceMap s !! flowID0 = Some l ->
       streamMaps s !! l = Some m -> m !! stream = Some sttsm ->
       In (k, t) sttsm -> untracked t s s').
Proof.
  intros Halloc. unfold index_allocated in Halloc.
  destruct (flowToStreamToSequenceMap s !! flowID0) as [l|] eqn:Hidx.
  - destruct (streamMaps s !! l) as [m|] eqn:Hm; [| done].
    pose proof (proj1 (forallb_forall _ _) Halloc) as Hforall.
    assert (Forall (fun t => is_Some (tracedFlows s !! t)) (flows_of (map_to_list m)))
      as Hall.
    { apply List.Forall_forall. intros t Hin.
      specialize (Hforall t Hin). by apply bool_decide_eq_true in Hforall. }
    assert (loadStreamMap l s = (Returned m, s)) as Hload
      by (unfold loadStreamMap; by rewrite Hm).
    rewrite (run_bind _ _ _ _ _ Hload). cbv zeta.
    destruct (foreach_untrack_spec l (map_to_list m) s) as (s1 & Hrun1 & Hu1 & Hd1 & Hsm1);
      [by eexists | done |].
    rewrite (run_bind _ _ _ _ _ Hrun1).
    destruct (delete_streams_spec l (rev (map fst (map_to_list m))) s1 Hsm1)
      as (s2 & Hrun2 & Hu2 & Htf2 & Hreg2).
    rewrite (run_bind _ _ _ _ _ Hrun2).
    eexists. split; [reflexivity |].
    destruct Hu1 as (_ & _ & _ & _ & Hmm1 & Hcs1 & Hidx1 & _).
    destruct Hu2 as (_ & _ & _ & _ & Hmm2 & Hcs2 & Hidx2 & _).
    cbn. split; [congruence |]. split; [congruence |].
    split; [apply lookup_delete_eq |].
    intros l' m' stream sttsm k t [= <-] Hm' Hs Hin x Hx.
    replace m' with m in * by congruence.
    destruct (Hd1 t (flows_of_In m stream sttsm k t Hs Hin) x Hx) as [Hx1 Hr1].
    cbn. rewrite Htf2, Hreg2. by split.
  - exists s. by split_and!.
Qed.

(** C8: after [untrackConnection] on a flow has returned, every traced
    flow that was filed under the flow is inactive, with its unblocker
    stopped when the CAS was won, its trace id is gone from the
    registry, the flow is absent from the index and from the carrier
    map, and [activeRequests] has been drained to at most 0 with one
    [wg.Done()] per decrement. *)
Theorem untrackConnection_teardown :
  forall flowID0 lock s x,
    carriers s !! lock = Some x ->
    activeRequests x <= 0 \/ (activeRequests x <= wg x /\ wg x < 2 ^ 31) ->
    index_allocated flowID0 s = true ->
    exists s' x',
      untrackConnection flowID0 lock s = (Returned tt, s') /\
      (forall l m stream sttsm k t y,
         flowToStreamToSequenceMap s !! flowID0 = Some l ->
         streamMaps s !! l = Some m -> m !! stream = Some sttsm ->
         In (k, t) sttsm -> tracedFlows s !! t = Some y ->
         exists y',
           tracedFlows s' !! t = Some y' /\ isActive y' = false /\
           (isActive y = true -> phase (unblocker y') <> Armed) /\
           (isActive y = false -> y' = y) /\
           traceToHttpRequestMap s' !! traceID (ts y) = None) /\
      flowToStreamToSequenceMap s' !! flowID0 = None /\
      MutexMap s' !! flowID0 = None /\
      carriers s' !! lock = Some x' /\
      activeRequests x' = Z.min (activeRequests x) 0 /\
      wg x - wg x' = activeRequests x - activeRequests x' /\
      wg x' = wg x - Z.max (activeRequests x) 0.
Proof.
  intros flowID0 lock s x Hc Hcoupled Halloc.
  destruct (untrack_index_spec flowID0 s Halloc)
    as (s1 & Hrun1 & Hcs1 & Hmm1 & Hidx1 & Hflows).
  assert (carriers s1 !! lock = Some x) as Hc1 by (by rewrite Hcs1).
  unfold untrackConnection, defer_recover.
  rewrite (run_bind (gets flowToStreamToSequenceMap) _ s
             (flowToStreamToSequenceMap s) s) by done.
  rewrite (run_bind _ _ _ _ _ Hrun1).
  rewrite (run_bind _ _ _ _ _ (run_activeRequests_Load _ _ _ Hc1)).
  rewrite (run_bind _ _ _ _ _
             (drain_spec (Z.to_nat (activeRequests x)) lock s1 x Hc1 ltac:(lia) Hcoupled)).
  cbn [modify].
  assert (forall l m stream sttsm k t y s',
            tracedFlows s' = tracedFlows s1 ->
            traceToHttpRequestMap s' = traceToHttpRequestMap s1 ->
            flowToStreamToSequenceMap s !! flowID0 = Some l ->
            streamMaps s !! l = Some m -> m !! stream = Some sttsm ->
            In (k, t) sttsm -> tracedFlows s !! t = Some y ->
            exists y',
              tracedFlows s' !! t = Some y' /\ isActive y' = false /\
              (isActive y = true -> phase (unblocker y') <> Armed) /\
              (isActive y = false -> y' = y) /\
              traceToHttpRequestMap s' !! traceID (ts y) = None) as Hfl.
  { intros l m stream sttsm k t y s' Htf Hreg Hl Hm Hs Hin Hy.
    destruct (Hflows l m stream sttsm k t Hl Hm Hs Hin y Hy) as [Hy1 Hr1].
    exists (deactivate y). rewrite Htf, Hreg. split_and!; try done.
    - apply deactivate_inactive.
    - apply deactivate_stopped.
    - apply deactivate_inactive_id. }
  destruct (Z.gtb_spec (activeRequests x) 0) as [Hpos | Hneg].
  - eexists _, _. split; [reflexivity |].
    split; [intros; by eapply Hfl |].
    split; [done |]. split; [cbn; rewrite Hmm1; apply lookup_delete_eq |].
    split; [lk |]. cbn. lia.
  - exists (set_MutexMap (delete flowID0) s1), x. split; [reflexivity |].
    split; [intros; by eapply Hfl |].
    split; [done |]. split; [cbn; rewrite Hmm1; apply lookup_delete_eq |].
    split; [done |]. lia.
Qed.

Lemma untrackConnection_teardown_witness :
  exists s' x',
    untrackConnection 1 0%nat tracked_state = (Returned tt, s') /\
    flowToStreamToSequenceMap s' !! 1 = None /\
    MutexMap s' !! 1 = None /\
    carriers s' !! 0%nat = Some x' /\
    activeRequests x' = 0 /\ wg x' = 0.
Proof.
  destruct (untrackConnection_teardown 1 0%nat tracked_state fired_carrier
              eq_refl ltac:(right; vm_compute; split; [discriminate | reflexivity])
              ltac:(vm_compute; reflexivity))
    as (s' & x' & Hrun & _ & Hidx & Hmm & Hc & Har & _ & Hwg).
  exists s', x'. split; [exact Hrun |]. split; [exact Hidx |].
  split; [exact Hmm |]. split; [exact Hc |]. split; [exact Har | exact Hwg].
Defined.

(** ** The coupling of [activeRequests] and the wait-group

    The hypothesis of [untrackConnection_teardown] on the two counters
    holds for a new carrier and is kept by every step that changes
    them, as long as [activeRequests] does not underflow. *)

Lemma coupled_teardown x :
  coupled x ->
  activeRequests x <= 0 \/ (activeRequests x <= wg x /\ wg x < 2 ^ 31).
Proof. intros (? & ? & ?). right. lia. Qed.

Lemma coupled_new serial0 flowID0 s :
  match newFlowLockCarrier serial0 flowID0 s with
  | (Returned c, s') => exists x, carriers s' !! c = Some x /\ coupled x
  | _ => False
  end.
Proof.
  cbn. eexists. split; [by rewrite lookup_insert_eq |].
  unfold coupled. cbn. lia.
Qed.

Lemma coupled_request serial0 flowID0 seq ack local c flags
    (requestTS : gmap Z (option traceAndSpan)) acc stream s x ts1 s1 v s' :
  carriers s !! c = Some x ->
  requestTS !! stream = Some (Some ts1) ->
  trackConnection c serial0 flowID0 flags seq ack local (Some ts1) s
  = (Returned (Some (fresh (dom (tracedFlows s))), true), s1) ->
  handle_request serial0 flowID0 seq ack local c flags requestTS acc stream s
  = (Returned v, s') ->
  coupled x ->
  exists x', carriers s' !! c = Some x' /\ coupled x'.
Proof.
  intros Hc Hts Hrun Hret (Hlo & Hle & Hwg0 & Hwg1).
  destruct (handle_request_run serial0 flowID0 seq ack local c flags requestTS
              acc stream s x ts1 s1 Hc Hts Hrun) as [_ Hr].
  cbv zeta in Hr. rewrite Hr in Hret. clear Hr.
  change (2 ^ 31) with 2147483648 in *.
  change (2 ^ 63) with 9223372036854775808 in *.
  rewrite (wrap64_small (activeRequests x + 1)) in Hret
    by (change (2 ^ 63) with 9223372036854775808; lia).
  destruct (Z.gtb_spec (activeRequests x + 1) 0) as [Hpos | Hneg].
  - destruct (Z.ltb_spec (wrap32 (wg x + 1)) 0) as [? | Hge]; [done |].
    injection Hret as <- <-.
    eexists. split; [lk |]. unfold coupled. cbn.
    destruct (decide (wg x + 1 < 2147483648)) as [Hlt | Hov].
    + rewrite wrap32_small by (change (2 ^ 31) with 2147483648; lia).
      change (2 ^ 31) with 2147483648. change (2 ^ 63) with 9223372036854775808.
      lia.
    + assert (wg x + 1 = 2147483648) as Heq by lia.
      rewrite Heq in Hge. by vm_compute in Hge.
  - injection Hret as <- <-.
    eexists. split; [lk |]. unfold coupled. cbn.
    change (2 ^ 31) with 2147483648. change (2 ^ 63) with 9223372036854775808.
    lia.
Qed.

Lemma coupled_response c (provider : TracedFlowProvider)
    (responseTS : gmap Z (option traceAndSpan)) acc stream s x ts1 t y :
  carriers s !! c = Some x ->
  responseTS !! stream = Some (Some ts1) ->
  provider (streamID ts1) s = (Some t, true) ->
  tracedFlows s !! t = Some y ->
  coupled x -> - 2 ^ 63 < activeRequests x ->
  let r := handle_response c provider responseTS acc stream s in
  fst r = Returned (activeRequests x - 1) /\
  exists x', carriers (snd r) !! c = Some x' /\ coupled x'.
Proof.
  intros Hc Hts Hfound Ht (Hlo & Hle & Hwg0 & Hwg1) Hunder r. subst r.
  rewrite (handle_response_run c provider responseTS acc stream s x ts1 t y
             Hc Hts Hfound Ht).
  change (2 ^ 31) with 2147483648 in *.
  change (2 ^ 63) with 9223372036854775808 in *.
  rewrite (wrap64_small (activeRequests x + -1))
    by (change (2 ^ 63) with 9223372036854775808; lia).
  replace (activeRequests x + -1) with (activeRequests x - 1) by lia.
  destruct (Z.geb_spec (activeRequests x - 1) 0) as [Hge | Hlt]; cbn [andb].
  - rewrite (wrap32_small (wg x + -1))
      by (change (2 ^ 31) with 2147483648; lia).
    destruct (Z.ltb_spec (wg x + -1) 0) as [? | _]; [lia |].
    destruct (String.eqb (traceID (ts y)) (traceID ts1) && isActive y);
      [destruct (armed y) |]; cbn [fst snd];
      (split; [done |]); eexists; (split; [lk |]); unfold coupled; cbn;
      change (2 ^ 31) with 2147483648;
      change (2 ^ 63) with 9223372036854775808; lia.
  - cbn [fst snd]. split; [done |]. eexists. split; [lk |].
    unfold coupled. cbn.
    change (2 ^ 31) with 2147483648. change (2 ^ 63) with 9223372036854775808.
    lia.
Qed.

Lemma coupled_unblocker s c x :
  carriers s !! c = Some x -> mu x = true ->
  coupled x -> - 2 ^ 63 < activeRequests x ->
  fst (unblocker_critical c s) = Returned tt /\
  exists x', carriers (snd (unblocker_critical c s)) !! c = Some x' /\ coupled x'.
Proof.
  intros Hc Hmu (Hlo & Hle & Hwg0 & Hwg1) Hunder.
  rewrite (run_unblocker_critical _ _ _ Hc Hmu). cbv zeta.
  change (2 ^ 31) with 2147483648 in *.
  change (2 ^ 63) with 9223372036854775808 in *.
  rewrite (wrap64_small (activeRequests x + -1))
    by (change (2 ^ 63) with 9223372036854775808; lia).
  destruct (Z.geb_spec (activeRequests x + -1) 0) as [Hge | Hlt]; cbn [andb fst snd].
  - rewrite (wrap32_small (wg x + -1))
      by (change (2 ^ 31) with 2147483648; lia).
    destruct (Z.ltb_spec (wg x + -1) 0) as [? | _]; [lia |].
    split; [done |]. eexists. split; [lk |]. unfold coupled. cbn.
    change (2 ^ 31) with 2147483648. change (2 ^ 63) with 9223372036854775808.
    lia.
  - split; [done |]. eexists. split; [lk |]. unfold coupled. cbn.
    change (2 ^ 31) with 2147483648. change (2 ^ 63) with 9223372036854775808.
    lia.
Qed.

Lemma coupled_drain lock s x :
  carriers s !! lock = Some x -> coupled x ->
  fst (drain (Z.to_nat (activeRequests x)) lock s) = Returned tt /\
  exists x',
    carriers (snd (drain (Z.to_nat (activeRequests x)) lock s)) !! lock = Some x' /\
    coupled x' /\ activeRequests x' <= 0.
Proof.
  intros Hc Hco. pose proof Hco as (Hlo & Hle & Hwg0 & Hwg1).
  assert (activeRequests x <= Z.of_nat (Z.to_nat (activeRequests x))) as Hfuel by lia.
  rewrite (drain_spec _ _ _ _ Hc Hfuel (coupled_teardown x Hco)).
  cbn [fst snd]. split; [done |].
  destruct (Z.gtb_spec (activeRequests x) 0) as [Hpos | Hneg].
  - eexists. split; [lk |]. unfold coupled. cbn.
    change (2 ^ 31) with 2147483648 in *.
    change (2 ^ 63) with 9223372036854775808 in *. lia.
  - exists x. by split_and!.
Qed.

(** ** The inner map stays sorted *)

Lemma skipmap_Store_bound k v m lo :
  (forall k' v', In (k', v') m -> lo < k') -> lo < k ->
  forall k' v', In (k', v') (skipmap_Store k v m) -> lo < k'.
Proof.
  induction m as [|[k1 v1] m IH]; intros Hm Hk k' v'; cbn [skipmap_Store].
  - intros [[= <- <-] | []]. exact Hk.
  - destruct (k <? k1).
    + intros [[= <- <-] | Hin]; [exact Hk | by eapply Hm].
    + destruct (k =? k1).
      * intros [[= <- <-] | Hin]; [exact Hk |]. eapply Hm. by right.
      * intros [[= <- <-] | Hin]; [eapply Hm; by left |].
        eapply IH; [| exact Hk | exact Hin]. intros ? ? ?. eapply Hm. by right.
Qed.

Lemma skipmap_sorted_build k v m :
  skipmap_sorted m = true -> (forall k' v', In (k', v') m -> k < k') ->
  skipmap_sorted ((k, v) :: m) = true.
Proof.
  intros Hs Hlt. destruct m as [|[k1 v1] m]; [done |].
  cbn. apply andb_true_iff. split; [| exact Hs].
  apply Z.ltb_lt. eapply Hlt. by left.
Qed.

Lemma skipmap_Store_sorted k v m :
  skipmap_sorted m = true -> skipmap_sorted (skipmap_Store k v m) = true.
Proof.
  induction m as [|[k1 v1] m IH]; intros Hs; [done |].
  destruct (skipmap_sorted_cons _ _ _ Hs) as [Hm Hall].
  cbn [skipmap_Store].
  destruct (Z.ltb_spec k k1) as [Hlt | Hge].
  - apply skipmap_sorted_build; [exact Hs |].
    intros k' v' [[= <- <-] | Hin]; [done |]. specialize (Hall _ _ Hin). lia.
  - destruct (Z.eqb_spec k k1) as [-> | Hne].
    + by apply skipmap_sorted_build.
    + apply skipmap_sorted_build; [by apply IH |].
      apply skipmap_Store_bound; [exact Hall | lia].
Qed.

(** ** Scenario S1, end to end *)

(** The response of step (ii) returns [active_requests = 0] and stops
    the unblocker; the FIN of step (iii) does not wait, wins the release
    and schedules untrack [trackingDeadline] later. *)
Lemma scenario_S1 :
  option_map
    (fun r => (fst r, activeRequests_of 0%nat (snd r), wg_of 0%nat (snd r),
               (fun x => (isActive x, phase (unblocker x)))
                 <$> tracedFlows (snd r) !! 0%nat))
    S1_response
  = Some (Returned (0, 0), 0, 0, Some (false, Stopped)) /\
  option_map (fun r => (fst r, released_of 0%nat (snd r), untrackTimers (snd r)))
    S1_fin
  = Some (Returned (true, 0), true,
          [{| ut_due := trackingDeadline; ut_flowID := 1; ut_carrier := 0%nat |}]).
Proof. split; by vm_compute. Qed.

(** * Further properties of the engine *)

(** ** Acquiring the mutex of a flow *)

Section Acquire.
Variables (ctx : context) (serial0 flowID0 tcpFlags seq ack : Z) (local : bool).

Local Abbreviation step := (lock_step ctx serial0 flowID0 tcpFlags seq ack local).
Local Abbreviation steps := (lock_steps ctx serial0 flowID0 tcpFlags seq ack local).
Local Abbreviation sched := (interleave ctx serial0 flowID0 tcpFlags seq ack local).
Local Abbreviation seen := (observations ctx serial0 flowID0 tcpFlags seq ack local).

Lemma step_registered s c :
  MutexMap s !! flowID0 = Some c -> step AtGetOrCompute s = Some (AtGate c, s).
Proof.
  intros Hmm. cbn [lock_step]. unfold lock_carrier.
  rewrite (run_bind (gets MutexMap) _ s (MutexMap s) s) by done.
  by rewrite Hmm.
Qed.

Lemma step_lock_held s c x :
  carriers s !! c = Some x -> mu x = true -> step (AtLock c) s = None.
Proof. intros Hc Hmu. cbn [lock_step]. by rewrite Hc, Hmu. Qed.

Lemma step_lock_free s c x :
  carriers s !! c = Some x -> mu x = false ->
  exists h p,
    step (AtLock c) s
    = Some (Acquired h p, set_carriers (<[c := acquired (now s) x]>) s) /\
    bound_to flowID0 tcpFlags seq ack local c (now s) (set_carriers (<[c := acquired (now s) x]>) s) h p.
Proof.
  intros Hc Hmu. cbn [lock_step]. rewrite Hc, Hmu.
  unfold mu_Lock.
  rewrite (run_bind _ _ _ _ _ (run_updateCarrier _ _ _ (with_mu true) Hc)).
  set (s0 := set_carriers (<[c := with_mu true x]>) s).
  assert (carriers s0 !! c = Some (with_mu true x)) as Hc0 by (subst s0; lk).
  rewrite (run_lock_locked serial0 flowID0 tcpFlags seq ack local c s0 _ Hc0).
  cbv zeta.
  assert (set_carriers (<[c := with_lastLockedAt (now s0) (with_mu true x)]>) s0
          = set_carriers (<[c := acquired (now s) x]>) s) as ->.
  { subst s0. unfold set_carriers, acquired. cbn. by rewrite insert_insert_eq. }
  eexists _, _. split; [reflexivity |]. by split_and!.
Qed.

Lemma steps_S n pc s :
  steps (S n) pc s =
  match step pc s with
  | Some (pc', s') => steps n pc' s'
  | None => (pc, s)
  end.
Proof. reflexivity. Qed.

Lemma steps_acquired n h p s : steps n (Acquired h p) s = (Acquired h p, s).
Proof. by destruct n. Qed.

(** From the gate, three uninterrupted steps are enough when the wait is
    open and the mutex is free. *)
Lemma steps_from_gate s c x n :
  carriers s !! c = Some x -> mu x = false ->
  gate_free ctx tcpFlags x s = true ->
  exists h p,
    steps (3 + n) (AtGate c) s
    = (Acquired h p, set_carriers (<[c := acquired (now s) x]>) s) /\
    bound_to flowID0 tcpFlags seq ack local c (now s) (set_carriers (<[c := acquired (now s) x]>) s) h p.
Proof.
  intros Hc Hmu Hgate.
  destruct (step_lock_free s c x Hc Hmu) as (h & p & Hstep & Hb).
  exists h, p. split; [| exact Hb].
  assert (forall k, steps (S k) (AtLock c) s
                    = (Acquired h p, set_carriers (<[c := acquired (now s) x]>) s))
    as Hlock.
  { intros k. rewrite steps_S, Hstep. apply steps_acquired. }
  unfold gate_free in Hgate.
  change (3 + n)%nat with (S (S (S n))). rewrite steps_S.
  destruct (isConnectionTermination tcpFlags) eqn:Hterm.
  - cbn [negb orb] in Hgate.
    destruct (decide (ctx ∈ cancelled s)) as [Hdone | Hnot].
    + rewrite (step_gate_cancelled ctx serial0 flowID0 tcpFlags seq ack local
                 c s Hterm Hdone). apply Hlock.
    + rewrite (step_gate_wait ctx serial0 flowID0 tcpFlags seq ack local
                 c s Hterm Hnot).
      rewrite bool_decide_eq_false_2 in Hgate by done. cbn [orb] in Hgate.
      apply Z.eqb_eq in Hgate.
      rewrite steps_S.
      rewrite (step_wait_released ctx serial0 flowID0 tcpFlags seq ack local
                 c s x Hc Hgate). apply Hlock.
  - rewrite (step_gate_plain ctx serial0 flowID0 tcpFlags seq ack local c s Hterm).
    apply Hlock.
Qed.

(** While the mutex is held, a goroutine in [lock] does not change the
    engine and does not return. *)
Lemma steps_held s c x n pc :
  carriers s !! c = Some x -> mu x = true ->
  before_acquire c pc ->
  exists pc', steps n pc s = (pc', s) /\ before_acquire c pc'.
Proof.
  intros Hc Hmu.
  assert (forall pc, before_acquire c pc ->
            step pc s = None \/
            exists pc', step pc s = Some (pc', s) /\ before_acquire c pc') as Hone.
  { intros pc0 [-> | [-> | ->]].
    - right. cbn [lock_step].
      destruct (isConnectionTermination tcpFlags);
        [destruct (bool_decide (ctx ∈ cancelled s)) |];
        eexists; (split; [reflexivity |]); unfold before_acquire; auto.
    - cbn [lock_step]. rewrite Hc. destruct (wg x =? 0); [right | by left].
      eexists; (split; [reflexivity |]); unfold before_acquire; auto.
    - left. by eapply step_lock_held. }
  revert pc. induction n as [|n IH]; intros pc Hpc; [by exists pc |].
  rewrite steps_S.
  destruct (Hone pc Hpc) as [-> | (pc' & -> & Hpc')]; [by exists pc |].
  by apply IH.
Qed.

(** A goroutine bound to carrier [c] returns from [lock] only in a
    state in which it finds the mutex free. *)
Lemma mutex_passed sch c pc s :
  before_acquire c pc ->
  is_acquired (fst (sched sch pc s)) = true ->
  existsb (mutex_free c) (seen sch pc s) = true.
Proof.
  revert pc s. induction sch as [|[|o] sch IH]; intros pc s Hpc Hacq.
  - by destruct Hpc as [-> | [-> | ->]].
  - cbn [interleave observations existsb] in *.
    apply orb_true_iff.
    destruct Hpc as [-> | [-> | ->]].
    + right. cbn [lock_step] in *.
      destruct (isConnectionTermination tcpFlags);
        [destruct (bool_decide (ctx ∈ cancelled s)) |];
        (apply IH; [unfold before_acquire; auto | done]).
    + right. cbn [lock_step] in *.
      destruct (carriers s !! c) as [x|];
        [destruct (wg x =? 0) |];
        (apply IH; [unfold before_acquire; auto | done]).
    + unfold mutex_free at 1.
      destruct (carriers s !! c) as [x|] eqn:Hc.
      * destruct (mu x) eqn:Hmu; [| by left].
        right. rewrite (step_lock_held s c x Hc Hmu) in *.
        apply IH; [unfold before_acquire; auto | done].
      * right. cbn [lock_step] in *. rewrite Hc in *.
        apply IH; [unfold before_acquire; auto | done].
  - cbn [interleave observations] in *. by apply IH.
Qed.
End Acquire.

Lemma lock_registered ctx serial0 flowID0 tcpFlags seq ack local s c :
  MutexMap s !! flowID0 = Some c ->
  lock ctx serial0 flowID0 tcpFlags seq ack local s =
  match lock_steps ctx serial0 flowID0 tcpFlags seq ack local 3 (AtGate c) s with
  | (Acquired h p, s') => Some (h, p, s')
  | _ => None
  end.
Proof.
  intros Hmm. unfold lock. rewrite steps_S.
  by rewrite (step_registered _ _ _ _ _ _ _ _ _ Hmm).
Qed.

Lemma lock_free_carrier ctx serial0 flowID0 tcpFlags seq ack local s c x :
  MutexMap s !! flowID0 = Some c ->
  carriers s !! c = Some x -> mu x = false ->
  gate_free ctx tcpFlags x s = true ->
  exists h p,
    lock ctx serial0 flowID0 tcpFlags seq ack local s
    = Some (h, p, set_carriers (<[c := acquired (now s) x]>) s) /\
    bound_to flowID0 tcpFlags seq ack local c (now s)
      (set_carriers (<[c := acquired (now s) x]>) s) h p.
Proof.
  intros Hmm Hc Hmu Hgate.
  destruct (steps_from_gate ctx serial0 flowID0 tcpFlags seq ack local s c x 0
              Hc Hmu Hgate) as (h & p & Hsteps & Hb).
  exists h, p. split; [| exact Hb].
  rewrite (lock_registered _ _ _ _ _ _ _ _ _ Hmm).
  change (3 + 0)%nat with 3%nat in Hsteps. by rewrite Hsteps.
Qed.



Lemma lock_new_flow :
  forall ctx serial0 flowID0 tcpFlags seq ack local s,
    MutexMap s !! flowID0 = None ->
    exists h p s1 c x,
      lock ctx serial0 flowID0 tcpFlags seq ack local s = Some (h, p, s1) /\
      carriers s !! c = None /\
      MutexMap s1 = <[flowID0 := c]> (MutexMap s) /\
      carriers s1 = <[c := x]> (carriers s) /\
      mu x = true /\ lastLockedAt x = Some (now s) /\ lastUnlockedAt x = None /\
      wg x = 0 /\ activeRequests x = 0 /\ released x = false /\
      bound_to flowID0 tcpFlags seq ack local c (now s) s1 h p.
Proof.
  intros ctx serial0 flowID0 tcpFlags seq ack local s Hmm.
  unfold lock. rewrite steps_S. cbn [lock_step]. unfold lock_carrier.
  rewrite (run_bind (gets MutexMap) _ s (MutexMap s) s) by done.
  rewrite Hmm.
  set (c := fresh (dom (carriers s))).
  set (x0 := {| mu := false; wg := 0; serial := serial0; flowID := flowID0;
                released := false; createdAt := now s;
                lastLockedAt := None; lastUnlockedAt := None;
                isHTTP2 := false; activeRequests := 0 |}).
  set (s0 := set_MutexMap (<[flowID0 := c]>) (set_carriers (<[c := x0]>) s)).
  assert ((do c <- newFlowLockCarrier serial0 flowID0;
           run modify (set_MutexMap (<[flowID0 := c]>)); ret c) s
          = (Returned c, s0)) as -> by done.
  assert (carriers s0 !! c = Some x0) as Hc0 by (subst s0; lk).
  destruct (steps_from_gate ctx serial0 flowID0 tcpFlags seq ack local s0 c x0 0
              Hc0 eq_refl) as (h & p & Hsteps & Hb).
  { unfold gate_free. subst x0. cbn [wg]. apply orb_true_r. }
  change (3 + 0)%nat with 3%nat in Hsteps. rewrite Hsteps.
  exists h, p, (set_carriers (<[c := acquired (now s0) x0]>) s0), c,
    (acquired (now s) x0).
  split; [done |]. split; [apply not_elem_of_dom, is_fresh |].
  split; [done |].
  split; [subst s0; cbn; by rewrite insert_insert_eq |].
  split_and!; try done.
Qed.

(** X3: A [lock] call on a flow seen for the first time that is not
    preempted by another goroutine returns, whatever the flags and the
    context: the carrier it creates holds no token, so that even a FIN
    or RST segment passes the wait, and its mutex is free.  When [lock]
    returns the carrier is registered for the flow, held, without tokens
    or requests, and not released. *)
Theorem lock_new_flow_acquires :
  forall ctx serial0 flowID0 tcpFlags seq ack local s,
    MutexMap s !! flowID0 = None ->
    exists h p s1 c x,
      lock ctx serial0 flowID0 tcpFlags seq ack local s = Some (h, p, s1) /\
      carriers s !! c = None /\
      MutexMap s1 = <[flowID0 := c]> (MutexMap s) /\
      carriers s1 = <[c := x]> (carriers s) /\
      mu x = true /\ lastLockedAt x = Some (now s) /\ lastUnlockedAt x = None /\
      wg x = 0 /\ activeRequests x = 0 /\ released x = false /\
      bound_to flowID0 tcpFlags seq ack local c (now s) s1 h p.
Proof. exact lock_new_flow. Qed.

Lemma lock_new_flow_acquires_witness :
  exists h p s1 c,
    lock 0%nat 1 1 (Z.lor tcpFin tcpAck) 1000 0 false newFlowMutex
    = Some (h, p, s1) /\
    MutexMap s1 = <[1 := c]> (MutexMap newFlowMutex).
Proof.
  destruct (lock_new_flow_acquires 0%nat 1 1 (Z.lor tcpFin tcpAck) 1000 0 false
              newFlowMutex eq_refl)
    as (h & p & s1 & c & x & Hlock & _ & Hmm & _).
  by exists h, p, s1, c.
Defined.

(** ** Mutual exclusion *)

(** X4: While the mutex of the carrier of a flow is held, [lock] for that
    flow does not return and leaves the engine as it is, however many
    steps it is given; under any scheduling of the other goroutines, a
    goroutine bound to a carrier returns from [lock] only after a step
    in which it found the mutex of that carrier free. *)
Theorem lock_mutual_exclusion :
  forall ctx serial0 flowID0 tcpFlags seq ack local c s,
    (forall x n,
       MutexMap s !! flowID0 = Some c ->
       carriers s !! c = Some x -> mu x = true ->
       lock ctx serial0 flowID0 tcpFlags seq ack local s = None /\
       snd (lock_steps ctx serial0 flowID0 tcpFlags seq ack local n
              AtGetOrCompute s) = s /\
       is_acquired (fst (lock_steps ctx serial0 flowID0 tcpFlags seq ack local n
                           AtGetOrCompute s)) = false) /\
    (forall sch,
       is_acquired (fst (interleave ctx serial0 flowID0 tcpFlags seq ack local
                           sch (AtGate c) s)) = true ->
       existsb (mutex_free c)
         (observations ctx serial0 flowID0 tcpFlags seq ack local sch (AtGate c) s)
       = true).
Proof.
  intros ctx serial0 flowID0 tcpFlags seq ack local c s. split.
  - intros x n Hmm Hc Hmu.
    assert (forall k, exists pc',
              lock_steps ctx serial0 flowID0 tcpFlags seq ack local k
                AtGetOrCompute s = (pc', s) /\
              is_acquired pc' = false) as Hsteps.
    { intros [|k]; [by exists AtGetOrCompute |].
      rewrite steps_S, (step_registered _ _ _ _ _ _ _ _ _ Hmm).
      destruct (steps_held ctx serial0 flowID0 tcpFlags seq ack local s c x k
                  (AtGate c) Hc Hmu) as (pc' & Hrun & Hpc');
        [unfold before_acquire; auto |].
      exists pc'. split; [exact Hrun |].
      by destruct Hpc' as [-> | [-> | ->]]. }
    split.
    + unfold lock. destruct (Hsteps 4%nat) as (pc' & -> & Hpc').
      by destruct pc'.
    + destruct (Hsteps n) as (pc' & -> & Hpc'). by split.
  - intros sch Hacq. eapply mutex_passed; [| exact Hacq].
    unfold before_acquire. auto.
Qed.

Lemma lock_mutual_exclusion_witness :
  lock 0%nat 2 1 (Z.lor tcpPsh tcpAck) 2000 1500 false (held_state 0 false) = None.
Proof.
  destruct (lock_mutual_exclusion 0%nat 2 1 (Z.lor tcpPsh tcpAck) 2000 1500 false
              0%nat (held_state 0 false)) as [H _].
  destruct (H (held_carrier 0 false) 4%nat eq_refl eq_refl eq_refl) as [Hlock _].
  exact Hlock.
Defined.

(** ** Releasing the mutex *)

Lemma unlocked_acquired t x :
  mu x = false ->
  unlocked t (acquired t x) = with_lastUnlockedAt t (with_lastLockedAt t x).
Proof. intros Hmu. destruct x. cbn in *. by subst. Qed.

(** X5: [lock] followed by the [Unlock] of its handle, for flags without FIN
    and RST: the unlock reports no release and the time elapsed since
    the acquisition, frees the mutex and records the unlock time, touching
    nothing else; unlocking at once leaves the engine as it was before
    [lock] but for the two timestamps of the carrier, and [lock] can be
    taken again. *)
Theorem lock_unlock_round_trip :
  forall ctx serial0 flowID0 tcpFlags seq ack local s c x,
    MutexMap s !! flowID0 = Some c ->
    carriers s !! c = Some x -> mu x = false ->
    isConnectionTermination tcpFlags = false ->
    exists h p s1,
      lock ctx serial0 flowID0 tcpFlags seq ack local s = Some (h, p, s1) /\
      (forall ctx' s2 x2,
         carriers s2 !! c = Some x2 -> mu x2 = true ->
         Unlock h ctx' s2 =
         (Returned (false, now s2 - now s),
          set_carriers (<[c := unlocked (now s2) x2]>) s2)) /\
      (forall ctx',
         Unlock h ctx' s1 =
         (Returned (false, 0),
          set_carriers
            (<[c := with_lastUnlockedAt (now s) (with_lastLockedAt (now s) x)]>) s) /\
         is_Some (lock ctx serial0 flowID0 tcpFlags seq ack local
                    (snd (Unlock h ctx' s1)))).
Proof.
  intros ctx serial0 flowID0 tcpFlags seq ack local s c x Hmm Hc Hmu Hterm.
  assert (forall x' s', gate_free ctx tcpFlags x' s' = true) as Hgate
    by (intros; unfold gate_free; by rewrite Hterm).
  destruct (lock_free_carrier ctx serial0 flowID0 tcpFlags seq ack local s c x
              Hmm Hc Hmu (Hgate _ _)) as (h & p & Hlock & Hb).
  destruct Hb as (_ & Hunlock & _).
  exists h, p, (set_carriers (<[c := acquired (now s) x]>) s).
  split; [exact Hlock |].
  assert (forall ctx' s2 x2,
            carriers s2 !! c = Some x2 -> mu x2 = true ->
            Unlock h ctx' s2 =
            (Returned (false, now s2 - now s),
             set_carriers (<[c := unlocked (now s2) x2]>) s2)) as Hlater.
  { intros ctx' s2 x2 Hc2 Hmu2. rewrite Hunlock. unfold UnlockFn.
    by rewrite (run_UnlockWithTCPFlagsFN_plain _ _ _ _ _ _ _ Hterm Hc2 Hmu2). }
  split; [exact Hlater |].
  intros ctx'.
  rewrite (Hlater ctx' _ (acquired (now s) x)); [| lk | done].
  cbn [now set_carriers snd].
  replace (now s - now s) with 0 by lia.
  rewrite (unlocked_acquired _ _ Hmu).
  assert (set_carriers
            (<[c := with_lastUnlockedAt (now s) (with_lastLockedAt (now s) x)]>)
            (set_carriers (<[c := acquired (now s) x]>) s)
          = set_carriers
              (<[c := with_lastUnlockedAt (now s) (with_lastLockedAt (now s) x)]>) s)
    as -> by (unfold set_carriers; cbn; by rewrite insert_insert_eq).
  split; [done |].
  destruct (lock_free_carrier ctx serial0 flowID0 tcpFlags seq ack local
              (set_carriers
                 (<[c := with_lastUnlockedAt (now s) (with_lastLockedAt (now s) x)]>) s)
              c (with_lastUnlockedAt (now s) (with_lastLockedAt (now s) x)))
    as (h' & p' & Hlock' & _); [done | lk | done | apply Hgate |].
  rewrite Hlock'. by eexists.
Qed.

Lemma lock_unlock_round_trip_witness :
  exists h p s1,
    lock 0%nat 2 1 (Z.lor tcpPsh tcpAck) 2000 1500 false fired_state
    = Some (h, p, s1) /\
    fst (Unlock h 0%nat s1) = Returned (false, 0).
Proof.
  destruct (lock_unlock_round_trip 0%nat 2 1 (Z.lor tcpPsh tcpAck) 2000 1500
              false fired_state 0%nat fired_carrier eq_refl eq_refl eq_refl eq_refl)
    as (h & p & s1 & Hlock & _ & Hnow).
  exists h, p, s1. split; [exact Hlock |].
  destruct (Hnow 0%nat) as [-> _]. reflexivity.
Defined.

Lemma run__unlock_free s c x :
  carriers s !! c = Some x -> mu x = false -> fst (_unlock c s) = Fatal.
Proof.
  intros Hc Hmu. unfold _unlock, defer_recover, defer_.
  rewrite (run_bind time_Now _ s (now s) s) by done.
  rewrite (run_updateCarrier _ _ _ _ Hc).
  set (s1 := set_carriers (<[c := with_lastUnlockedAt (now s) x]>) s).
  assert (carriers s1 !! c = Some (with_lastUnlockedAt (now s) x)) as Hc1
    by (subst s1; lk).
  unfold mu_Unlock.
  rewrite (run_bind _ _ _ _ _ (run_loadCarrier _ _ _ Hc1)).
  cbn [mu with_lastUnlockedAt]. by rewrite Hmu.
Qed.

Lemma defer__unlock_free {A} (body : M A) c s x :
  guarantees (frame mutex_kept) body ->
  carriers s !! c = Some x -> mu x = false ->
  fst (defer_ (_unlock c) body s) = Fatal.
Proof.
  intros Hg Hc Hmu. specialize (Hg s).
  destruct Hg as (_ & _ & Hcs). destruct (Hcs c x Hc) as (x1 & Hc1 & Hmu1 & _).
  rewrite Hmu in Hmu1.
  pose proof (run__unlock_free _ _ _ Hc1 Hmu1) as Hf.
  unfold defer_. destruct (body s) as [[a| |] s1]; cbn [snd] in *; [| | done].
  - by destruct (_unlock c s1) as [[[]| |] s2]; cbn in Hf.
  - by destruct (_unlock c s1) as [[[]| |] s2]; cbn in Hf.
Qed.

(** X6: The unlock variants look at the mutex only, not at who locked
    it.  On a carrier whose mutex is not held, [Unlock],
    [UnlockAndRelease], [UnlockWithTCPFlags] with any flags and the
    fallback [UnlockWithTraceAndSpan] end in the runtime's fatal error
    for unlocking an unlocked mutex, which the [recover] of the unlock
    helper cannot catch; so does a second unlock that follows the first
    one at once.  When another [lock] for the flow has taken the mutex in
    between, the second unlock through the stale handle returns, with
    the latency of the stale acquisition, and frees the mutex of the new
    holder. *)
Theorem unlock_of_free_mutex_is_fatal :
  forall flowID0 c ts0 ctx flags s x,
    carriers s !! c = Some x ->
    (mu x = false ->
     fst (UnlockWithTCPFlagsFN flowID0 c ts0 ctx flags s) = Fatal /\
     fst (UnlockAndReleaseFN flowID0 c ts0 ctx s) = Fatal /\
     fst (UnlockFn flowID0 flags c ts0 ctx s) = Fatal /\
     (forall ar h2 rs ps rts pts,
        fst (UnlockWithTraceAndSpanFallback flowID0 c ts0 ar ctx flags
               h2 rs ps rts pts s) = Fatal)) /\
    (mu x = true ->
     forall ctx' flags',
       fst (UnlockWithTCPFlagsFN flowID0 c ts0 ctx' flags'
              (snd (UnlockWithTCPFlagsFN flowID0 c ts0 ctx flags s))) = Fatal) /\
    (mu x = true -> isConnectionTermination flags = false ->
     MutexMap s !! flowID0 = Some c ->
     forall ctx' ctx2 serial2 flags2 seq2 ack2 local2,
       isConnectionTermination flags2 = false ->
       exists h p s2 s3,
         lock ctx2 serial2 flowID0 flags2 seq2 ack2 local2
           (snd (UnlockWithTCPFlagsFN flowID0 c ts0 ctx flags s))
         = Some (h, p, s2) /\
         mutex_free c s2 = false /\
         UnlockWithTCPFlagsFN flowID0 c ts0 ctx' flags s2
         = (Returned (false, now s - ts0), s3) /\
         mutex_free c s3 = true).
Proof.
  intros flowID0 c ts0 ctx flags s x Hc.
  assert (forall ctx1 s1 x1,
            carriers s1 !! c = Some x1 -> mu x1 = false ->
            fst (UnlockAndReleaseFN flowID0 c ts0 ctx1 s1) = Fatal) as Hrel.
  { intros ctx1 s1 x1 Hc1 Hmu1. unfold UnlockAndReleaseFN.
    eapply defer__unlock_free; [| exact Hc1 | exact Hmu1].
    pose proof (g_untrackConnection mutex_kept).
    pose proof (g_schedule_untrack mutex_kept). guar. }
  assert (forall ctx1 flags1 s1 x1,
            carriers s1 !! c = Some x1 -> mu x1 = false ->
            fst (UnlockWithTCPFlagsFN flowID0 c ts0 ctx1 flags1 s1) = Fatal) as Hflags.
  { intros ctx1 flags1 s1 x1 Hc1 Hmu1. unfold UnlockWithTCPFlagsFN.
    destruct (isConnectionTermination flags1); [by eapply Hrel |].
    eapply defer__unlock_free; [| exact Hc1 | exact Hmu1]. guar. }
  split_and!.
  - intros Hmu. split; [by eapply Hflags |]. split; [by eapply Hrel |].
    split; [by eapply Hflags |].
    intros ar h2 rs ps rts pts. unfold UnlockWithTraceAndSpanFallback.
    unfold bind. pose proof (Hflags ctx flags s x Hc Hmu) as Hf.
    by destruct (UnlockWithTCPFlagsFN flowID0 c ts0 ctx flags s) as [[[]| |] s1].
  - intros Hmu ctx' flags'.
    destruct (UnlockWithTCPFlagsFN_releases flowID0 c ts0 ctx flags s x Hc Hmu)
      as (r & s' & x' & -> & Hc' & Hmu' & _).
    by eapply Hflags.
  - intros Hmu Hterm Hmm ctx' ctx2 serial2 flags2 seq2 ack2 local2 Hterm2.
    rewrite (run_UnlockWithTCPFlagsFN_plain _ _ _ _ _ _ _ Hterm Hc Hmu). cbn [snd].
    set (x1 := with_mu false (with_lastUnlockedAt (now s) x)).
    set (s1 := set_carriers (<[c := x1]>) s).
    assert (carriers s1 !! c = Some x1) as Hc1 by (subst s1; lk).
    destruct (lock_free_carrier ctx2 serial2 flowID0 flags2 seq2 ack2 local2 s1 c x1)
      as (h & p & Hlock & _); [done | done | done | |].
    { unfold gate_free. by rewrite Hterm2. }
    set (s2 := set_carriers (<[c := acquired (now s1) x1]>) s1) in *.
    assert (carriers s2 !! c = Some (acquired (now s1) x1)) as Hc2
      by (subst s2; lk).
    exists h, p, s2. eexists. split; [exact Hlock |].
    split; [unfold mutex_free; by rewrite Hc2 |].
    split; [exact (run_UnlockWithTCPFlagsFN_plain flowID0 c ts0 ctx' flags s2 _
                     Hterm Hc2 eq_refl) |].
    unfold mutex_free. cbn [carriers set_carriers]. by rewrite lookup_insert_eq.
Qed.

Lemma unlock_of_free_mutex_is_fatal_witness :
  fst (UnlockFn 1 (Z.lor tcpPsh tcpAck) 0%nat 0 0%nat fired_state) = Fatal /\
  fst (UnlockWithTCPFlagsFN 1 0%nat 0 0%nat (Z.lor tcpPsh tcpAck)
         (snd (UnlockWithTCPFlagsFN 1 0%nat 0 0%nat (Z.lor tcpFin tcpAck)
                 (held_state 0 false)))) = Fatal /\
  exists h p s2 s3,
    lock 1%nat 2 1 (Z.lor tcpPsh tcpAck) 2000 1500 false
      (snd (UnlockWithTCPFlagsFN 1 0%nat 0 0%nat (Z.lor tcpPsh tcpAck)
              (held_state 0 false)))
    = Some (h, p, s2) /\
    mutex_free 0%nat s2 = false /\
    UnlockWithTCPFlagsFN 1 0%nat 0 0%nat (Z.lor tcpPsh tcpAck) s2
    = (Returned (false, now (held_state 0 false) - 0), s3) /\
    mutex_free 0%nat s3 = true.
Proof.
  split_and!.
  - destruct (unlock_of_free_mutex_is_fatal 1 0%nat 0 0%nat (Z.lor tcpPsh tcpAck)
                fired_state fired_carrier eq_refl) as [H _].
    destruct (H eq_refl) as (_ & _ & Hf & _). exact Hf.
  - destruct (unlock_of_free_mutex_is_fatal 1 0%nat 0 0%nat (Z.lor tcpFin tcpAck)
                (held_state 0 false) (held_carrier 0 false) eq_refl) as (_ & H & _).
    apply (H eq_refl).
  - destruct (unlock_of_free_mutex_is_fatal 1 0%nat 0 0%nat (Z.lor tcpPsh tcpAck)
                (held_state 0 false) (held_carrier 0 false) eq_refl) as (_ & _ & H).
    apply (H eq_refl eq_refl eq_refl 0%nat 1%nat 2 (Z.lor tcpPsh tcpAck) 2000 1500
             false eq_refl).
Defined.

(** ** Filing a traced flow in the index *)

Lemma run_STSM_fresh l key (v : list (Z * nat)) s m :
  streamMaps s !! l = Some m -> m !! key = None ->
  STSM_GetOrCompute l key (ret v) s =
  (Returned (v, false), set_streamMaps (<[l := <[key := v]> m]>) s).
Proof.
  intros Hl Hk. unfold STSM_GetOrCompute.
  assert (loadStreamMap l s = (Returned m, s)) as Hload
    by (unfold loadStreamMap; by rewrite Hl).
  rewrite (run_bind _ _ _ _ _ Hload). rewrite Hk.
  unfold bind at 1. cbn [ret].
  by rewrite (run_bind _ _ _ _ _ Hload).
Qed.

Lemma run_STSM_loaded l key valueFn s m (v : list (Z * nat)) :
  streamMaps s !! l = Some m -> m !! key = Some v ->
  STSM_GetOrCompute l key valueFn s = (Returned (v, true), s).
Proof.
  intros Hl Hk. unfold STSM_GetOrCompute.
  assert (loadStreamMap l s = (Returned m, s)) as Hload
    by (unfold loadStreamMap; by rewrite Hl).
  rewrite (run_bind _ _ _ _ _ Hload). by rewrite Hk.
Qed.

Lemma run_provider_fresh isLocal sid seq ack tf l s m :
  streamMaps s !! l = Some m -> m !! sid = None ->
  sequenceToTracedFlowMapProvider isLocal sid seq ack tf l s =
  (Returned [(if isLocal then ack else seq, tf)],
   set_streamMaps (<[l := <[sid := [(if isLocal then ack else seq, tf)]]> m]>) s).
Proof.
  intros Hl Hk. unfold sequenceToTracedFlowMapProvider.
  by rewrite (run_bind _ _ _ _ _ (run_STSM_fresh l sid _ s m Hl Hk)).
Qed.

Lemma run_provider_loaded isLocal sid seq ack tf l s m v :
  streamMaps s !! l = Some m -> m !! sid = Some v ->
  sequenceToTracedFlowMapProvider isLocal sid seq ack tf l s = (Returned v, s).
Proof.
  intros Hl Hk. unfold sequenceToTracedFlowMapProvider.
  by rewrite (run_bind _ _ _ _ _ (run_STSM_loaded l sid _ s m v Hl Hk)).
Qed.

Lemma run_FTSTSM_loaded key valueFn s l :
  flowToStreamToSequenceMap s !! key = Some l ->
  FTSTSM_GetOrCompute key valueFn s = (Returned (l, true), s).
Proof.
  intros Hidx. unfold FTSTSM_GetOrCompute.
  rewrite (run_bind (gets flowToStreamToSequenceMap) _ s
             (flowToStreamToSequenceMap s) s) by done.
  by rewrite Hidx.
Qed.

Lemma run_FTSTSM_fresh key valueFn s l s1 :
  flowToStreamToSequenceMap s !! key = None ->
  valueFn s = (Returned l, s1) ->
  FTSTSM_GetOrCompute key valueFn s
  = (Returned (l, false), set_index (<[key := l]>) s1).
Proof.
  intros Hidx Hv. unfold FTSTSM_GetOrCompute.
  rewrite (run_bind (gets flowToStreamToSequenceMap) _ s
             (flowToStreamToSequenceMap s) s) by done.
  rewrite Hidx. by rewrite (run_bind _ _ _ _ _ Hv).
Qed.

(** The three ways [indexTracedFlow] can go. *)
Lemma run_index_new_flow flowID0 seq ack local ts1 tf s :
  flowToStreamToSequenceMap s !! flowID0 = None ->
  let l := fresh (dom (streamMaps s)) in
  indexTracedFlow flowID0 seq ack local ts1 tf s =
  (Returned tt,
   set_index (<[flowID0 := l]>)
     (set_streamMaps
        (<[l := {[ streamID ts1 := [(if local then ack else seq, tf)] ]}]>) s)).
Proof.
  intros Hidx l. unfold indexTracedFlow.
  set (s0 := set_streamMaps (<[l := ∅]>) s).
  assert (newStreamMap s = (Returned l, s0)) as Hnew by done.
  assert (streamMaps s0 !! l = Some ∅) as Hl0 by (subst s0; lk).
  set (v := [(if local then ack else seq, tf)]).
  assert ((do m <- newStreamMap;
           run sequenceToTracedFlowMapProvider local (streamID ts1) seq ack tf m;
           ret m) s
          = (Returned l, set_streamMaps (<[l := {[ streamID ts1 := v ]}]>) s))
    as Hv.
  { rewrite (run_bind _ _ _ _ _ Hnew).
    rewrite (run_bind _ _ _ _ _
               (run_provider_fresh local (streamID ts1) seq ack tf l s0 ∅ Hl0
                  (lookup_empty _))).
    cbn [ret]. f_equal. subst s0. unfold set_streamMaps. cbn.
    by rewrite insert_insert_eq. }
  by rewrite (run_bind _ _ _ _ _ (run_FTSTSM_fresh flowID0 _ s l _ Hidx Hv)).
Qed.

Lemma run_index_new_stream flowID0 seq ack local ts1 tf s l m :
  flowToStreamToSequenceMap s !! flowID0 = Some l ->
  streamMaps s !! l = Some m -> m !! streamID ts1 = None ->
  indexTracedFlow flowID0 seq ack local ts1 tf s =
  (Returned tt,
   set_streamMaps
     (<[l := <[streamID ts1 := [(if local then ack else seq, tf)]]> m]>) s).
Proof.
  intros Hidx Hl Hk. unfold indexTracedFlow.
  rewrite (run_bind _ _ _ _ _ (run_FTSTSM_loaded flowID0 _ s l Hidx)).
  set (v := [(if local then ack else seq, tf)]).
  set (s1 := set_streamMaps (<[l := <[streamID ts1 := v]> m]>) s).
  assert (STSM_GetOrCompute l (streamID ts1)
            (sequenceToTracedFlowMapProvider local (streamID ts1) seq ack tf l) s
          = (Returned (v, false), s1)) as Hrun.
  { unfold STSM_GetOrCompute.
    assert (loadStreamMap l s = (Returned m, s)) as Hload
      by (unfold loadStreamMap; by rewrite Hl).
    rewrite (run_bind _ _ _ _ _ Hload). rewrite Hk.
    rewrite (run_bind _ _ _ _ _
               (run_provider_fresh local (streamID ts1) seq ack tf l s m Hl Hk)).
    fold v. fold s1.
    assert (loadStreamMap l s1 = (Returned (<[streamID ts1 := v]> m), s1)) as Hload1
      by (unfold loadStreamMap; subst s1; cbn; by rewrite lookup_insert_eq).
    rewrite (run_bind _ _ _ _ _ Hload1).
    unfold bind. cbn [storeStreamMap modify ret].
    f_equal. subst s1. unfold set_streamMaps. cbn.
    by rewrite !insert_insert_eq. }
  by rewrite (run_bind _ _ _ _ _ Hrun).
Qed.

Lemma run_index_tracked_stream flowID0 seq ack local ts1 tf s l m v :
  flowToStreamToSequenceMap s !! flowID0 = Some l ->
  streamMaps s !! l = Some m -> m !! streamID ts1 = Some v ->
  indexTracedFlow flowID0 seq ack local ts1 tf s = (Returned tt, s).
Proof.
  intros Hidx Hl Hk. unfold indexTracedFlow.
  rewrite (run_bind _ _ _ _ _ (run_FTSTSM_loaded flowID0 _ s l Hidx)).
  rewrite (run_bind _ _ _ _ _ (run_STSM_loaded l (streamID ts1) _ s m v Hl Hk)).
  by rewrite (run_bind _ _ _ _ _
                (run_provider_loaded local (streamID ts1) seq ack tf l s m v Hl Hk)).
Qed.

Lemma run_trackConnection lock serial0 flowID0 tcpFlags seq ack local ts1 s s' :
  let t := fresh (dom (tracedFlows s)) in
  let s0 := set_tracedFlows (<[t := tracked_flow lock serial0 flowID0 ts1 s]>) s in
  indexTracedFlow flowID0 seq ack local ts1 t s0 = (Returned tt, s') ->
  trackConnection lock serial0 flowID0 tcpFlags seq ack local (Some ts1) s
  = (Returned (Some t, true), s').
Proof.
  intros t s0 Hidx. unfold trackConnection.
  rewrite (run_bind _ _ s t s0) by done.
  by rewrite (run_bind _ _ _ _ _ Hidx).
Qed.

Lemma lookup_singleton fid seq ack local sid s l m k t :
  flowToStreamToSequenceMap s !! fid = Some l ->
  streamMaps s !! l = Some m -> m !! sid = Some [(k, t)] ->
  lookup fid seq ack local sid s = (Some t, true).
Proof.
  intros Hidx Hl Hk. unfold lookup, getTracedFlow. rewrite Hidx. cbn [fst].
  rewrite Hl, Hk. cbn. by destruct (_ >? k).
Qed.

(** X7: [trackConnection] followed by a lookup: for a stream that has no
    inner map yet (the flow is not indexed, or its stream map has no
    entry for the stream), the call allocates an active traced flow with
    an armed unblocker, files it under the flow and the stream at the key
    [ack] (local) or [seq], and from then on every lookup for that
    stream, whatever its reference number, finds this traced flow, and
    the provider returned by [lock] yields the request's trace and
    span. *)
Theorem track_then_lookup :
  forall lock serial0 flowID0 tcpFlags seq ack local ts1 s,
    stream_untracked flowID0 (streamID ts1) s ->
    let t := fresh (dom (tracedFlows s)) in
    let r := trackConnection lock serial0 flowID0 tcpFlags seq ack local
               (Some ts1) s in
    fst r = Returned (Some t, true) /\
    tracedFlows s !! t = None /\
    tracedFlows (snd r) !! t = Some (tracked_flow lock serial0 flowID0 ts1 s) /\
    stream_tracked flowID0 (streamID ts1) [(if local then ack else seq, t)]
      (snd r) /\
    (forall seq' ack' local',
       lookup flowID0 seq' ack' local' (streamID ts1) (snd r) = (Some t, true) /\
       traceAndSpanProvider (fst (getTracedFlow flowID0 seq' ack' local' (snd r)))
         (streamID ts1) (snd r)
       = (Returned (Some ts1, true), snd r)).
Proof.
  intros lock serial0 flowID0 tcpFlags seq ack local ts1 s Hun t r.
  set (s0 := set_tracedFlows (<[t := tracked_flow lock serial0 flowID0 ts1 s]>) s).
  assert (exists s' l m,
            indexTracedFlow flowID0 seq ack local ts1 t s0 = (Returned tt, s') /\
            tracedFlows s' = tracedFlows s0 /\
            flowToStreamToSequenceMap s' !! flowID0 = Some l /\
            streamMaps s' !! l = Some m /\
            m !! streamID ts1 = Some [(if local then ack else seq, t)])
    as (s' & l & m & Hrun & Htf & Hidx & Hl & Hk).
  { unfold stream_untracked in Hun.
    destruct (flowToStreamToSequenceMap s !! flowID0) as [l|] eqn:Hidx.
    - destruct Hun as (m & Hl & Hk).
      eexists _, l, _. split.
      + by apply (run_index_new_stream flowID0 seq ack local ts1 t s0 l m).
      + split; [done |]. split; [done |]. split; [lk |].
        by rewrite lookup_insert_eq.
    - eexists _, _, _. split.
      + by apply (run_index_new_flow flowID0 seq ack local ts1 t s0).
      + split; [done |]. split; [lk |]. split; [lk |].
        by rewrite lookup_singleton_eq. }
  pose proof (run_trackConnection lock serial0 flowID0 tcpFlags seq ack local
                ts1 s s' Hrun) as Htrack.
  subst r. rewrite Htrack. cbn [fst snd].
  assert (tracedFlows s' !! t = Some (tracked_flow lock serial0 flowID0 ts1 s))
    as Ht by (rewrite Htf; subst s0; lk).
  split; [done |]. split; [apply not_elem_of_dom, is_fresh |].
  split; [exact Ht |]. split; [by exists l, m |].
  intros seq' ack' local'.
  pose proof (lookup_singleton flowID0 seq' ack' local' (streamID ts1) s' l m _ t
                Hidx Hl Hk) as Hlook.
  split; [exact Hlook |].
  unfold traceAndSpanProvider. unfold lookup in Hlook.
  rewrite (run_bind (gets _) _ s' _ s' eq_refl). rewrite Hlook.
  by rewrite (run_bind _ _ _ _ _ (run_loadTracedFlow _ _ _ Ht)).
Qed.

Lemma track_then_lookup_witness :
  lookup 1 2000 1500 false 10
    (snd (trackConnection 0%nat 1 1 24 1000 0 false (Some T1) newFlowMutex))
  = (Some 0%nat, true).
Proof.
  destruct (track_then_lookup 0%nat 1 1 24 1000 0 false T1 newFlowMutex I)
    as (_ & _ & _ & _ & H).
  destruct (H 2000 1500 false) as [Hlook _]. exact Hlook.
Defined.

(** X8: A request on a stream that already has an inner map is not filed:
    [trackConnection] allocates the traced flow and arms its unblocker,
    but the index is left exactly as it was (the inner map is neither
    replaced nor extended), so that every lookup keeps answering as
    before the call. *)
Theorem track_on_tracked_stream :
  forall lock serial0 flowID0 tcpFlags seq ack local ts1 s sttsm,
    stream_tracked flowID0 (streamID ts1) sttsm s ->
    let t := fresh (dom (tracedFlows s)) in
    let r := trackConnection lock serial0 flowID0 tcpFlags seq ack local
               (Some ts1) s in
    fst r = Returned (Some t, true) /\
    snd r = set_tracedFlows (<[t := tracked_flow lock serial0 flowID0 ts1 s]>) s /\
    stream_tracked flowID0 (streamID ts1) sttsm (snd r) /\
    (forall fid seq' ack' local' sid,
       lookup fid seq' ack' local' sid (snd r) = lookup fid seq' ack' local' sid s).
Proof.
  intros lock serial0 flowID0 tcpFlags seq ack local ts1 s sttsm
    (l & m & Hidx & Hl & Hk) t r.
  set (s0 := set_tracedFlows (<[t := tracked_flow lock serial0 flowID0 ts1 s]>) s).
  pose proof (run_index_tracked_stream flowID0 seq ack local ts1 t s0 l m sttsm
                Hidx Hl Hk) as Hrun.
  pose proof (run_trackConnection lock serial0 flowID0 tcpFlags seq ack local
                ts1 s s0 Hrun) as Htrack.
  subst r. rewrite Htrack. cbn [fst snd].
  split; [done |]. split; [done |]. split; [by exists l, m |].
  intros fid seq' ack' local' sid. unfold lookup, getTracedFlow. subst s0.
  cbn [flowToStreamToSequenceMap set_tracedFlows].
  by destruct (flowToStreamToSequenceMap s !! fid).
Qed.

Lemma track_on_tracked_stream_witness :
  lookup 1 5000 0 false 10
    (snd (trackConnection 0%nat 2 1 24 3000 0 false (Some T2) tracked_state))
  = (Some 0%nat, true).
Proof.
  destruct (track_on_tracked_stream 0%nat 2 1 24 3000 0 false T2 tracked_state
              [(1000, 0%nat)]) as (_ & _ & _ & H).
  - exists 0%nat, {[ 10 := [(1000, 0%nat)] ]}. by vm_compute.
  - rewrite H. by vm_compute.
Defined.

(** ** The lookup captured by a handle *)

(** X9: The lookup of a handle is fixed when [lock] returns.  For a flow
    that is not indexed at that time it answers not-found for every
    stream and in every later engine, also once the flow has been
    tracked: the response loop of [unlock_with_trace_and_span] then
    skips every response, changing neither counter, and the provider
    returned by [lock] yields nothing.  For a flow that is indexed the
    lookup reads the flow's stream map as it is when it is asked, so that
    it sees the streams filed since. *)
Theorem lookup_captured_at_lock :
  forall flowID0 seq ack local s0,
    let provider := fst (getTracedFlow flowID0 seq ack local s0) in
    (flowToStreamToSequenceMap s0 !! flowID0 = None ->
     (forall sid s, provider sid s = (None, false)) /\
     (forall sid s,
        traceAndSpanProvider provider sid s = (Returned (None, false), s)) /\
     (forall c responseTS responseStreams acc s,
        no_nil_ts responseTS responseStreams = true ->
        range_streams (handle_response c provider responseTS)
          responseStreams acc s = (Returned acc, s))) /\
    (forall l s,
       flowToStreamToSequenceMap s0 !! flowID0 = Some l ->
       flowToStreamToSequenceMap s !! flowID0 = Some l ->
       forall sid, provider sid s = lookup flowID0 seq ack local sid s).
Proof.
  intros flowID0 seq ack local s0 provider. subst provider. split.
  - intros Hidx. unfold getTracedFlow. rewrite Hidx. cbn [fst].
    split; [done |]. split; [done |].
    intros c responseTS responseStreams. 
    induction responseStreams as [|stream rest IH]; intros acc s Hnil; [done |].
    cbn [no_nil_ts forallb] in Hnil. apply andb_true_iff in Hnil as [Hts Hrest].
    cbn [range_streams].
    assert (handle_response c (fun _ _ => (None, false)) responseTS acc stream s
            = (Returned acc, s)) as Hone.
    { unfold handle_response.
      destruct (responseTS !! stream) as [[ts1|]|]; [| done..].
      by rewrite (run_bind (gets _) _ s (None, false) s eq_refl). }
    rewrite (run_bind _ _ _ _ _ Hone). by apply IH.
  - intros l s Hidx0 Hidx sid. unfold lookup, getTracedFlow.
    by rewrite Hidx0, Hidx.
Qed.

Lemma lookup_captured_at_lock_witness :
  fst (getTracedFlow 1 2000 1500 false newFlowMutex) 10 tracked_state
  = (None, false) /\
  lookup 1 2000 1500 false 10 tracked_state = (Some 0%nat, true).
Proof.
  destruct (lookup_captured_at_lock 1 2000 1500 false newFlowMutex) as [H _].
  destruct (H eq_refl) as (Hp & _). split; [apply Hp | by vm_compute].
Defined.

(** ** Lookups after untracking *)

#[local] Instance index_kept_preorder : PreOrder index_kept.
Proof.
  split.
  - by intros s.
  - intros s1 s2 s3 [? ?] [? ?]. split; congruence.
Qed.

Lemma g_drain_index_kept fuel lock : guarantees index_kept (drain fuel lock).
Proof.
  induction fuel as [|fuel IH]; cbn [drain]; [guar |].
  unfold activeRequests_Load, activeRequests_Add, wg_Done, wg_Add, storeCarrier.
  guar.
Qed.

(** The second half of [untrackConnection] does not touch the index. *)
Lemma g_untrack_tail_index_kept flowID0 lock :
  guarantees index_kept
    (do v <- activeRequests_Load lock;
     run drain (Z.to_nat v) lock;
     modify (set_MutexMap (delete flowID0))).
Proof.
  pose proof g_drain_index_kept. unfold activeRequests_Load. guar.
Qed.

Lemma untrack_stream_map l stream (sttsm : list (Z * nat)) s m :
  streamMaps s !! l = Some m ->
  Forall (fun e => is_Some (tracedFlows s !! snd e)) sttsm ->
  exists s' v,
    untrack_stream l stream sttsm s = (Returned tt, s') /\
    untracking s s' /\
    streamMaps s' = <[l := <[stream := v]> m]> (streamMaps s).
Proof.
  intros Hm Hall. unfold untrack_stream.
  destruct (range_untrack_spec sttsm s Hall) as (s1 & Hrun & Hu & Hd & Hsm).
  rewrite (run_bind _ _ _ _ _ Hrun).
  assert (loadStreamMap l s1 = (Returned m, s1)) as Hload
    by (unfold loadStreamMap; by rewrite Hsm, Hm).
  rewrite (run_bind _ _ _ _ _ Hload).
  eexists _, _. split; [reflexivity |].
  destruct Hu as (Ht & Hr & ? & ? & ? & ? & ? & ?).
  split; [by split_and! |]. cbn. by rewrite Hsm.
Qed.

Lemma foreach_untrack_map l (entries : list (Z * list (Z * nat))) s m :
  streamMaps s !! l = Some m ->
  Forall (fun t => is_Some (tracedFlows s !! t)) (flows_of entries) ->
  exists s' m1,
    forM_ entries (fun e => untrack_stream l (fst e) (snd e)) s
    = (Returned tt, s') /\
    streamMaps s' !! l = Some m1 /\
    (forall k, is_Some (m1 !! k) -> is_Some (m !! k) \/ In k (map fst entries)) /\
    flowToStreamToSequenceMap s' = flowToStreamToSequenceMap s.
Proof.
  revert s m. induction entries as [|[stream sttsm] entries IH]; intros s m Hm Hall.
  - exists s, m. split; [done |]. split; [done |]. split; [by left | done].
  - unfold flows_of in Hall. cbn [map concat snd] in Hall.
    apply Forall_app in Hall as [Hall1 Hall2].
    destruct (untrack_stream_map l stream sttsm s m Hm) as (s1 & v & Hrun1 & Hu1 & Hsm1).
    { exact (proj1 (List.Forall_map snd
                      (fun t => is_Some (tracedFlows s !! t)) sttsm) Hall1). }
    destruct (IH s1 (<[stream := v]> m)) as (s2 & m2 & Hrun2 & Hm2 & Hdom & Hidx2).
    { by rewrite Hsm1, lookup_insert_eq. }
    { eapply Forall_impl; [exact Hall2 |]. intros t Ht.
      by eapply untracking_allocated. }
    exists s2, m2. cbn [forM_ fst snd]. rewrite (run_bind _ _ _ _ _ Hrun1).
    split; [exact Hrun2 |]. split; [exact Hm2 |]. split.
    + intros k Hk. cbn [map fst].
      destruct (Hdom k Hk) as [Hin | Hin]; [| right; by right].
      destruct (decide (stream = k)) as [<- | Hne]; [right; by left |].
      left. by rewrite lookup_insert_ne in Hin.
    + destruct Hu1 as (_ & _ & _ & _ & _ & _ & Hidx1 & _). congruence.
Qed.

Lemma delete_streams_map l (streams : list Z) s m1 :
  streamMaps s !! l = Some m1 ->
  exists s' m2,
    forM_ streams
      (fun stream => do m' <- loadStreamMap l;
                     storeStreamMap l (delete stream m')) s
    = (Returned tt, s') /\
    streamMaps s' !! l = Some m2 /\
    (forall k, In k streams -> m2 !! k = None) /\
    (forall k, m1 !! k = None -> m2 !! k = None) /\
    flowToStreamToSequenceMap s' = flowToStreamToSequenceMap s.
Proof.
  revert s m1. induction streams as [|stream streams IH]; intros s m1 Hm.
  - exists s, m1. by split_and!.
  - cbn [forM_].
    assert (loadStreamMap l s = (Returned m1, s)) as Hload
      by (unfold loadStreamMap; by rewrite Hm).
    unfold bind at 1. rewrite (run_bind _ _ _ _ _ Hload).
    cbn [storeStreamMap modify].
    set (s1 := set_streamMaps (<[l := delete stream m1]>) s).
    destruct (IH s1 (delete stream m1)) as (s2 & m2 & Hrun & Hm2 & Hdel & Hkeep & Hidx);
      [subst s1; lk |].
    exists s2, m2. split; [exact Hrun |]. split; [exact Hm2 |]. split_and!.
    + intros k [<- | Hin]; [| by apply Hdel].
      apply Hkeep. apply lookup_delete_eq.
    + intros k Hk. apply Hkeep.
      destruct (decide (stream = k)) as [<- | Hne]; [apply lookup_delete_eq |].
      by rewrite lookup_delete_ne.
    + by rewrite Hidx.
Qed.

(** The index after the first half of [untrackConnection]. *)
Lemma untrack_index_map flowID0 s l m :
  index_allocated flowID0 s = true ->
  flowToStreamToSequenceMap s !! flowID0 = Some l ->
  streamMaps s !! l = Some m ->
  exists s' m2,
    (do m <- loadStreamMap l;
     let entries := map_to_list m in
     run forM_ entries (fun e => untrack_stream l (fst e) (snd e));
     run forM_ (rev (map fst entries))
           (fun stream =>
              do m' <- loadStreamMap l;
              storeStreamMap l (delete stream m'));
     modify (set_index (delete flowID0))) s = (Returned tt, s') /\
    flowToStreamToSequenceMap s' = delete flowID0 (flowToStreamToSequenceMap s) /\
    streamMaps s' !! l = Some m2 /\ forall k, m2 !! k = None.
Proof.
  intros Halloc Hidx Hm. unfold index_allocated in Halloc.
  rewrite Hidx, Hm in Halloc.
  pose proof (proj1 (forallb_forall _ _) Halloc) as Hforall.
  assert (Forall (fun t => is_Some (tracedFlows s !! t)) (flows_of (map_to_list m)))
    as Hall.
  { apply List.Forall_forall. intros t Hin.
    specialize (Hforall t Hin). by apply bool_decide_eq_true in Hforall. }
  assert (loadStreamMap l s = (Returned m, s)) as Hload
    by (unfold loadStreamMap; by rewrite Hm).
  rewrite (run_bind _ _ _ _ _ Hload). cbv zeta.
  destruct (foreach_untrack_map l (map_to_list m) s m Hm Hall)
    as (s1 & m1 & Hrun1 & Hm1 & Hdom & Hidx1).
  rewrite (run_bind _ _ _ _ _ Hrun1).
  destruct (delete_streams_map l (rev (map fst (map_to_list m))) s1 m1 Hm1)
    as (s2 & m2 & Hrun2 & Hm2 & Hdel & Hkeep & Hidx2).
  rewrite (run_bind _ _ _ _ _ Hrun2).
  exists (set_index (delete flowID0) s2), m2. split; [done |].
  split; [cbn; congruence |]. split; [exact Hm2 |].
  assert (forall k, In k (map fst (map_to_list m)) -> is_Some (m !! k)) as Hkeys.
  { intros k Hin. apply in_map_iff in Hin as ([k' v] & <- & Hin).
    apply list_elem_of_In, elem_of_map_to_list in Hin. by exists v. }
  assert (forall k, is_Some (m !! k) -> m2 !! k = None) as Hgone.
  { intros k [v Hk]. apply Hdel. apply in_rev. rewrite rev_involutive.
    apply in_map_iff. exists (k, v). split; [done |].
    apply list_elem_of_In. by apply elem_of_map_to_list. }
  intros k. destruct (m1 !! k) as [v1|] eqn:Hk1; [| by apply Hkeep].
  destruct (Hdom k) as [Hin | Hin]; [by exists v1 | by apply Hgone |].
  apply Hgone. by apply Hkeys.
Qed.

(** The index once [untrackConnection] has run: the flow is gone, and
    the stream map it pointed to is empty. *)
Lemma untrack_index_gone flowID0 lock s :
  index_allocated flowID0 s = true ->
  let s' := snd (untrackConnection flowID0 lock s) in
  flowToStreamToSequenceMap s' = delete flowID0 (flowToStreamToSequenceMap s) /\
  forall l, flowToStreamToSequenceMap s !! flowID0 = Some l ->
            exists m2, streamMaps s' !! l = Some m2 /\ forall k, m2 !! k = None.
Proof.
  intros Halloc s'.
  assert (exists s1,
            index_kept s1 s' /\
            flowToStreamToSequenceMap s1
            = delete flowID0 (flowToStreamToSequenceMap s) /\
            forall l, flowToStreamToSequenceMap s !! flowID0 = Some l ->
                      exists m2, streamMaps s1 !! l = Some m2 /\
                                 forall k, m2 !! k = None)
    as (s1 & [Hidx' Hsm'] & Hnone & Hempty).
  { subst s'. unfold untrackConnection, defer_recover.
    rewrite (run_bind (gets flowToStreamToSequenceMap) _ s
               (flowToStreamToSequenceMap s) s) by done.
    destruct (flowToStreamToSequenceMap s !! flowID0) as [l|] eqn:Hidx.
    - pose proof Halloc as Halloc'. unfold index_allocated in Halloc'.
      rewrite Hidx in Halloc'.
      destruct (streamMaps s !! l) as [m|] eqn:Hm; [| done].
      destruct (untrack_index_map flowID0 s l m Halloc Hidx Hm)
        as (s1 & m2 & Hrun & Hidx1 & Hm2 & Hemp).
      rewrite (run_bind _ _ _ _ _ Hrun).
      exists s1. split.
      + pose proof (g_untrack_tail_index_kept flowID0 lock s1) as Hg.
        match goal with |- index_kept _ (snd (match ?b with _ => _ end)) =>
          destruct b as [[[]| |] s2] end; exact Hg.
      + split; [exact Hidx1 |].
        intros l' [= <-]. by exists m2.
    - rewrite (run_bind (ret tt) _ s tt s eq_refl).
      exists s. split.
      + pose proof (g_untrack_tail_index_kept flowID0 lock s) as Hg.
        match goal with |- index_kept _ (snd (match ?b with _ => _ end)) =>
          destruct b as [[[]| |] s2] end; exact Hg.
      + split; [symmetry; by apply delete_id |]. intros l' [=]. }
  split; [by rewrite Hidx' |].
  intros l Hl. rewrite Hsm'. by apply Hempty.
Qed.

Lemma lookup_emptied fid seq ack local s0 sid s' :
  (forall l, flowToStreamToSequenceMap s0 !! fid = Some l ->
             exists m2, streamMaps s' !! l = Some m2 /\ forall k, m2 !! k = None) ->
  fst (getTracedFlow fid seq ack local s0) sid s' = (None, false) /\
  traceAndSpanProvider (fst (getTracedFlow fid seq ack local s0)) sid s'
  = (Returned (None, false), s').
Proof.
  intros Hempty.
  assert (fst (getTracedFlow fid seq ack local s0) sid s' = (None, false)) as Hp.
  { unfold getTracedFlow.
    destruct (flowToStreamToSequenceMap s0 !! fid) as [l|] eqn:Hidx; [| done].
    cbn [fst]. destruct (Hempty l eq_refl) as (m2 & -> & Hemp). by rewrite Hemp. }
  split; [exact Hp |].
  unfold traceAndSpanProvider.
  rewrite (run_bind (gets _) _ s' _ s' eq_refl). by rewrite Hp.
Qed.

(** X10: Once [untrackConnection] has run, no lookup for the flow finds
    anything: neither a lookup built afterwards, nor the lookup of a
    handle obtained while the flow was still indexed (its stream map has
    been emptied), and the providers returned by [lock] yield nothing. *)
Theorem untrack_invalidates_lookups :
  forall flowID0 lock s,
    index_allocated flowID0 s = true ->
    let s' := snd (untrackConnection flowID0 lock s) in
    flowToStreamToSequenceMap s' !! flowID0 = None /\
    (forall seq ack local sid,
       lookup flowID0 seq ack local sid s' = (None, false)) /\
    (forall seq ack local s0 sid,
       flowToStreamToSequenceMap s0 !! flowID0
       = flowToStreamToSequenceMap s !! flowID0 ->
       fst (getTracedFlow flowID0 seq ack local s0) sid s' = (None, false) /\
       traceAndSpanProvider (fst (getTracedFlow flowID0 seq ack local s0)) sid s'
       = (Returned (None, false), s')).
Proof.
  intros flowID0 lock s Halloc s'.
  destruct (untrack_index_gone flowID0 lock s Halloc) as [Hidx Hempty].
  fold s' in Hidx, Hempty.
  assert (flowToStreamToSequenceMap s' !! flowID0 = None) as Hnone
    by (rewrite Hidx; apply lookup_delete_eq).
  split; [exact Hnone |]. split.
  - intros seq ack local sid. unfold lookup, getTracedFlow. by rewrite Hnone.
  - intros seq ack local s0 sid Hsame. apply lookup_emptied.
    intros l Hl. apply Hempty. by rewrite <- Hsame.
Qed.

Lemma untrack_invalidates_lookups_witness :
  lookup 1 2000 1500 false 10 tracked_state = (Some 0%nat, true) /\
  fst (getTracedFlow 1 2000 1500 false tracked_state) 10
    (snd (untrackConnection 1 0%nat tracked_state)) = (None, false).
Proof.
  split; [by vm_compute |].
  destruct (untrack_invalidates_lookups 1 0%nat tracked_state
              ltac:(vm_compute; reflexivity)) as (_ & _ & H).
  destruct (H 2000 1500 false tracked_state 10 eq_refl) as [Hp _]. exact Hp.
Defined.

(** ** The reaper *)

#[local] Instance counters_only_preorder : PreOrder counters_only.
Proof.
  split.
  - intros x. by repeat split.
  - intros x1 x2 x3 (? & ? & ? & ? & ? & ? & ? & ?) (? & ? & ? & ? & ? & ? & ? & ?).
    repeat split; congruence.
Qed.
#[local] Instance counters_only_wg v : StableUnder counters_only (with_wg v).
Proof. intros x. by repeat split. Qed.
#[local] Instance counters_only_activeRequests v :
  StableUnder counters_only (with_activeRequests v).
Proof. intros x. by repeat split. Qed.

#[local] Instance mutexmap_but_preorder fid : PreOrder (mutexmap_but fid).
Proof.
  split.
  - by intros s.
  - intros s1 s2 s3 H1 H2. unfold mutexmap_but in *. congruence.
Qed.

Lemma g_drain_mutexmap_but fid fuel lock :
  guarantees (mutexmap_but fid) (drain fuel lock).
Proof.
  induction fuel as [|fuel IH]; cbn [drain]; [guar |].
  unfold activeRequests_Load, activeRequests_Add, wg_Done, wg_Add, storeCarrier.
  guar.
Qed.

(** [untrackConnection] removes at most the flow from the carrier map. *)
Lemma g_untrackConnection_mutexmap_but flowID0 lock :
  guarantees (mutexmap_but flowID0) (untrackConnection flowID0 lock).
Proof.
  pose proof (g_drain_mutexmap_but flowID0).
  assert (guarantees (mutexmap_but flowID0)
            (modify (set_MutexMap (delete flowID0)))) as Hdel.
  { intros s. unfold mutexmap_but. cbn. by rewrite delete_delete_eq. }
  unfold untrackConnection, untrack_stream, untrack_flow,
    isActive_CompareAndSwap, unblocker_Stop, activeRequests_Load.
  guar.
Qed.

Lemma run_mu_TryLock s c x :
  carriers s !! c = Some x ->
  mu_TryLock c s =
  if mu x then (Returned false, s)
  else (Returned true, set_carriers (<[c := with_mu true x]>) s).
Proof.
  intros Hc. unfold mu_TryLock.
  rewrite (run_bind _ _ _ _ _ (run_loadCarrier _ _ _ Hc)). by destruct (mu x).
Qed.

Lemma set_carriers_id s c x :
  carriers s !! c = Some x -> set_carriers (<[c := x]>) s = s.
Proof.
  intros Hc. destruct s. unfold set_carriers. cbn in *. f_equal.
  by apply insert_id.
Qed.

(** What the reaper does to one entry of the carrier map. *)
Lemma run_reap flowID0 c s x :
  carriers s !! c = Some x ->
  if reapable x s then
    exists s2 x2,
      untrackConnection flowID0 c (set_carriers (<[c := with_mu true x]>) s)
      = (Returned tt, s2) /\
      carriers s2 !! c = Some x2 /\ mu x2 = true /\
      reap flowID0 c s =
      (Returned tt,
       set_carriers (<[c := with_mu false x2]>)
         (set_MutexMap (delete flowID0) s2))
  else reap flowID0 c s = (Returned tt, s).
Proof.
  intros Hc.
  assert (forall t, lastUnlockedAt x = Some t -> mu x = false ->
            reap flowID0 c s =
            defer_ (mu_Unlock c)
              (if now s - t >=? carrierDeadline
               then run untrackConnection flowID0 c;
                    modify (set_MutexMap (delete flowID0))
               else ret tt)
              (set_carriers (<[c := with_mu true x]>) s)) as Hfree.
  { intros t Hlast Hmu. unfold reap.
    rewrite (run_bind _ _ _ _ _ (run_loadCarrier _ _ _ Hc)). rewrite Hlast.
    unfold bind at 1. rewrite (run_mu_TryLock _ _ _ Hc), Hmu.
    set (s1 := set_carriers (<[c := with_mu true x]>) s).
    assert (carriers s1 !! c = Some (with_mu true x)) as Hc1 by (subst s1; lk).
    unfold defer_.
    rewrite (run_bind _ _ _ _ _ (run_loadCarrier _ _ _ Hc1)).
    rewrite (run_bind time_Now _ s1 (now s1) s1) by done.
    cbn [lastUnlockedAt with_mu]. by rewrite Hlast. }
  set (s1 := set_carriers (<[c := with_mu true x]>) s) in *.
  assert (carriers s1 !! c = Some (with_mu true x)) as Hc1 by (subst s1; lk).
  unfold reapable.
  destruct (lastUnlockedAt x) as [t|] eqn:Hlast.
  - destruct (mu x) eqn:Hmu; cbn [negb andb].
    + unfold reap.
      rewrite (run_bind _ _ _ _ _ (run_loadCarrier _ _ _ Hc)). rewrite Hlast.
      unfold bind at 1. by rewrite (run_mu_TryLock _ _ _ Hc), Hmu.
    + rewrite (Hfree t eq_refl eq_refl). unfold defer_.
      destruct (now s - t >=? carrierDeadline).
      * destruct (untrackConnection_returns flowID0 c s1) as [s2 Hu].
        pose proof (g_untrackConnection mutex_kept flowID0 c s1) as Hf.
        rewrite Hu in Hf. cbn [snd] in Hf. destruct Hf as (_ & _ & Hcs).
        destruct (Hcs c _ Hc1) as (x2 & Hc2 & Hmu2 & _). cbn [mu with_mu] in Hmu2.
        exists s2, x2. split; [exact Hu |]. split; [exact Hc2 |].
        split; [exact Hmu2 |].
        rewrite (run_bind _ _ _ _ _ Hu). cbn [modify].
        by rewrite (run_mu_Unlock (set_MutexMap (delete flowID0) s2) c x2 Hc2 Hmu2).
      * cbn [ret]. rewrite (run_mu_Unlock s1 c (with_mu true x) Hc1 eq_refl).
        f_equal. subst s1. unfold set_carriers at 1. cbn.
        rewrite insert_insert_eq.
        replace (with_mu false (with_mu true x)) with x
          by (destruct x; cbn in *; by subst).
        by apply set_carriers_id.
  - unfold reap.
    rewrite (run_bind _ _ _ _ _ (run_loadCarrier _ _ _ Hc)). by rewrite Hlast.
Qed.

(** A tick of the reaper on an engine in which no registered carrier is
    due changes nothing. *)
Lemma reaper_tick_idle s :
  (forall f c, MutexMap s !! f = Some c ->
               exists x, carriers s !! c = Some x /\ reapable x s = false) ->
  reaper_tick s = (Returned tt, s).
Proof.
  intros Hall. unfold reaper_tick.
  rewrite (run_bind (gets MutexMap) _ s (MutexMap s) s) by done.
  assert (forall e, In e (map_to_list (MutexMap s)) ->
                    reap (fst e) (snd e) s = (Returned tt, s)) as Hent.
  { intros [f c] Hin. apply list_elem_of_In, elem_of_map_to_list in Hin.
    destruct (Hall f c Hin) as (x & Hc & Hno).
    pose proof (run_reap f c s x Hc) as Hrun. by rewrite Hno in Hrun. }
  induction (map_to_list (MutexMap s)) as [|e l IH]; [done |].
  cbn [forM_]. rewrite (run_bind _ _ _ _ _ (Hent e ltac:(by left))).
  apply IH. intros e' Hin. apply Hent. by right.
Qed.

(** X11: The reaper spares, and leaves the whole engine untouched for, a
    carrier that has never been unlocked, one whose mutex is held, and
    one whose last unlock is less than [carrierDeadline] old; a tick on
    an engine all of whose registered carriers are of these kinds changes
    nothing. *)
Theorem reap_spares :
  forall s,
    (forall flowID0 c x,
       carriers s !! c = Some x ->
       (lastUnlockedAt x = None \/ mu x = true \/
        exists t, lastUnlockedAt x = Some t /\ now s - t < carrierDeadline) ->
       reap flowID0 c s = (Returned tt, s)) /\
    ((forall f c, MutexMap s !! f = Some c ->
                  exists x, carriers s !! c = Some x /\ reapable x s = false) ->
     reaper_tick s = (Returned tt, s)).
Proof.
  intros s. split; [| apply reaper_tick_idle].
  intros flowID0 c x Hc Hspare.
  pose proof (run_reap flowID0 c s x Hc) as Hrun.
  assert (reapable x s = false) as Hno.
  { unfold reapable. destruct Hspare as [-> | [Hmu | (t & -> & Hlt)]]; [done | |].
    - destruct (lastUnlockedAt x); [| done]. by rewrite Hmu.
    - destruct (Z.geb_spec (now s - t) carrierDeadline); [lia |].
      apply andb_false_r. }
  by rewrite Hno in Hrun.
Qed.

Lemma reap_spares_witness :
  reap 1 0%nat (held_state 0 false) = (Returned tt, held_state 0 false) /\
  reap 1 0%nat (idle_state 5) = (Returned tt, idle_state 5).
Proof.
  split.
  - destruct (reap_spares (held_state 0 false)) as [H _].
    apply (H 1 0%nat (held_carrier 0 false) eq_refl). by left.
  - destruct (reap_spares (idle_state 5)) as [H _].
    apply (H 1 0%nat fired_carrier eq_refl).
    right. right. exists 0. split; [reflexivity | by vm_compute].
Defined.

(** X12: A carrier that has been unlocked, whose mutex is free and whose last
    unlock is at least [carrierDeadline] old is reaped: whatever the
    state of the index (a panic of [untrackConnection] is recovered), the
    callback returns, the flow is removed from the carrier map and no
    other flow is, the carrier differs from what it was at most in its
    two counters (so the mutex taken by [TryLock] is free again), and no
    carrier is freed or has [released] reset; when the pointers of the
    flow's index entry are allocated, the flow is gone from the index
    too. *)
Theorem reap_removes_idle :
  forall flowID0 c s x t,
    carriers s !! c = Some x ->
    mu x = false -> lastUnlockedAt x = Some t ->
    carrierDeadline <= now s - t ->
    exists s' x',
      reap flowID0 c s = (Returned tt, s') /\
      MutexMap s' = delete flowID0 (MutexMap s) /\
      carriers s' !! c = Some x' /\ counters_only x x' /\
      frame released_kept s s' /\
      (index_allocated flowID0 s = true ->
       flowToStreamToSequenceMap s'
       = delete flowID0 (flowToStreamToSequenceMap s)).
Proof.
  intros flowID0 c s x t Hc Hmu Hlast Hidle.
  pose proof (run_reap flowID0 c s x Hc) as Hrun.
  assert (reapable x s = true) as Hyes.
  { unfold reapable. rewrite Hlast, Hmu.
    destruct (Z.geb_spec (now s - t) carrierDeadline); [done | lia]. }
  rewrite Hyes in Hrun. destruct Hrun as (s2 & x2 & Hu & Hc2 & Hmu2 & Hreap).
  set (s1 := set_carriers (<[c := with_mu true x]>) s) in *.
  eexists _, (with_mu false x2). split; [exact Hreap |].
  split.
  { pose proof (g_untrackConnection_mutexmap_but flowID0 c s1) as Hg.
    rewrite Hu in Hg. unfold mutexmap_but in Hg. cbn in Hg. cbn.
    by rewrite Hg. }
  split; [lk |].
  split.
  { pose proof (g_untrackConnection counters_only flowID0 c s1) as Hg.
    rewrite Hu in Hg. cbn [snd] in Hg. destruct Hg as (_ & _ & Hcs).
    destruct (Hcs c (with_mu true x) ltac:(subst s1; lk)) as (x2' & Hc2' & Hco).
    replace x2' with x2 in Hco by congruence.
    destruct Hco as (? & ? & ? & ? & ? & ? & ? & ?). cbn in *.
    by repeat split. }
  split.
  { pose proof (g_reap released_kept flowID0 c s) as Hg.
    by rewrite Hreap in Hg. }
  intros Halloc.
  destruct (untrack_index_gone flowID0 c s1) as [Hidx _]; [exact Halloc |].
  rewrite Hu in Hidx. exact Hidx.
Qed.

Lemma reap_removes_idle_witness :
  exists s',
    reap 1 0%nat (idle_state carrierDeadline) = (Returned tt, s') /\
    MutexMap s' = delete 1 (MutexMap (idle_state carrierDeadline)).
Proof.
  destruct (reap_removes_idle 1 0%nat (idle_state carrierDeadline) fired_carrier 0
              eq_refl eq_refl eq_refl ltac:(by vm_compute))
    as (s' & x' & Hrun & Hmm & _).
  by exists s'.
Defined.

(** ** Release on a cancelled context *)

#[local] Instance timers_kept_preorder : PreOrder timers_kept.
Proof.
  split.
  - by intros s.
  - intros s1 s2 s3 H1 H2. unfold timers_kept in *. congruence.
Qed.

Lemma g_drain_timers_kept fuel lock : guarantees timers_kept (drain fuel lock).
Proof.
  induction fuel as [|fuel IH]; cbn [drain]; [guar |].
  unfold activeRequests_Load, activeRequests_Add, wg_Done, wg_Add, storeCarrier.
  guar.
Qed.

Lemma g_untrackConnection_timers_kept flowID0 lock :
  guarantees timers_kept (untrackConnection flowID0 lock).
Proof.
  pose proof g_drain_timers_kept.
  unfold untrackConnection, untrack_stream, untrack_flow,
    isActive_CompareAndSwap, unblocker_Stop, activeRequests_Load.
  guar.
Qed.

Lemma index_allocated_carriers flowID0 f s :
  index_allocated flowID0 (set_carriers f s) = index_allocated flowID0 s.
Proof. reflexivity. Qed.

(** [untrackConnection] on a flow whose index entry has no dangling
    pointer and whose carrier holds no request: the carrier is left
    alone. *)
Lemma run_untrackConnection_idle flowID0 lock s x :
  carriers s !! lock = Some x -> activeRequests x <= 0 ->
  index_allocated flowID0 s = true ->
  exists s',
    untrackConnection flowID0 lock s = (Returned tt, s') /\
    carriers s' = carriers s /\
    MutexMap s' = delete flowID0 (MutexMap s).
Proof.
  intros Hc Hle Halloc.
  destruct (untrack_index_spec flowID0 s Halloc)
    as (s1 & Hrun1 & Hcs1 & Hmm1 & Hidx1 & _).
  assert (carriers s1 !! lock = Some x) as Hc1 by (by rewrite Hcs1).
  unfold untrackConnection, defer_recover.
  rewrite (run_bind (gets flowToStreamToSequenceMap) _ s
             (flowToStreamToSequenceMap s) s) by done.
  rewrite (run_bind _ _ _ _ _ Hrun1).
  rewrite (run_bind _ _ _ _ _ (run_activeRequests_Load _ _ _ Hc1)).
  replace (Z.to_nat (activeRequests x)) with O by lia.
  cbn [drain]. rewrite (run_bind (ret tt) _ s1 tt s1 eq_refl). cbn [modify].
  eexists. split; [reflexivity |]. cbn. by rewrite Hcs1, Hmm1.
Qed.

Lemma run_release_cancelled :
  forall flowID0 c ts0 ctx s x,
    carriers s !! c = Some x -> mu x = true ->
    activeRequests x = 0 -> released x = false ->
    ctx ∈ cancelled s ->
    index_allocated flowID0 s = true ->
    exists s',
      UnlockAndReleaseFN flowID0 c ts0 ctx s = (Returned (true, now s - ts0), s') /\
      MutexMap s' = delete flowID0 (MutexMap s) /\
      flowToStreamToSequenceMap s' = delete flowID0 (flowToStreamToSequenceMap s) /\
      carriers s' = <[c := unlocked (now s) (with_released true x)]> (carriers s) /\
      untrackTimers s' = untrackTimers s.
Proof.
  intros flowID0 c ts0 ctx s x Hc Hmu Har Hrel Hdone Halloc.
  destruct (UnlockAndReleaseFN_spec flowID0 c ts0 ctx s x Hc Hmu)
    as (s' & x' & Hrun & _ & _ & _ & _ & _ & _ & Hnow).
  rewrite Har, Hrel in Hrun, Hnow. cbn in Hrun.
  destruct (Hnow eq_refl Hdone) as (s2 & x2 & Hu & Hc2 & ->).
  set (s0 := set_carriers (<[c := with_released true x]>) s) in *.
  assert (carriers s0 !! c = Some (with_released true x)) as Hc0
    by (subst s0; lk).
  destruct (run_untrackConnection_idle flowID0 c s0 _ Hc0) as (s2' & Hu' & Hcs & Hmm);
    [cbn; lia | exact Halloc |].
  replace s2' with s2 in * by congruence.
  assert (x2 = with_released true x) as -> by (rewrite Hcs, Hc0 in Hc2; congruence).
  eexists. split; [exact Hrun |].
  split; [cbn; by rewrite Hmm |].
  split.
  { destruct (untrack_index_gone flowID0 c s0 Halloc) as [Hidx _].
    rewrite Hu in Hidx. exact Hidx. }
  split.
  { cbn. rewrite Hcs. subst s0. cbn. by rewrite insert_insert_eq. }
  pose proof (g_untrackConnection_timers_kept flowID0 c s0) as Hg.
  rewrite Hu in Hg. exact Hg.
Qed.

(** X13: [UnlockAndRelease] on a cancelled context: the winner does not arm a
    timer but untracks at once.  When the flow's index entry has no
    dangling pointer, the call returns [true], the flow is gone from the
    carrier map and from the index when the call returns, no timer has
    been scheduled, and the carrier has only been marked released,
    stamped and unlocked. *)
Theorem release_on_cancelled_context :
  forall flowID0 c ts0 ctx s x,
    carriers s !! c = Some x -> mu x = true ->
    activeRequests x = 0 -> released x = false ->
    ctx ∈ cancelled s ->
    index_allocated flowID0 s = true ->
    exists s',
      UnlockAndReleaseFN flowID0 c ts0 ctx s = (Returned (true, now s - ts0), s') /\
      MutexMap s' = delete flowID0 (MutexMap s) /\
      flowToStreamToSequenceMap s' = delete flowID0 (flowToStreamToSequenceMap s) /\
      carriers s' = <[c := unlocked (now s) (with_released true x)]> (carriers s) /\
      untrackTimers s' = untrackTimers s.
Proof. exact run_release_cancelled. Qed.

Lemma release_on_cancelled_context_witness :
  exists s',
    UnlockAndReleaseFN 1 0%nat 0 0%nat
      (set_cancelled (fun cs => {[ 0%nat ]} ∪ cs) (held_state 0 false))
    = (Returned (true, 0), s') /\
    untrackTimers s' = [].
Proof.
  destruct (release_on_cancelled_context 1 0%nat 0 0%nat
              (set_cancelled (fun cs => {[ 0%nat ]} ∪ cs) (held_state 0 false))
              (held_carrier 0 false) eq_refl eq_refl eq_refl eq_refl
              ltac:(cbn; set_solver) eq_refl)
    as (s' & Hrun & _ & _ & _ & Htimers).
  by exists s'.
Defined.

(** ** The two counters stay coupled *)

Lemma coupled_with_room_weaken c a b a' b' s :
  (a' <= a)%nat -> (b' <= b)%nat ->
  coupled_with_room c a b s -> coupled_with_room c a' b' s.
Proof.
  intros Ha Hb (x & Hc & Hco & Hw & Hr). exists x. split_and!; [done | done | lia..].
Qed.

Lemma coupled_with_room_carriers c a b s s' :
  carriers s' = carriers s ->
  coupled_with_room c a b s -> coupled_with_room c a b s'.
Proof. intros Heq (x & Hc & H). exists x. by rewrite Heq. Qed.

Ltac pow_consts :=
  change (2 ^ 31) with 2147483648 in *;
  change (2 ^ 63) with 9223372036854775808 in *.

(** One iteration of the request loop, however it ends. *)
Lemma handle_request_coupled serial0 flowID0 seq ack local c flags
    (requestTS : gmap Z (option traceAndSpan)) acc stream a b s :
  coupled_with_room c (S a) b s ->
  coupled_with_room c a b
    (snd (handle_request serial0 flowID0 seq ack local c flags requestTS acc stream s)).
Proof.
  intros HJ.
  assert (coupled_with_room c a b s) as HJ0
    by (eapply coupled_with_room_weaken; [| | exact HJ]; lia).
  destruct (requestTS !! stream) as [[ts1|]|] eqn:Hts.
  - destruct (trackConnection_spec c serial0 flowID0 flags seq ack local ts1 s)
      as (Hres & _ & _ & Hcs & _).
    destruct (trackConnection c serial0 flowID0 flags seq ack local (Some ts1) s)
      as [o s1] eqn:Hrun.
    cbn [fst snd] in Hres, Hcs.
    destruct Hres as [-> | ->].
    + destruct HJ as (x & Hc & (Hlo & Hle & Hwg0 & Hwg1) & Hroom & Hunder).
      destruct (handle_request_run serial0 flowID0 seq ack local c flags requestTS
                  acc stream s x ts1 s1 Hc Hts Hrun) as [_ Hr].
      cbv zeta in Hr. rewrite Hr. clear Hr. pow_consts.
      rewrite (wrap64_small (activeRequests x + 1))
        by (change (2 ^ 63) with 9223372036854775808; lia).
      destruct (Z.gtb_spec (activeRequests x + 1) 0) as [Hpos | Hneg].
      * rewrite (wrap32_small (wg x + 1))
          by (change (2 ^ 31) with 2147483648; lia).
        eexists. split; [lk |]. unfold coupled. cbn. pow_consts. lia.
      * eexists. split; [lk |]. unfold coupled. cbn. pow_consts. lia.
    + unfold handle_request. rewrite Hts.
      rewrite (run_bind_panicked _ _ _ _ Hrun). cbn [snd].
      by eapply coupled_with_room_carriers.
  - unfold handle_request. rewrite Hts. exact HJ0.
  - unfold handle_request. rewrite Hts. exact HJ0.
Qed.

(** One iteration of the response loop, however it ends. *)
Lemma handle_response_coupled c (provider : TracedFlowProvider)
    (responseTS : gmap Z (option traceAndSpan)) acc stream a b s :
  coupled_with_room c a (S b) s ->
  coupled_with_room c a b (snd (handle_response c provider responseTS acc stream s)).
Proof.
  intros HJ.
  assert (coupled_with_room c a b s) as HJ0
    by (eapply coupled_with_room_weaken; [| | exact HJ]; lia).
  destruct (responseTS !! stream) as [[ts1|]|] eqn:Hts;
    [| unfold handle_response; by rewrite Hts..].
  destruct (provider (streamID ts1) s) as [tf found] eqn:Hfound.
  destruct found.
  - destruct HJ as (x & Hc & (Hlo & Hle & Hwg0 & Hwg1) & Hroom & Hunder).
    set (v := wrap64 (activeRequests x + -1)).
    set (s1 := set_carriers (<[c := with_activeRequests v x]>) s).
    assert (v = activeRequests x - 1) as Hv.
    { subst v. pow_consts.
      rewrite wrap64_small by (change (2 ^ 63) with 9223372036854775808; lia).
      lia. }
    assert (coupled_with_room c a b s1) as HJ1.
    { exists (with_activeRequests v x). split; [subst s1; lk |].
      unfold coupled. cbn. rewrite Hv. pow_consts. lia. }
    destruct tf as [t|].
    + destruct (tracedFlows s !! t) as [y|] eqn:Ht.
      * rewrite (handle_response_run c provider responseTS acc stream s x ts1 t y
                   Hc Hts Hfound Ht).
        fold v. fold s1.
        destruct ((v >=? 0) && String.eqb (traceID (ts y)) (traceID ts1) && isActive y)
          eqn:Hm; [| exact HJ1].
        destruct (armed y).
        -- apply andb_true_iff in Hm as [Hm _]. apply andb_true_iff in Hm as [Hge _].
           apply Z.geb_le in Hge. cbn [snd]. pow_consts.
           rewrite (wrap32_small (wg x + -1))
             by (change (2 ^ 31) with 2147483648; lia).
           eexists. split; [lk |]. unfold coupled. cbn. rewrite Hv. pow_consts. lia.
        -- cbn [snd]. eapply coupled_with_room_carriers; [| exact HJ1]. done.
      * unfold handle_response. rewrite Hts.
        rewrite (run_bind (gets (provider (streamID ts1))) _ s (Some t, true) s)
          by (unfold gets; by rewrite Hfound).
        cbn beta iota.
        rewrite (run_bind _ _ _ _ _ (run_activeRequests_Add _ _ _ (-1) Hc)).
        fold v. fold s1.
        destruct (v >=? 0); [| exact HJ1].
        unfold bind at 1. unfold bind at 1. unfold loadTracedFlow.
        replace (tracedFlows s1 !! t) with (@None TracedFlow) by (by rewrite <- Ht).
        exact HJ1.
    + unfold handle_response. rewrite Hts.
      rewrite (run_bind (gets (provider (streamID ts1))) _ s (None, true) s)
        by (unfold gets; by rewrite Hfound).
      cbn beta iota.
      rewrite (run_bind _ _ _ _ _ (run_activeRequests_Add _ _ _ (-1) Hc)).
      fold v. fold s1.
      destruct (v >=? 0); exact HJ1.
  - unfold handle_response. rewrite Hts.
    rewrite (run_bind (gets (provider (streamID ts1))) _ s (tf, false) s)
      by (unfold gets; by rewrite Hfound).
    exact HJ0.
Qed.

Lemma request_loop_coupled serial0 flowID0 seq ack local c flags
    (requestTS : gmap Z (option traceAndSpan)) streams acc b s :
  coupled_with_room c (length streams) b s ->
  coupled_with_room c 0 b
    (snd (range_streams (handle_request serial0 flowID0 seq ack local c flags requestTS)
            streams acc s)).
Proof.
  revert acc s. induction streams as [|stream rest IH]; intros acc s HJ; [exact HJ |].
  cbn [range_streams length] in *.
  pose proof (handle_request_coupled serial0 flowID0 seq ack local c flags
                requestTS acc stream (length rest) b s HJ) as H1.
  unfold bind.
  destruct (handle_request serial0 flowID0 seq ack local c flags requestTS acc stream s)
    as [[v| |] s1]; cbn [snd] in *.
  - by apply IH.
  - eapply coupled_with_room_weaken; [| | exact H1]; lia.
  - eapply coupled_with_room_weaken; [| | exact H1]; lia.
Qed.

Lemma response_loop_coupled c (provider : TracedFlowProvider)
    (responseTS : gmap Z (option traceAndSpan)) streams acc a s :
  coupled_with_room c a (length streams) s ->
  coupled_with_room c a 0
    (snd (range_streams (handle_response c provider responseTS) streams acc s)).
Proof.
  revert acc s. induction streams as [|stream rest IH]; intros acc s HJ; [exact HJ |].
  cbn [range_streams length] in *.
  pose proof (handle_response_coupled c provider responseTS acc stream a
                (length rest) s HJ) as H1.
  unfold bind.
  destruct (handle_response c provider responseTS acc stream s)
    as [[v| |] s1]; cbn [snd] in *.
  - by apply IH.
  - eapply coupled_with_room_weaken; [| | exact H1]; lia.
  - eapply coupled_with_room_weaken; [| | exact H1]; lia.
Qed.

#[local] Instance carriers_kept_preorder : PreOrder carriers_kept.
Proof.
  split.
  - by intros s.
  - intros s1 s2 s3 H1 H2. unfold carriers_kept in *. congruence.
Qed.

#[local] Instance counters_kept_preorder : PreOrder counters_kept.
Proof.
  split.
  - by intros x.
  - intros x1 x2 x3 [? ?] [? ?]. split; congruence.
Qed.
#[local] Instance counters_kept_mu b : StableUnder counters_kept (with_mu b).
Proof. by intros x. Qed.
#[local] Instance counters_kept_released : StableUnder counters_kept (with_released true).
Proof. by intros x. Qed.
#[local] Instance counters_kept_lastLockedAt t :
  StableUnder counters_kept (with_lastLockedAt t).
Proof. by intros x. Qed.
#[local] Instance counters_kept_lastUnlockedAt t :
  StableUnder counters_kept (with_lastUnlockedAt t).
Proof. by intros x. Qed.
#[local] Instance counters_kept_isHTTP2 b : StableUnder counters_kept (with_isHTTP2 b).
Proof. by intros x. Qed.

(** [untrackConnection] leaves every carrier alone when the one it is
    given holds no request, however its walk through the index ends. *)
Lemma untrackConnection_idle_carriers flowID0 lock s x :
  carriers s !! lock = Some x -> activeRequests x <= 0 ->
  carriers (snd (untrackConnection flowID0 lock s)) = carriers s.
Proof.
  intros Hc Hle. unfold untrackConnection, defer_recover.
  rewrite (run_bind (gets flowToStreamToSequenceMap) _ s
             (flowToStreamToSequenceMap s) s) by done.
  match goal with |- context [bind ?m _ s] =>
    assert (guarantees carriers_kept m) as Hg
  end.
  { unfold untrack_stream, untrack_flow, isActive_CompareAndSwap, unblocker_Stop.
    guar. }
  specialize (Hg s). unfold carriers_kept in Hg. unfold bind at 1.
  match goal with |- context [match ?m s with _ => _ end] =>
    destruct (m s) as [[[]| |] s1] end; cbn [snd] in *; [| done..].
  assert (carriers s1 !! lock = Some x) as Hc1 by (by rewrite Hg).
  rewrite (run_bind _ _ _ _ _ (run_activeRequests_Load _ _ _ Hc1)).
  replace (Z.to_nat (activeRequests x)) with O by lia.
  cbn [drain]. by rewrite (run_bind (ret tt) _ s1 tt s1 eq_refl).
Qed.

Lemma snd_defer {A} (d : M unit) (body : M A) s :
  fst (body s) <> Fatal ->
  snd (defer_ d body s) = snd (d (snd (body s))).
Proof.
  intros Hnf. unfold defer_.
  destruct (body s) as [[a| |] s1]; cbn [fst snd] in *; [| | done];
    by destruct (d s1) as [[[]| |] s2].
Qed.

Lemma _unlock_counters c s x :
  carriers s !! c = Some x ->
  exists x', carriers (snd (_unlock c s)) !! c = Some x' /\ counters_kept x x'.
Proof.
  intros Hc. pose proof (g__unlock counters_kept c s) as (_ & _ & Hcs).
  by apply Hcs.
Qed.

Lemma coupled_with_room_counters c a b s s' x :
  carriers s !! c = Some x ->
  (exists x', carriers s' !! c = Some x' /\ counters_kept x x') ->
  coupled_with_room c a b s -> coupled_with_room c a b s'.
Proof.
  intros Hc (x' & Hc' & HA & HW) (x0 & Hc0 & Hco & Hroom & Hunder).
  replace x0 with x in * by congruence.
  destruct Hco as (? & ? & ? & ?).
  exists x'. split; [done |]. unfold coupled. rewrite HA, HW. by split_and!.
Qed.

(** The unlock that ends every variant keeps the counters coupled,
    however it ends. *)
Lemma UnlockWithTCPFlagsFN_coupled flowID0 c ts0 ctx flags a b s :
  coupled_with_room c a b s ->
  coupled_with_room c a b (snd (UnlockWithTCPFlagsFN flowID0 c ts0 ctx flags s)).
Proof.
  intros HJ. pose proof HJ as (x & Hc & Hco & Hroom & Hunder).
  unfold UnlockWithTCPFlagsFN.
  destruct (isConnectionTermination flags).
  - unfold UnlockAndReleaseFN.
    pose proof (run_release_body flowID0 c ts0 ctx s x Hc) as Hbody.
    cbv zeta in Hbody.
    match goal with |- context [defer_ _ ?b s] => set (body := b) in * end.
    assert (fst (body s) <> Fatal /\
            exists x1, carriers (snd (body s)) !! c = Some x1 /\ counters_kept x x1)
      as [Hnf (x1 & Hc1 & Hk1)].
    { rewrite Hbody.
      destruct ((activeRequests x =? 0) && negb (released x)) eqn:Hwon;
        [| split; [done | by exists x]].
      apply andb_true_iff in Hwon as [Hz _]. apply Z.eqb_eq in Hz.
      set (s0 := set_carriers (<[c := with_released true x]>) s).
      assert (carriers s0 !! c = Some (with_released true x)) as Hc0
        by (subst s0; lk).
      rewrite (run_bind (ctx_Done ctx) _ s0 _ s0 eq_refl).
      destruct (bool_decide (ctx ∈ cancelled s0)).
      - destruct (untrackConnection_returns flowID0 c s0) as [s2 Hu].
        pose proof (untrackConnection_idle_carriers flowID0 c s0 _ Hc0
                      ltac:(cbn; lia)) as Hcs.
        rewrite Hu in Hcs. cbn [snd] in Hcs.
        rewrite (run_bind _ _ _ _ _ Hu).
        rewrite (run_bind time_Now _ s2 (now s2) s2) by done.
        cbn [ret fst snd]. split; [done |].
        exists (with_released true x). by rewrite Hcs.
      - rewrite (run_bind _ _ _ _ _ (run_schedule_untrack flowID0 c s0)).
        match goal with |- context [bind time_Now _ ?st] =>
          rewrite (run_bind time_Now _ st (now st) st) by done end.
        cbn [ret fst snd]. split; [done |].
        by exists (with_released true x). }
    rewrite (snd_defer _ _ _ Hnf).
    destruct (_unlock_counters c (snd (body s)) x1 Hc1) as (x2 & Hc2 & Hk2).
    eapply coupled_with_room_counters; [exact Hc | | exact HJ].
    exists x2. split; [exact Hc2 |]. by etransitivity.
  - rewrite snd_defer by done.
    rewrite (run_bind time_Now _ s (now s) s) by done. cbn [ret snd].
    eapply coupled_with_room_counters; [exact Hc | | exact HJ].
    by apply _unlock_counters.
Qed.

(** X14: The accounting of [unlock_with_trace_and_span] keeps the two
    counters of the carrier coupled: starting from
    [-2^63 <= active_requests <= wg counter] and [0 <= wg counter < 2^31],
    with room for one token per request stream and one decrement per
    response stream, the same holds after the request loop, after the
    response loop and when the call ends, whether it returns, panics or
    stops in a fatal error; so no [wg.Add] or [wg.Done] of the call
    drives the wait-group counter below zero. *)
Theorem counters_stay_coupled :
  forall serial0 flowID0 seq ack local c ts0 (provider : TracedFlowProvider)
         ctx flags h2 requestStreams responseStreams
         (requestTS responseTS : gmap Z (option traceAndSpan)) s,
    coupled_with_room c (length requestStreams) (length responseStreams) s ->
    (forall acc,
       coupled_with_room c 0 (length responseStreams)
         (snd (range_streams
                 (handle_request serial0 flowID0 seq ack local c flags requestTS)
                 requestStreams acc s))) /\
    (forall acc,
       coupled_with_room c (length requestStreams) 0
         (snd (range_streams (handle_response c provider responseTS)
                 responseStreams acc s))) /\
    coupled_with_room c 0 0
      (snd (UnlockWithTraceAndSpanFN serial0 flowID0 seq ack local c ts0 provider
              ctx flags h2 requestStreams responseStreams requestTS responseTS s)).
Proof.
  intros serial0 flowID0 seq ack local c ts0 provider ctx flags h2
    requestStreams responseStreams requestTS responseTS s HJ.
  split; [intros acc; by apply request_loop_coupled |].
  split; [intros acc; by apply response_loop_coupled |].
  pose proof HJ as (x & Hc & Hco & Hroom & Hunder).
  unfold UnlockWithTraceAndSpanFN.
  rewrite (run_bind _ _ _ _ _ (run_updateCarrier _ _ _ (with_isHTTP2 h2) Hc)).
  set (s0 := set_carriers (<[c := with_isHTTP2 h2 x]>) s).
  assert (carriers s0 !! c = Some (with_isHTTP2 h2 x)) as Hc0 by (subst s0; lk).
  assert (coupled_with_room c (length requestStreams) (length responseStreams) s0)
    as HJ0 by (by exists (with_isHTTP2 h2 x)).
  rewrite (run_bind _ _ _ _ _ (run_activeRequests_Load _ _ _ Hc0)).
  rewrite !range_streams_guard.
  pose proof (request_loop_coupled serial0 flowID0 seq ack local c flags requestTS
                requestStreams (activeRequests (with_isHTTP2 h2 x))
                (length responseStreams) s0 HJ0) as H1.
  unfold bind at 1.
  destruct (range_streams _ requestStreams _ s0) as [[acc1| |] s1]; cbn [snd] in H1;
    [| eapply coupled_with_room_weaken; [| | exact H1]; lia..].
  pose proof (response_loop_coupled c provider responseTS responseStreams acc1
                0 s1 H1) as H2.
  rewrite range_streams_guard. unfold bind at 1.
  destruct (range_streams _ responseStreams _ s1) as [[acc2| |] s2]; cbn [snd] in H2;
    [| exact H2..].
  pose proof (UnlockWithTCPFlagsFN_coupled flowID0 c ts0 ctx flags 0 0 s2 H2) as H3.
  unfold bind.
  by destruct (UnlockWithTCPFlagsFN flowID0 c ts0 ctx flags s2) as [[[won l]| |] s3].
Qed.

Lemma counters_stay_coupled_witness :
  coupled_with_room 0%nat 0 0
    (snd (UnlockWithTraceAndSpanFN 1 1 1000 0 false 0%nat 0
            (fst (getTracedFlow 1 1000 0 false (held_state 0 false)))
            0%nat (Z.lor tcpPsh tcpAck) false [10] [] {[ 10 := Some T1 ]} ∅
            (held_state 0 false))).
Proof.
  destruct (counters_stay_coupled 1 1 1000 0 false 0%nat 0
              (fst (getTracedFlow 1 1000 0 false (held_state 0 false)))
              0%nat (Z.lor tcpPsh tcpAck) false [10] [] {[ 10 := Some T1 ]} ∅
              (held_state 0 false)) as (_ & _ & H).
  - exists (held_carrier 0 false). split; [reflexivity |].
    unfold coupled. cbn. lia.
  - exact H.
Defined.

(** X15: The goroutines started by the two timers keep the counters
    coupled.  The callback of an unblocker has no [recover]: on a carrier
    whose counters are coupled its critical section returns (the
    [wg.Done()] it may call never finds the counter at zero) and frees
    the mutex it took.  [untrackConnection], however its walk through the
    index ends, leaves the counters of the carrier it is given coupled. *)
Theorem timers_keep_counters_coupled :
  (forall t s y r,
     tracedFlows s !! t = Some y ->
     coupled_with_room (tf_lock y) 0 1 s ->
     unblocker_run t s = Some r ->
     fst r = Returned tt /\
     coupled_with_room (tf_lock y) 0 0 (snd r) /\
     mutex_free (tf_lock y) (snd r) = true) /\
  (forall flowID0 lock s,
     coupled_with_room lock 0 0 s ->
     coupled_with_room lock 0 0 (snd (untrackConnection flowID0 lock s))).
Proof.
  split.
  - intros t s y r Ht (x & Hc & Hco & _ & Hunder). unfold unblocker_run. rewrite Ht.
    destruct (phase (unblocker y)) as [| |[]]; try done.
    rewrite Hc. destruct (mu x) eqn:Hmu; [done |]. intros [= <-].
    unfold mu_Lock.
    rewrite (run_bind _ _ _ _ _ (run_updateCarrier _ _ _ (with_mu true) Hc)).
    set (s1 := set_carriers (<[tf_lock y := with_mu true x]>) s).
    assert (carriers s1 !! tf_lock y = Some (with_mu true x)) as Hc1
      by (subst s1; lk).
    pose proof (run_unblocker_critical s1 (tf_lock y) (with_mu true x) Hc1 eq_refl)
      as Hrun.
    cbv zeta in Hrun. cbn [activeRequests wg with_mu] in Hrun.
    destruct Hco as (Hlo & Hle & Hwg0 & Hwg1). pow_consts.
    rewrite (wrap64_small (activeRequests x + -1)) in Hrun
      by (change (2 ^ 63) with 9223372036854775808; lia).
    destruct (Z.geb_spec (activeRequests x + -1) 0) as [Hge | Hlt];
      cbn [andb] in Hrun.
    + rewrite (wrap32_small (wg x + -1)) in Hrun
        by (change (2 ^ 31) with 2147483648; lia).
      destruct (Z.ltb_spec (wg x + -1) 0) as [? | _]; [lia |].
      rewrite (run_bind _ _ _ _ _ Hrun). cbn [storeTracedFlow modify fst snd].
      split; [done |]. split.
      * eexists. split; [lk |]. unfold coupled. cbn. pow_consts. lia.
      * unfold mutex_free. cbn. by rewrite lookup_insert_eq.
    + rewrite (run_bind _ _ _ _ _ Hrun). cbn [storeTracedFlow modify fst snd].
      split; [done |]. split.
      * eexists. split; [lk |]. unfold coupled. cbn. pow_consts. lia.
      * unfold mutex_free. cbn. by rewrite lookup_insert_eq.
  - intros flowID0 lock s HJ. pose proof HJ as (x & Hc & Hco & _).
    unfold untrackConnection, defer_recover.
    rewrite (run_bind (gets flowToStreamToSequenceMap) _ s
               (flowToStreamToSequenceMap s) s) by done.
    match goal with |- context [bind ?m _ s] =>
      assert (guarantees carriers_kept m) as Hg
    end.
    { unfold untrack_stream, untrack_flow, isActive_CompareAndSwap, unblocker_Stop.
      guar. }
    specialize (Hg s). unfold carriers_kept in Hg. unfold bind at 1.
    match goal with |- context [match ?m s with _ => _ end] =>
      destruct (m s) as [[[]| |] s1] end; cbn [snd] in *;
      [| by eapply coupled_with_room_carriers..].
    assert (carriers s1 !! lock = Some x) as Hc1 by (by rewrite Hg).
    rewrite (run_bind _ _ _ _ _ (run_activeRequests_Load _ _ _ Hc1)).
    destruct (coupled_drain lock s1 x Hc1 Hco) as [Hret (x' & Hc' & Hco' & _)].
    destruct (drain (Z.to_nat (activeRequests x)) lock s1) as [o s2] eqn:Hdrain.
    cbn [fst snd] in *. subst o.
    rewrite (run_bind _ _ _ _ _ Hdrain). cbn [modify snd].
    exists x'. split; [done |]. split; [done |].
    destruct Hco' as (? & ? & ? & ?). pow_consts. lia.
Qed.

Lemma timers_keep_counters_coupled_witness :
  exists r, unblocker_run 0%nat fired_state = Some r /\ fst r = Returned tt.
Proof.
  destruct timers_keep_counters_coupled as [H _].
  destruct (unblocker_run 0%nat fired_state) as [r|] eqn:Hrun;
    [| by vm_compute in Hrun].
  exists r. split; [reflexivity |].
  destruct (H 0%nat fired_state fired_flow r eq_refl) as [Hret _];
    [| exact Hrun | exact Hret].
  exists fired_carrier. split; [reflexivity |]. unfold coupled. cbn. lia.
Defined.

(** ** The HTTP/2 mark of a carrier *)

#[local] Instance isHTTP2_kept_preorder : PreOrder isHTTP2_kept.
Proof.
  split.
  - by intros x.
  - intros x1 x2 x3 H1 H2. unfold isHTTP2_kept in *. congruence.
Qed.
#[local] Instance isHTTP2_kept_mu b : StableUnder isHTTP2_kept (with_mu b).
Proof. by intros x. Qed.
#[local] Instance isHTTP2_kept_wg v : StableUnder isHTTP2_kept (with_wg v).
Proof. by intros x. Qed.
#[local] Instance isHTTP2_kept_released : StableUnder isHTTP2_kept (with_released true).
Proof. by intros x. Qed.
#[local] Instance isHTTP2_kept_lastLockedAt t :
  StableUnder isHTTP2_kept (with_lastLockedAt t).
Proof. by intros x. Qed.
#[local] Instance isHTTP2_kept_lastUnlockedAt t :
  StableUnder isHTTP2_kept (with_lastUnlockedAt t).
Proof. by intros x. Qed.
#[local] Instance isHTTP2_kept_activeRequests v :
  StableUnder isHTTP2_kept (with_activeRequests v).
Proof. by intros x. Qed.

Lemma run_IsHTTP2FN c s x :
  carriers s !! c = Some x -> IsHTTP2FN c s = (Returned (isHTTP2 x), s).
Proof.
  intros Hc. unfold IsHTTP2FN.
  by rewrite (run_bind _ _ _ _ _ (run_loadCarrier _ _ _ Hc)).
Qed.

(** X16: [IsHTTP2] reports what the latest tracking
    [unlock_with_trace_and_span] on the carrier was told, whether that
    call returned or panicked in one of its loops; every other operation
    on the handle ([Unlock], [UnlockAndRelease], [UnlockWithTCPFlags], the
    fallback [unlock_with_trace_and_span] with its ignored argument), as
    well as [untrackConnection] and the reaper, leave the mark as it
    is. *)
Theorem isHTTP2_round_trip :
  forall c s x,
    carriers s !! c = Some x ->
    (forall serial0 flowID0 seq ack local ts0 (provider : TracedFlowProvider)
            ctx flags h2 rs ps (rts pts : gmap Z (option traceAndSpan)),
       let s' := snd (UnlockWithTraceAndSpanFN serial0 flowID0 seq ack local c ts0
                        provider ctx flags h2 rs ps rts pts s) in
       IsHTTP2FN c s' = (Returned h2, s')) /\
    (forall flowID0 ts0 ctx flags,
       let s' := snd (UnlockWithTCPFlagsFN flowID0 c ts0 ctx flags s) in
       IsHTTP2FN c s' = (Returned (isHTTP2 x), s')) /\
    (forall flowID0 ts0 ar ctx flags h2 rs ps (rts pts : gmap Z (option traceAndSpan)),
       let s' := snd (UnlockWithTraceAndSpanFallback flowID0 c ts0 ar ctx flags
                        h2 rs ps rts pts s) in
       IsHTTP2FN c s' = (Returned (isHTTP2 x), s')) /\
    (forall flowID0 lock,
       let s' := snd (untrackConnection flowID0 lock s) in
       IsHTTP2FN c s' = (Returned (isHTTP2 x), s')) /\
    (let s' := snd (reaper_tick s) in
     IsHTTP2FN c s' = (Returned (isHTTP2 x), s')).
Proof.
  intros c s x Hc.
  assert (forall {A} (m : M A),
            guarantees (frame isHTTP2_kept) m ->
            IsHTTP2FN c (snd (m s)) = (Returned (isHTTP2 x), snd (m s))) as Hkept.
  { intros A m Hg. destruct (Hg s) as (_ & _ & Hcs).
    destruct (Hcs c x Hc) as (x' & Hc' & Hk).
    rewrite (run_IsHTTP2FN _ _ _ Hc'). by rewrite Hk. }
  split_and!.
  - intros serial0 flowID0 seq ack local ts0 provider ctx flags h2 rs ps rts pts s'.
    subst s'. unfold UnlockWithTraceAndSpanFN.
    rewrite (run_bind _ _ _ _ _ (run_updateCarrier _ _ _ (with_isHTTP2 h2) Hc)).
    set (s0 := set_carriers (<[c := with_isHTTP2 h2 x]>) s).
    match goal with |- context [bind ?m ?k s0] =>
      assert (guarantees (frame isHTTP2_kept) (bind m k)) as Hg
    end.
    { pose proof (g_handle_request isHTTP2_kept).
      pose proof (g_handle_response isHTTP2_kept).
      pose proof (g_UnlockWithTCPFlagsFN isHTTP2_kept). guar. }
    destruct (Hg s0) as (_ & _ & Hcs).
    destruct (Hcs c (with_isHTTP2 h2 x) ltac:(subst s0; lk)) as (x' & Hc' & Hk).
    rewrite (run_IsHTTP2FN _ _ _ Hc'). by rewrite Hk.
  - intros flowID0 ts0 ctx flags s'. apply Hkept.
    apply (g_UnlockWithTCPFlagsFN isHTTP2_kept).
  - intros flowID0 ts0 ar ctx flags h2 rs ps rts pts s'. apply Hkept.
    apply (g_UnlockWithTraceAndSpanFallback isHTTP2_kept).
  - intros flowID0 lock s'. apply Hkept.
    apply (g_untrackConnection isHTTP2_kept).
  - intros s'. apply Hkept. apply (g_reaper_tick isHTTP2_kept).
Qed.

Lemma isHTTP2_round_trip_witness :
  IsHTTP2FN 0%nat
    (snd (UnlockWithTraceAndSpanFN 1 1 1000 0 false 0%nat 0
            (fst (getTracedFlow 1 1000 0 false (held_state 0 false)))
            0%nat (Z.lor tcpPsh tcpAck) true [] [10] ∅ {[ 10 := None ]}
            (held_state 0 false)))
  = (Returned true,
     snd (UnlockWithTraceAndSpanFN 1 1 1000 0 false 0%nat 0
            (fst (getTracedFlow 1 1000 0 false (held_state 0 false)))
            0%nat (Z.lor tcpPsh tcpAck) true [] [10] ∅ {[ 10 := None ]}
            (held_state 0 false))).
Proof.
  destruct (isHTTP2_round_trip 0%nat (held_state 0 false) (held_carrier 0 false)
              eq_refl) as [H _].
  apply H.
Defined.

(** ** Traced flows along a run *)

#[local] Instance flow_kept_preorder : PreOrder flow_kept.
Proof.
  split.
  - intros y. by repeat split.
  - intros y1 y2 y3 (? & ? & ? & ? & ? & ? & ?) (? & ? & ? & ? & ? & ? & ?).
    repeat split; try congruence; auto.
Qed.

#[local] Instance flows_kept_preorder : PreOrder flows_kept.
Proof.
  split.
  - intros s t y Ht. exists y. split; [done | reflexivity].
  - intros s1 s2 s3 H1 H2 t y Ht.
    destruct (H1 t y Ht) as (y' & Ht' & Hk1).
    destruct (H2 t y' Ht') as (y'' & Ht'' & Hk2).
    exists y''. split; [done | by etransitivity].
Qed.

Lemma flows_kept_same s s' : tracedFlows s' = tracedFlows s -> flows_kept s s'.
Proof. intros Heq t y Ht. exists y. rewrite Heq. split; [done | reflexivity]. Qed.

Lemma flows_kept_store s t y y' :
  tracedFlows s !! t = Some y -> flow_kept y y' ->
  flows_kept s (set_tracedFlows (<[t := y']>) s).
Proof.
  intros Ht Hk t0 y0 Ht0. cbn.
  destruct (decide (t = t0)) as [<- | Hne].
  - rewrite lookup_insert_eq. exists y'. split; [done |].
    by replace y0 with y by congruence.
  - rewrite lookup_insert_ne by done. exists y0. split; [done | reflexivity].
Qed.

Section FlowsKept.
Local Abbreviation G := flows_kept.

Lemma fk_modify_other f :
  (forall s, tracedFlows (f s) = tracedFlows s) -> guarantees G (modify f).
Proof. intros Hf s. apply flows_kept_same. apply Hf. Qed.

Lemma fk_storeCarrier c x : guarantees G (storeCarrier c x).
Proof. by apply fk_modify_other. Qed.

Lemma fk_storeStreamMap l m : guarantees G (storeStreamMap l m).
Proof. by apply fk_modify_other. Qed.

Lemma fk_set_index f : guarantees G (modify (set_index f)).
Proof. by apply fk_modify_other. Qed.

Lemma fk_set_registry f : guarantees G (modify (set_registry f)).
Proof. by apply fk_modify_other. Qed.

Lemma fk_set_MutexMap f : guarantees G (modify (set_MutexMap f)).
Proof. by apply fk_modify_other. Qed.

Lemma fk_set_untrackTimers f : guarantees G (modify (set_untrackTimers f)).
Proof. by apply fk_modify_other. Qed.

Lemma fk_newStreamMap : guarantees G newStreamMap.
Proof. intros s. by apply flows_kept_same. Qed.

Lemma fk_newFlowLockCarrier serial0 flowID0 :
  guarantees G (newFlowLockCarrier serial0 flowID0).
Proof. intros s. by apply flows_kept_same. Qed.

Lemma fk_newTracedFlow lock serial0 flowID0 ts0 :
  guarantees G (newTracedFlow lock serial0 flowID0 ts0).
Proof.
  intros s t y Ht. cbn. exists y. split; [| reflexivity].
  rewrite lookup_insert_ne; [done |].
  intros <-. apply (is_fresh (dom (tracedFlows s))).
  apply elem_of_dom. by exists y.
Qed.

Lemma fk_isActive_CompareAndSwap t :
  guarantees G (isActive_CompareAndSwap t true false).
Proof.
  intros s. unfold isActive_CompareAndSwap, bind, loadTracedFlow.
  destruct (tracedFlows s !! t) as [y|] eqn:Ht; cbn; [| reflexivity].
  destruct (Bool.eqb (isActive y) true); cbn; [| reflexivity].
  eapply flows_kept_store; [done |]. by repeat split.
Qed.

Lemma fk_unblocker_Stop t : guarantees G (unblocker_Stop t).
Proof.
  intros s. unfold unblocker_Stop, bind, loadTracedFlow.
  destruct (tracedFlows s !! t) as [y|] eqn:Ht; cbn; [| reflexivity].
  destruct (phase (unblocker y)) eqn:Hp; cbn; [| reflexivity..].
  eapply flows_kept_store; [done |]. by repeat split.
Qed.

Lemma fk_drain fuel lock : guarantees G (drain fuel lock).
Proof.
  pose proof fk_storeCarrier.
  induction fuel as [|fuel IH]; cbn [drain]; [guar |].
  unfold activeRequests_Load, activeRequests_Add, wg_Done, wg_Add.
  guar.
Qed.

Lemma fk_untrackConnection flowID0 lock :
  guarantees G (untrackConnection flowID0 lock).
Proof.
  pose proof fk_drain. pose proof fk_storeStreamMap. pose proof fk_set_index.
  pose proof fk_set_registry. pose proof fk_set_MutexMap.
  pose proof fk_isActive_CompareAndSwap. pose proof fk_unblocker_Stop.
  unfold untrackConnection, untrack_stream, untrack_flow, activeRequests_Load.
  guar.
Qed.

Lemma fk_updateCarrier c f : guarantees G (updateCarrier c f).
Proof. pose proof fk_storeCarrier. unfold updateCarrier. guar. Qed.

Lemma fk__unlock c : guarantees G (_unlock c).
Proof.
  pose proof fk_storeCarrier. pose proof fk_updateCarrier.
  unfold _unlock, mu_Unlock. guar.
Qed.

Lemma fk_UnlockAndReleaseFN flowID0 c ts0 ctx :
  guarantees G (UnlockAndReleaseFN flowID0 c ts0 ctx).
Proof.
  pose proof fk__unlock. pose proof fk_untrackConnection.
  pose proof fk_storeCarrier. pose proof fk_set_untrackTimers.
  unfold UnlockAndReleaseFN, schedule_untrack, activeRequests_Load,
    released_CompareAndSwap.
  guar.
Qed.

Lemma fk_UnlockWithTCPFlagsFN flowID0 c ts0 ctx flags :
  guarantees G (UnlockWithTCPFlagsFN flowID0 c ts0 ctx flags).
Proof.
  pose proof fk__unlock. pose proof fk_UnlockAndReleaseFN.
  unfold UnlockWithTCPFlagsFN. guar.
Qed.

Lemma fk_trackConnection lock serial0 flowID0 flags seq ack local ts0 :
  guarantees G (trackConnection lock serial0 flowID0 flags seq ack local ts0).
Proof.
  pose proof fk_newTracedFlow. pose proof fk_newStreamMap.
  pose proof fk_storeStreamMap. pose proof fk_set_index.
  unfold trackConnection, indexTracedFlow, FTSTSM_GetOrCompute,
    sequenceToTracedFlowMapProvider, STSM_GetOrCompute.
  guar.
Qed.

Lemma fk_UnlockWithTraceAndSpanFN serial0 flowID0 seq ack local c ts0 provider
    ctx flags h2 rs ps rts pts :
  guarantees G
    (UnlockWithTraceAndSpanFN serial0 flowID0 seq ack local c ts0 provider
       ctx flags h2 rs ps rts pts).
Proof.
  pose proof fk_UnlockWithTCPFlagsFN. pose proof fk_trackConnection.
  pose proof fk_storeCarrier. pose proof fk_updateCarrier.
  pose proof fk_isActive_CompareAndSwap. pose proof fk_unblocker_Stop.
  unfold UnlockWithTraceAndSpanFN, handle_request, handle_response,
    activeRequests_Load, activeRequests_Add, wg_Done, wg_Add.
  guar.
Qed.

Lemma fk_lock_steps ctx serial0 flowID0 flags seq ack local n pc s :
  G s (snd (lock_steps ctx serial0 flowID0 flags seq ack local n pc s)).
Proof.
  assert (forall pc s pc' s',
            lock_step ctx serial0 flowID0 flags seq ack local pc s = Some (pc', s') ->
            G s s') as Hstep.
  { clear pc s. intros pc s pc' s'. destruct pc as [|c|c|c|h p]; cbn [lock_step].
    - assert (guarantees G (lock_carrier serial0 flowID0)) as Hg.
      { pose proof fk_newFlowLockCarrier. pose proof fk_set_MutexMap.
        unfold lock_carrier. guar. }
      specialize (Hg s).
      destruct (lock_carrier serial0 flowID0 s) as [[c| |] s1]; [| done..].
      by intros [= <- <-].
    - destruct (isConnectionTermination flags);
        [destruct (bool_decide _) |]; by intros [= <- <-].
    - destruct (carriers s !! c) as [x|]; [| done].
      destruct (wg x =? 0); [| done]. by intros [= <- <-].
    - destruct (carriers s !! c) as [x|]; [| done].
      destruct (mu x); [done |].
      assert (guarantees G
                (run mu_Lock c; lock_locked serial0 flowID0 flags seq ack local c))
        as Hg.
      { pose proof fk_updateCarrier.
        unfold mu_Lock, lock_locked, activeRequests_Load. guar. }
      specialize (Hg s).
      destruct ((run mu_Lock c; lock_locked serial0 flowID0 flags seq ack local c) s)
        as [[[h p]| |] s1]; [| done..].
      by intros [= <- <-].
    - done. }
  revert pc s. induction n as [|n IH]; intros pc s; cbn [lock_steps]; [reflexivity |].
  destruct (lock_step ctx serial0 flowID0 flags seq ack local pc s)
    as [[pc' s']|] eqn:Hs; [| reflexivity].
  etransitivity; [by eapply Hstep | apply IH].
Qed.

Lemma fk_reaper_tick : guarantees G reaper_tick.
Proof.
  pose proof fk_untrackConnection. pose proof fk_set_MutexMap.
  pose proof fk_storeCarrier.
  unfold reaper_tick, reap, mu_TryLock, mu_Unlock. guar.
Qed.

Lemma fk_exec o s : G s (fst (exec o s)).
Proof.
  destruct o; unfold exec; try rewrite fst_reported; cbn [fst].
  - by apply flows_kept_same.
  - by apply flows_kept_same.
  - apply fk_lock_steps.
  - apply fk_UnlockWithTCPFlagsFN.
  - apply fk_UnlockAndReleaseFN.
  - apply fk_UnlockWithTCPFlagsFN.
  - apply fk_UnlockWithTraceAndSpanFN.
  - assert (guarantees G
              (UnlockWithTraceAndSpanFallback flowID0 carrier lockAcquiredTS
                 activeRequests0 ctx tcpFlags' false [] [] ∅ ∅)) as Hg
      by (pose proof fk_UnlockWithTCPFlagsFN;
          unfold UnlockWithTraceAndSpanFallback; guar).
    apply Hg.
  - unfold unblocker_expire.
    destruct (tracedFlows s !! t) as [y|] eqn:Ht; [| reflexivity].
    destruct (phase (unblocker y)) eqn:Hp; [| reflexivity..].
    destruct (due (unblocker y) <=? now s); [| reflexivity]. cbn.
    eapply flows_kept_store; [done |]. by repeat split.
  - unfold unblocker_cas.
    destruct (tracedFlows s !! t) as [y|] eqn:Ht; [| reflexivity].
    destruct (phase (unblocker y)) as [| |[]] eqn:Hp; try reflexivity. cbn.
    eapply flows_kept_store; [done |].
    unfold armed. destruct (isActive y); repeat split; cbn; by rewrite ?Hp.
  - unfold unblocker_run.
    destruct (tracedFlows s !! t) as [y|] eqn:Ht; [| reflexivity].
    destruct (phase (unblocker y)) as [| |[]] eqn:Hp; try reflexivity.
    destruct (carriers s !! tf_lock y) as [z|]; [| reflexivity].
    destruct (mu z); [reflexivity |]. cbn [snd].
    assert (guarantees G
              (run mu_Lock (tf_lock y); unblocker_critical (tf_lock y))) as Hg.
    { pose proof fk_updateCarrier. pose proof fk_storeCarrier.
      unfold mu_Lock, unblocker_critical, mu_Unlock, activeRequests_Add,
        wg_Done, wg_Add. guar. }
    specialize (Hg s). unfold bind in *.
    destruct (mu_Lock (tf_lock y) s) as [[[]| |] s1]; cbn [snd] in *; [| done..].
    destruct (unblocker_critical (tf_lock y) s1) as [[[]| |] s2]; cbn [snd] in *;
      [| done..].
    cbn. intros t0 y0 Ht0. destruct (Hg t0 y0 Ht0) as (y1 & Ht1 & Hk1).
    cbn [tracedFlows set_tracedFlows].
    destruct (decide (t = t0)) as [<- | Hne].
    + rewrite lookup_insert_eq. eexists. split; [done |].
      replace y0 with y by congruence.
      unfold armed. repeat split; cbn; by rewrite ?Hp.
    + rewrite lookup_insert_ne by done. by exists y1.
  - destruct (untrackTimers s !! i) as [ut|]; [| reflexivity].
    destruct (ut_due ut <=? now s); [| reflexivity].
    etransitivity; [| apply fk_untrackConnection]. by apply flows_kept_same.
  - apply fk_reaper_tick.
Qed.
End FlowsKept.

(** X17: Along every run of the engine (calls of [lock] and of the unlock
    variants with any arguments, timers firing, reaper ticks, the clock,
    cancellations) a traced flow is never freed, never reactivated once
    [isActive] is false, its unblocker is never re-armed once stopped or
    expired, and its trace, its carrier, its flow and the deadline of its
    unblocker never change. *)
Theorem traced_flow_single_shot :
  forall ops s t y,
    tracedFlows s !! t = Some y ->
    exists y', tracedFlows (execs ops s) !! t = Some y' /\ flow_kept y y'.
Proof.
  intros ops. induction ops as [|o ops IH]; intros s t y Ht; cbn [execs].
  - exists y. split; [done | reflexivity].
  - destruct (fk_exec o s t y Ht) as (y1 & Ht1 & Hk1).
    destruct (IH _ t y1 Ht1) as (y2 & Ht2 & Hk2).
    exists y2. split; [done | by etransitivity].
Qed.

Lemma traced_flow_single_shot_witness :
  exists y',
    tracedFlows
      (execs [Tick trackingDeadline; UnblockerExpire 0%nat; UnblockerCAS 0%nat;
              CallUnlockWithTraceAndSpan 2 1 2000 1500 false 0%nat 0
                (fst (getTracedFlow 1 2000 1500 false tracked_state))
                0%nat 24 false [10] [10] {[ 10 := Some T1 ]} {[ 10 := Some T1 ]};
              UnblockerRun 0%nat; ReaperTick]
         tracked_state) !! 0%nat = Some y' /\
    ts y' = T1.
Proof.
  destruct (traced_flow_single_shot
              [Tick trackingDeadline; UnblockerExpire 0%nat; UnblockerCAS 0%nat;
               CallUnlockWithTraceAndSpan 2 1 2000 1500 false 0%nat 0
                 (fst (getTracedFlow 1 2000 1500 false tracked_state))
                 0%nat 24 false [10] [10] {[ 10 := Some T1 ]} {[ 10 := Some T1 ]};
               UnblockerRun 0%nat; ReaperTick]
              tracked_state 0%nat _ eq_refl) as (y' & Ht & _ & _ & Hts & _).
  by exists y'.
Defined.

(** ** Untracking, whatever the engine *)

#[local] Instance index_but_preorder fid : PreOrder (index_but fid).
Proof.
  split.
  - by intros s.
  - intros s1 s2 s3 H1 H2. unfold index_but in *. congruence.
Qed.

#[local] Instance registry_shrinks_preorder : PreOrder registry_shrinks.
Proof.
  split.
  - by intros s k Hk.
  - intros s1 s2 s3 H1 H2 k Hk. by apply H2, H1.
Qed.

Lemma g_drain_index_but fid fuel lock : guarantees (index_but fid) (drain fuel lock).
Proof.
  induction fuel as [|fuel IH]; cbn [drain]; [guar |].
  unfold activeRequests_Load, activeRequests_Add, wg_Done, wg_Add, storeCarrier.
  guar.
Qed.

Lemma g_drain_registry_shrinks fuel lock :
  guarantees registry_shrinks (drain fuel lock).
Proof.
  assert (forall c x, guarantees registry_shrinks (storeCarrier c x)) as Hst
    by (by intros c x s k Hk).
  induction fuel as [|fuel IH]; cbn [drain]; [guar |].
  unfold activeRequests_Load, activeRequests_Add, wg_Done, wg_Add.
  guar.
Qed.

(** X18: [untrackConnection] is tolerant of panics and confined to its flow:
    from every engine it returns; no carrier is freed and a carrier
    changes at most in its two counters; the carrier map and the index
    lose at most the flow; traced flows are only deactivated, the
    registry only loses entries, no timer is scheduled, and the clock and
    the contexts are left alone. *)
Theorem untrackConnection_confined :
  forall flowID0 lock s,
    exists s',
      untrackConnection flowID0 lock s = (Returned tt, s') /\
      frame counters_only s s' /\
      mutexmap_but flowID0 s s' /\ index_but flowID0 s s' /\
      flows_kept s s' /\ registry_shrinks s s' /\ timers_kept s s'.
Proof.
  intros flowID0 lock s.
  destruct (untrackConnection_returns flowID0 lock s) as [s' Hrun].
  exists s'. split; [exact Hrun |].
  replace s' with (snd (untrackConnection flowID0 lock s)) by (by rewrite Hrun).
  split_and!.
  - apply (g_untrackConnection counters_only).
  - apply g_untrackConnection_mutexmap_but.
  - pose proof (g_drain_index_but flowID0).
    assert (guarantees (index_but flowID0)
              (modify (set_index (delete flowID0)))) as Hdel.
    { intros s0. unfold index_but. cbn. by rewrite delete_delete_eq. }
    assert (guarantees (index_but flowID0) (untrackConnection flowID0 lock)) as Hg.
    { unfold untrackConnection, untrack_stream, untrack_flow,
        isActive_CompareAndSwap, unblocker_Stop, activeRequests_Load.
      guar. }
    apply Hg.
  - apply fk_untrackConnection.
  - pose proof g_drain_registry_shrinks.
    assert (forall k, guarantees registry_shrinks
                        (modify (set_registry (delete k)))) as Hdel.
    { intros k s0 k' Hk'. cbn.
      destruct (decide (k = k')) as [<- | Hne]; [apply lookup_delete_eq |].
      by rewrite lookup_delete_ne. }
    assert (forall f, guarantees registry_shrinks (modify (set_index f))) as Hidx
      by (by intros f s0 k Hk).
    assert (forall f, guarantees registry_shrinks (modify (set_MutexMap f))) as Hmm
      by (by intros f s0 k Hk).
    assert (forall l m, guarantees registry_shrinks (storeStreamMap l m)) as Hsm
      by (by intros l m s0 k Hk).
    assert (forall t x, guarantees registry_shrinks (storeTracedFlow t x)) as Htf
      by (by intros t x s0 k Hk).
    assert (guarantees registry_shrinks (untrackConnection flowID0 lock)) as Hg.
    { unfold untrackConnection, untrack_stream, untrack_flow,
        isActive_CompareAndSwap, unblocker_Stop, activeRequests_Load.
      guar. }
    apply Hg.
  - apply g_untrackConnection_timers_kept.
Qed.

(** ** A flow after its release *)

(** X19: A flow starts afresh once it has been released and untracked: after
    an [UnlockAndRelease] that untracks at once (cancelled context), the
    next [lock] for the flow, whatever its flags, does not block and
    returns a handle on a new carrier, not released and without requests,
    while the old carrier stays released. *)
Theorem flow_restarts_after_release :
  forall flowID0 c ts0 ctx s x,
    carriers s !! c = Some x -> mu x = true ->
    activeRequests x = 0 -> released x = false ->
    ctx ∈ cancelled s ->
    index_allocated flowID0 s = true ->
    forall ctx' serial' flags' seq' ack' local',
    exists h p s1 c' x',
      lock ctx' serial' flowID0 flags' seq' ack' local'
        (snd (UnlockAndReleaseFN flowID0 c ts0 ctx s)) = Some (h, p, s1) /\
      c' <> c /\ MutexMap s1 !! flowID0 = Some c' /\
      carriers s1 !! c' = Some x' /\ mu x' = true /\ released x' = false /\
      activeRequests x' = 0 /\ wg x' = 0 /\
      released_of c s1 = true /\
      bound_to flowID0 flags' seq' ack' local' c' (now s) s1 h p.
Proof.
  intros flowID0 c ts0 ctx s x Hc Hmu Har Hrel Hdone Halloc
    ctx' serial' flags' seq' ack' local'.
  destruct (run_release_cancelled flowID0 c ts0 ctx s x Hc Hmu Har Hrel Hdone Halloc)
    as (s' & Hrun & Hmm & _ & Hcs & _).
  pose proof (g_UnlockAndReleaseFN released_kept flowID0 c ts0 ctx s) as (Hnow & _ & _).
  rewrite Hrun in *. cbn [snd] in *.
  destruct (lock_new_flow ctx' serial' flowID0 flags' seq' ack' local' s')
    as (h & p & s1 & c' & x' & Hlock & Hfresh & Hmm1 & Hcs1 & Hmu' & _ & _ & Hwg' &
        Har' & Hrel' & Hb);
    [rewrite Hmm; apply lookup_delete_eq |].
  assert (carriers s' !! c = Some (unlocked (now s) (with_released true x))) as Hc'
    by (rewrite Hcs; apply lookup_insert_eq).
  assert (c' <> c) as Hne by (intros ->; congruence).
  exists h, p, s1, c', x'. rewrite <- Hnow.
  split; [exact Hlock |]. split; [exact Hne |].
  split; [rewrite Hmm1; apply lookup_insert_eq |].
  split; [rewrite Hcs1; apply lookup_insert_eq |].
  split_and!; try done.
  unfold released_of. rewrite Hcs1, lookup_insert_ne by done. by rewrite Hc'.
Qed.

Lemma flow_restarts_after_release_witness :
  exists h p s1,
    lock 0%nat 9 1 (Z.lor tcpSyn 0) 1 0 false
      (snd (UnlockAndReleaseFN 1 0%nat 0 0%nat
              (set_cancelled (fun cs => {[ 0%nat ]} ∪ cs) (held_state 0 false))))
    = Some (h, p, s1) /\
    MutexMap s1 !! 1 <> Some 0%nat.
Proof.
  destruct (flow_restarts_after_release 1 0%nat 0 0%nat
              (set_cancelled (fun cs => {[ 0%nat ]} ∪ cs) (held_state 0 false))
              (held_carrier 0 false) eq_refl eq_refl eq_refl eq_refl
              ltac:(cbn; set_solver) eq_refl
              0%nat 9 (Z.lor tcpSyn 0) 1 0 false)
    as (h & p & s1 & c' & x' & Hlock & Hne & Hmm & _).
  exists h, p, s1. split; [exact Hlock |]. rewrite Hmm. congruence.
Defined.

(** ** Streams without trace information *)

Lemma request_loop_without_ts serial0 flowID0 seq ack local c flags
    (requestTS : gmap Z (option traceAndSpan)) streams acc s :
  without_ts true requestTS streams = true ->
  range_streams (handle_request serial0 flowID0 seq ack local c flags requestTS)
    streams acc s = (Returned acc, s).
Proof.
  induction streams as [|stream rest IH]; intros Hno; [done |].
  cbn [without_ts forallb] in Hno. apply andb_true_iff in Hno as [Hts Hrest].
  cbn [range_streams].
  assert (handle_request serial0 flowID0 seq ack local c flags requestTS acc stream s
          = (Returned acc, s)) as Hone.
  { unfold handle_request. by destruct (requestTS !! stream) as [[ts1|]|]. }
  rewrite (run_bind _ _ _ _ _ Hone). by apply IH.
Qed.

Lemma response_loop_without_ts c (provider : TracedFlowProvider)
    (responseTS : gmap Z (option traceAndSpan)) streams acc s :
  without_ts false responseTS streams = true ->
  range_streams (handle_response c provider responseTS) streams acc s
  = (Returned acc, s).
Proof.
  induction streams as [|stream rest IH]; intros Hno; [done |].
  cbn [without_ts forallb] in Hno. apply andb_true_iff in Hno as [Hts Hrest].
  cbn [range_streams].
  assert (handle_response c provider responseTS acc stream s = (Returned acc, s))
    as Hone.
  { unfold handle_response. by destruct (responseTS !! stream) as [[ts1|]|]. }
  rewrite (run_bind _ _ _ _ _ Hone). by apply IH.
Qed.

(** X20: Only streams that are listed and have a [ts] are accounted.  When no
    listed request stream has a [ts] (none, or a nil one) and no listed
    response stream has one, the tracking [unlock_with_trace_and_span]
    records [isHTTP2], reads [active_requests], and is from there on
    [unlock_with_flags]: it returns the counter as read and the latency of
    [unlock_with_flags]; entries of the two [ts] maps for streams that
    are not listed are never looked at.  In particular this is so for
    empty stream lists. *)
Theorem unlock_with_trace_and_span_without_ts :
  forall serial0 flowID0 seq ack local c ts0 (provider : TracedFlowProvider)
         ctx flags h2 rs ps (rts pts : gmap Z (option traceAndSpan)) s x,
    carriers s !! c = Some x ->
    without_ts true rts rs = true ->
    without_ts false pts ps = true ->
    UnlockWithTraceAndSpanFN serial0 flowID0 seq ack local c ts0 provider
      ctx flags h2 rs ps rts pts s =
    (do '(_, lockLatency) <- UnlockWithTCPFlagsFN flowID0 c ts0 ctx flags;
     ret (activeRequests x, lockLatency))
      (set_carriers (<[c := with_isHTTP2 h2 x]>) s).
Proof.
  intros serial0 flowID0 seq ack local c ts0 provider ctx flags h2 rs ps rts pts
    s x Hc Hrs Hps.
  unfold UnlockWithTraceAndSpanFN.
  rewrite (run_bind _ _ _ _ _ (run_updateCarrier _ _ _ (with_isHTTP2 h2) Hc)).
  set (s0 := set_carriers (<[c := with_isHTTP2 h2 x]>) s).
  assert (carriers s0 !! c = Some (with_isHTTP2 h2 x)) as Hc0 by (subst s0; lk).
  rewrite (run_bind _ _ _ _ _ (run_activeRequests_Load _ _ _ Hc0)).
  rewrite range_streams_guard.
  rewrite (run_bind _ _ _ _ _
             (request_loop_without_ts serial0 flowID0 seq ack local c flags rts rs
                _ s0 Hrs)).
  rewrite range_streams_guard.
  by rewrite (run_bind _ _ _ _ _ (response_loop_without_ts c provider pts ps _ s0 Hps)).
Qed.

Lemma unlock_with_trace_and_span_without_ts_witness :
  fst (UnlockWithTraceAndSpanFN 1 1 1000 0 false 0%nat 0
         (fst (getTracedFlow 1 1000 0 false (held_state 3 false)))
         0%nat (Z.lor tcpPsh tcpAck) false [10; 11] [12]
         {[ 10 := None; 13 := Some T1 ]} {[ 14 := Some T1 ]} (held_state 3 false))
  = Returned (3, 0).
Proof.
  assert (without_ts true
            ({[ 10 := None; 13 := Some T1 ]} : gmap Z (option traceAndSpan))
            [10; 11] = true) as Hrs by (vm_compute; reflexivity).
  assert (without_ts false ({[ 14 := Some T1 ]} : gmap Z (option traceAndSpan))
            [12] = true) as Hps by (vm_compute; reflexivity).
  rewrite (unlock_with_trace_and_span_without_ts 1 1 1000 0 false 0%nat 0
             (fst (getTracedFlow 1 1000 0 false (held_state 3 false)))
             0%nat (Z.lor tcpPsh tcpAck) false [10; 11] [12] _ _
             (held_state 3 false) (held_carrier 3 false) eq_refl Hrs Hps).
  by vm_compute.
Defined.

(** ** Well-formedness is an invariant *)

#[local] Instance wf_kept_preorder : PreOrder wf_kept.
Proof.
  split.
  - intros s Hwf. by split_and!.
  - intros s1 s2 s3 H12 H23 Hwf.
    destruct (H12 Hwf) as (Hwf2 & Ht2 & Hc2).
    destruct (H23 Hwf2) as (Hwf3 & Ht3 & Hc3).
    split_and!; auto.
Qed.

Lemma heap_wf_allocated s f : heap_wf s -> index_allocated f s = true.
Proof.
  intros [Hidx Hheap]. unfold index_allocated.
  destruct (flowToStreamToSequenceMap s !! f) as [l|] eqn:Hf; [| done].
  destruct (Hidx f l Hf) as [m Hm]. rewrite Hm.
  apply forallb_forall. intros t Hin. apply bool_decide_eq_true.
  unfold flows_of in Hin. apply in_concat in Hin as (ts0 & Hts & Hin).
  apply in_map_iff in Hts as ([sid sttsm] & <- & He).
  apply list_elem_of_In, elem_of_map_to_list in He.
  cbn [snd] in Hin. apply in_map_iff in Hin as ([k t'] & <- & Hin).
  by eapply Hheap.
Qed.

(** Steps that leave the index, the stream maps and the carrier map
    alone and free nothing. *)
Lemma wf_kept_other s s' :
  flowToStreamToSequenceMap s' = flowToStreamToSequenceMap s ->
  streamMaps s' = streamMaps s -> MutexMap s' = MutexMap s ->
  (forall t, is_Some (tracedFlows s !! t) -> is_Some (tracedFlows s' !! t)) ->
  (forall c, is_Some (carriers s !! c) -> is_Some (carriers s' !! c)) ->
  wf_kept s s'.
Proof.
  intros Hidx Hsm Hmm Htf Hcs [[H1 H2] H3]. split; [| by split].
  split; [split |].
  - intros f l. rewrite Hidx, Hsm. apply H1.
  - intros l m sid sttsm k t. rewrite Hsm. intros Hl Hs Hin.
    apply Htf. by eapply H2.
  - intros f c. rewrite Hmm. intros Hf. apply Hcs. by eapply H3.
Qed.

Section WfKept.
Local Abbreviation G := wf_kept.

Lemma wk_storeCarrier c x : guarantees G (storeCarrier c x).
Proof.
  intros s. apply wf_kept_other; try done. intros c' Hc'. cbn.
  destruct (decide (c = c')) as [<- | Hne];
    [rewrite lookup_insert_eq; by eexists | by rewrite lookup_insert_ne].
Qed.

Lemma wk_storeTracedFlow t x : guarantees G (storeTracedFlow t x).
Proof.
  intros s. apply wf_kept_other; try done. intros t' Ht'. cbn.
  destruct (decide (t = t')) as [<- | Hne];
    [rewrite lookup_insert_eq; by eexists | by rewrite lookup_insert_ne].
Qed.

Lemma wk_set_registry f : guarantees G (modify (set_registry f)).
Proof. intros s. by apply wf_kept_other. Qed.

Lemma wk_set_untrackTimers f : guarantees G (modify (set_untrackTimers f)).
Proof. intros s. by apply wf_kept_other. Qed.

Lemma wk_MutexMap_delete f : guarantees G (modify (set_MutexMap (delete f))).
Proof.
  intros s [Hh Hc]. split; [| by split]. split; [done |].
  intros f' c. cbn. intros Hf'.
  apply lookup_delete_Some in Hf' as [_ Hf']. by eapply Hc.
Qed.

Lemma wk_index_delete f : guarantees G (modify (set_index (delete f))).
Proof.
  intros s [[H1 H2] Hc]. split; [| by split]. split; [| done].
  split; [| exact H2].
  intros f' l. cbn. intros Hf'.
  apply lookup_delete_Some in Hf' as [_ Hf']. by eapply H1.
Qed.

Lemma wk_updateCarrier c f : guarantees G (updateCarrier c f).
Proof. pose proof wk_storeCarrier. unfold updateCarrier. guar. Qed.

Lemma wk_activeRequests_Add c d : guarantees G (activeRequests_Add c d).
Proof. pose proof wk_storeCarrier. unfold activeRequests_Add. guar. Qed.

Lemma wk_wg_Add c d : guarantees G (wg_Add c d).
Proof. pose proof wk_storeCarrier. unfold wg_Add. guar. Qed.

Lemma wk_isActive_CompareAndSwap t old new :
  guarantees G (isActive_CompareAndSwap t old new).
Proof. pose proof wk_storeTracedFlow. unfold isActive_CompareAndSwap. guar. Qed.

Lemma wk_unblocker_Stop t : guarantees G (unblocker_Stop t).
Proof. pose proof wk_storeTracedFlow. unfold unblocker_Stop. guar. Qed.

Lemma wk_drain fuel lock : guarantees G (drain fuel lock).
Proof.
  pose proof wk_activeRequests_Add. pose proof wk_wg_Add.
  induction fuel as [|fuel IH]; cbn [drain]; [guar |].
  unfold activeRequests_Load, wg_Done. guar.
Qed.

Lemma wk_untrack_flow t : guarantees G (untrack_flow t).
Proof.
  pose proof wk_isActive_CompareAndSwap. pose proof wk_unblocker_Stop.
  pose proof wk_set_registry.
  unfold untrack_flow. guar.
Qed.

Lemma skipmap_Delete_In k (m : list (Z * nat)) e :
  In e (skipmap_Delete k m) -> In e m.
Proof.
  induction m as [|[k' v'] m IH]; cbn [skipmap_Delete]; [done |].
  destruct (k =? k'); [by right |].
  intros [<- | Hin]; [by left | right; by apply IH].
Qed.

Lemma skipmap_Delete_all_In ks (m : list (Z * nat)) e :
  In e (fold_left (fun acc k => skipmap_Delete k acc) ks m) -> In e m.
Proof.
  revert m. induction ks as [|k ks IH]; intros m; cbn [fold_left]; [done |].
  intros Hin. eapply skipmap_Delete_In. by apply IH.
Qed.

(** Storing, under [l], a stream map whose traced flows are allocated. *)
Lemma wf_kept_storeStreamMap s l (m : gmap Z (list (Z * nat))) :
  (engine_wf s ->
   forall sid sttsm k t, m !! sid = Some sttsm -> In (k, t) sttsm ->
                         is_Some (tracedFlows s !! t)) ->
  wf_kept s (set_streamMaps (<[l := m]>) s).
Proof.
  intros Hm Hwf. pose proof Hwf as [[H1 H2] H3]. split; [| by split].
  split; [split | done].
  - intros f l' Hf. cbn.
    destruct (decide (l = l')) as [<- | Hne];
      [rewrite lookup_insert_eq; by eexists |].
    rewrite lookup_insert_ne by done. by eapply H1.
  - intros l' m' sid sttsm k t. cbn.
    destruct (decide (l = l')) as [<- | Hne].
    + rewrite lookup_insert_eq. intros [= <-]. by apply Hm.
    + rewrite lookup_insert_ne by done. apply H2.
Qed.

Lemma wk_untrack_stream l stream (sttsm : list (Z * nat)) s :
  (engine_wf s -> forall k t, In (k, t) sttsm -> is_Some (tracedFlows s !! t)) ->
  wf_kept s (snd (untrack_stream l stream sttsm s)).
Proof.
  intros Hall. unfold untrack_stream.
  assert (guarantees wf_kept (forM_ sttsm (fun entry => untrack_flow (snd entry))))
    as Hg by (pose proof wk_untrack_flow; guar).
  specialize (Hg s). unfold bind at 1.
  destruct (forM_ sttsm (fun entry => untrack_flow (snd entry)) s)
    as [[[]| |] s1]; cbn [snd] in *; [| done..].
  unfold bind, loadStreamMap.
  destruct (streamMaps s1 !! l) as [m|] eqn:Hm; [| done].
  cbn [storeStreamMap modify snd].
  intros Hwf. destruct (Hg Hwf) as (Hwf1 & Ht1 & Hc1).
  assert (wf_kept s1 (set_streamMaps (<[l := <[stream :=
            fold_left (fun acc k => skipmap_Delete k acc) (rev (map fst sttsm)) sttsm]> m]>) s1))
    as Hst.
  { apply wf_kept_storeStreamMap.
    intros [[_ H2] _] sid sttsm' k t Hs Hin.
    destruct (decide (stream = sid)) as [<- | Hne].
    - rewrite lookup_insert_eq in Hs. injection Hs as <-.
      apply skipmap_Delete_all_In in Hin. apply Ht1. by eapply Hall.
    - rewrite lookup_insert_ne in Hs by done. by eapply H2. }
  destruct (Hst Hwf1) as (Hwf2 & Ht2 & Hc2). split_and!; auto.
Qed.

Lemma wk_foreach_untrack l (entries : list (Z * list (Z * nat))) s :
  (engine_wf s ->
   forall sid sttsm k t, In (sid, sttsm) entries -> In (k, t) sttsm ->
                         is_Some (tracedFlows s !! t)) ->
  wf_kept s (snd (forM_ entries (fun e => untrack_stream l (fst e) (snd e)) s)).
Proof.
  revert s. induction entries as [|[sid sttsm] entries IH]; intros s Hall;
    cbn [forM_]; [reflexivity |].
  pose proof (wk_untrack_stream l sid sttsm s) as H1.
  unfold bind. cbn [fst snd] in *.
  destruct (untrack_stream l sid sttsm s) as [[[]| |] s1] eqn:Hrun; cbn [snd] in *.
  - intros Hwf.
    destruct (H1 ltac:(intros Hw k t Hin; eapply Hall; [done | by left | done]) Hwf)
      as (Hwf1 & Ht1 & Hc1).
    destruct (IH s1) as (Hwf2 & Ht2 & Hc2); [| exact Hwf1 |].
    + intros _ sid' sttsm' k t Hin1 Hin2. apply Ht1.
      eapply Hall; [done | by right | done].
    + split_and!; auto.
  - apply H1. intros Hw k t Hin. eapply Hall; [done | by left | done].
  - apply H1. intros Hw k t Hin. eapply Hall; [done | by left | done].
Qed.

Lemma wk_delete_stream l stream :
  guarantees G (do m' <- loadStreamMap l; storeStreamMap l (delete stream m')).
Proof.
  intros s. unfold bind, loadStreamMap.
  destruct (streamMaps s !! l) as [m|] eqn:Hm; [| reflexivity].
  cbn [storeStreamMap modify snd].
  apply wf_kept_storeStreamMap.
  intros [[_ H2] _] sid sttsm k t Hs Hin.
  apply lookup_delete_Some in Hs as [_ Hs]. by eapply H2.
Qed.

Lemma wk_untrackConnection flowID0 lock :
  guarantees G (untrackConnection flowID0 lock).
Proof.
  pose proof wk_drain as Hk1. pose proof wk_MutexMap_delete as Hk2.
  pose proof wk_index_delete as Hk3. pose proof wk_delete_stream as Hk4.
  unfold untrackConnection.
  apply g_defer_recover; try apply _.
  apply g_bind; try apply _; [guar |]. intros idx.
  apply g_bind; try apply _; [| unfold activeRequests_Load; guar].
  destruct (idx !! flowID0) as [l|] eqn:Hidx; [| guar].
  intros s. unfold bind at 1. unfold loadStreamMap at 1.
  destruct (streamMaps s !! l) as [m|] eqn:Hm; [| reflexivity].
  pose proof (wk_foreach_untrack l (map_to_list m) s) as Hall1.
  unfold bind at 1.
  destruct (forM_ (map_to_list m) (fun e => untrack_stream l (fst e) (snd e)) s)
    as [[[]| |] s1] eqn:Hrun; cbn [snd] in Hall1.
  - assert (guarantees G
              (run forM_ (rev (map fst (map_to_list m)))
                     (fun stream => do m' <- loadStreamMap l;
                                    storeStreamMap l (delete stream m'));
               modify (set_index (delete flowID0)))) as Hg.
    { apply g_bind; try apply _; [| intros; apply Hk3].
      apply g_forM_; try apply _. intros stream. apply Hk4. }
    etransitivity; [| apply Hg].
    apply Hall1. intros [[_ H2] _] sid sttsm k t Hin1 Hin2.
    apply list_elem_of_In, elem_of_map_to_list in Hin1. by eapply H2.
  - apply Hall1. intros [[_ H2] _] sid sttsm k t Hin1 Hin2.
    apply list_elem_of_In, elem_of_map_to_list in Hin1. by eapply H2.
  - apply Hall1. intros [[_ H2] _] sid sttsm k t Hin1 Hin2.
    apply list_elem_of_In, elem_of_map_to_list in Hin1. by eapply H2.
Qed.
Lemma wk_trackConnection lock serial0 flowID0 flags seq ack local ts0 :
  guarantees G (trackConnection lock serial0 flowID0 flags seq ack local ts0).
Proof.
  intros s. destruct ts0 as [ts1|]; [| reflexivity].
  set (t := fresh (dom (tracedFlows s))).
  set (s0 := set_tracedFlows (<[t := tracked_flow lock serial0 flowID0 ts1 s]>) s).
  assert (wf_kept s s0) as H0.
  { apply wf_kept_other; try done. intros t' Ht'. subst s0. cbn.
    destruct (decide (t = t')) as [<- | Hne];
      [rewrite lookup_insert_eq; by eexists | by rewrite lookup_insert_ne]. }
  assert (is_Some (tracedFlows s0 !! t)) as Ht0
    by (subst s0; cbn; rewrite lookup_insert_eq; by eexists).
  intros Hwf. destruct (H0 Hwf) as (Hwf0 & Htf0 & Hcs0).
  assert (exists s',
            indexTracedFlow flowID0 seq ack local ts1 t s0 = (Returned tt, s') /\
            wf_kept s0 s') as (s' & Hrun & Hkept).
  { pose proof Hwf0 as [[H1 H2] H3].
    destruct (flowToStreamToSequenceMap s0 !! flowID0) as [l|] eqn:Hidx.
    - destruct (H1 _ _ Hidx) as [m Hm].
      destruct (m !! streamID ts1) as [v|] eqn:Hk.
      + exists s0. split; [| reflexivity].
        by eapply run_index_tracked_stream.
      + eexists. split; [by eapply run_index_new_stream |].
        apply wf_kept_storeStreamMap.
        intros _ sid sttsm k t' Hs Hin.
        destruct (decide (streamID ts1 = sid)) as [<- | Hne].
        * rewrite lookup_insert_eq in Hs. injection Hs as <-.
          destruct Hin as [[= _ <-] | []]. exact Ht0.
        * rewrite lookup_insert_ne in Hs by done. by eapply H2.
    - eexists. split; [by apply run_index_new_flow |].
      set (l := fresh (dom (streamMaps s0))).
      set (v := [(if local then ack else seq, t)]).
      intros _. split; [| by split].
      split; [split |].
      + intros f l'. cbn.
        destruct (decide (flowID0 = f)) as [<- | Hne].
        * rewrite lookup_insert_eq. intros [= <-].
          rewrite lookup_insert_eq. by eexists.
        * rewrite lookup_insert_ne by done. intros Hf.
          destruct (H1 _ _ Hf) as [m' Hm'].
          destruct (decide (l = l')) as [<- | Hne'];
            [rewrite lookup_insert_eq; by eexists |].
          rewrite lookup_insert_ne by done. by eexists.
      + intros l' m' sid sttsm k t'. cbn.
        destruct (decide (l = l')) as [<- | Hne].
        * rewrite lookup_insert_eq. intros [= <-] Hs Hin.
          apply lookup_singleton_Some in Hs as [_ <-].
          destruct Hin as [[= _ <-] | []]. exact Ht0.
        * rewrite lookup_insert_ne by done. apply H2.
      + exact H3. }
  rewrite (run_trackConnection lock serial0 flowID0 flags seq ack local ts1 s s' Hrun).
  cbn [snd]. destruct (Hkept Hwf0) as (Hwf' & Htf' & Hcs'). split_and!; auto.
Qed.

Lemma wk_lock_carrier serial0 flowID0 : guarantees G (lock_carrier serial0 flowID0).
Proof.
  intros s. unfold lock_carrier.
  rewrite (run_bind (gets MutexMap) _ s (MutexMap s) s) by done.
  destruct (MutexMap s !! flowID0) as [c|] eqn:Hmm; [reflexivity |].
  cbn. intros [Hh Hc].
  assert (forall c, is_Some (carriers s !! c) ->
                    is_Some (<[fresh (dom (carriers s)) := 
                      {| mu := false; wg := 0; serial := serial0; flowID := flowID0;
                         released := false; createdAt := now s;
                         lastLockedAt := None; lastUnlockedAt := None;
                         isHTTP2 := false; activeRequests := 0 |}]> (carriers s) !! c))
    as Hkeep.
  { intros c Hx. destruct (decide (fresh (dom (carriers s)) = c)) as [<- | Hne];
      [rewrite lookup_insert_eq; by eexists | by rewrite lookup_insert_ne]. }
  split; [| by split]. split; [done |].
  intros f c. cbn.
  destruct (decide (flowID0 = f)) as [<- | Hne].
  - rewrite lookup_insert_eq. intros [= <-]. rewrite lookup_insert_eq. by eexists.
  - rewrite lookup_insert_ne by done. intros Hf. apply Hkeep. by eapply Hc.
Qed.

Lemma wk__unlock c : guarantees G (_unlock c).
Proof.
  pose proof wk_storeCarrier. pose proof wk_updateCarrier.
  unfold _unlock, mu_Unlock. guar.
Qed.

Lemma wk_UnlockAndReleaseFN flowID0 c ts0 ctx :
  guarantees G (UnlockAndReleaseFN flowID0 c ts0 ctx).
Proof.
  pose proof wk__unlock. pose proof wk_untrackConnection.
  pose proof wk_storeCarrier. pose proof wk_set_untrackTimers.
  unfold UnlockAndReleaseFN, schedule_untrack, activeRequests_Load,
    released_CompareAndSwap.
  guar.
Qed.

Lemma wk_UnlockWithTCPFlagsFN flowID0 c ts0 ctx flags :
  guarantees G (UnlockWithTCPFlagsFN flowID0 c ts0 ctx flags).
Proof.
  pose proof wk__unlock. pose proof wk_UnlockAndReleaseFN.
  unfold UnlockWithTCPFlagsFN. guar.
Qed.

Lemma wk_UnlockWithTraceAndSpanFN serial0 flowID0 seq ack local c ts0 provider
    ctx flags h2 rs ps rts pts :
  guarantees G
    (UnlockWithTraceAndSpanFN serial0 flowID0 seq ack local c ts0 provider
       ctx flags h2 rs ps rts pts).
Proof.
  pose proof wk_UnlockWithTCPFlagsFN. pose proof wk_trackConnection.
  pose proof wk_updateCarrier. pose proof wk_activeRequests_Add.
  pose proof wk_wg_Add.
  pose proof wk_isActive_CompareAndSwap. pose proof wk_unblocker_Stop.
  unfold UnlockWithTraceAndSpanFN, handle_request, handle_response,
    activeRequests_Load, wg_Done.
  guar.
Qed.

Lemma wk_lock_steps ctx serial0 flowID0 flags seq ack local n pc s :
  G s (snd (lock_steps ctx serial0 flowID0 flags seq ack local n pc s)).
Proof.
  assert (forall pc s pc' s',
            lock_step ctx serial0 flowID0 flags seq ack local pc s = Some (pc', s') ->
            G s s') as Hstep.
  { clear pc s. intros pc s pc' s'. destruct pc as [|c|c|c|h p]; cbn [lock_step].
    - pose proof (wk_lock_carrier serial0 flowID0 s) as Hg.
      destruct (lock_carrier serial0 flowID0 s) as [[c| |] s1]; [| done..].
      by intros [= <- <-].
    - destruct (isConnectionTermination flags);
        [destruct (bool_decide _) |]; intros [= <- <-]; reflexivity.
    - destruct (carriers s !! c) as [x|]; [| done].
      destruct (wg x =? 0); [| done]. intros [= <- <-]. reflexivity.
    - destruct (carriers s !! c) as [x|]; [| done].
      destruct (mu x); [done |].
      assert (guarantees G
                (run mu_Lock c; lock_locked serial0 flowID0 flags seq ack local c))
        as Hg.
      { pose proof wk_updateCarrier.
        unfold mu_Lock, lock_locked, activeRequests_Load. guar. }
      specialize (Hg s).
      destruct ((run mu_Lock c; lock_locked serial0 flowID0 flags seq ack local c) s)
        as [[[h p]| |] s1]; [| done..].
      by intros [= <- <-].
    - done. }
  revert pc s. induction n as [|n IH]; intros pc s; cbn [lock_steps]; [reflexivity |].
  destruct (lock_step ctx serial0 flowID0 flags seq ack local pc s)
    as [[pc' s']|] eqn:Hs; [| reflexivity].
  etransitivity; [by eapply Hstep | apply IH].
Qed.

Lemma wk_reaper_tick : guarantees G reaper_tick.
Proof.
  pose proof wk_untrackConnection. pose proof wk_MutexMap_delete.
  pose proof wk_storeCarrier.
  unfold reaper_tick, reap, mu_TryLock, mu_Unlock. guar.
Qed.

Lemma wk_exec o s : G s (fst (exec o s)).
Proof.
  destruct o; unfold exec; try rewrite fst_reported; cbn [fst].
  - by apply wf_kept_other.
  - by apply wf_kept_other.
  - apply wk_lock_steps.
  - apply wk_UnlockWithTCPFlagsFN.
  - apply wk_UnlockAndReleaseFN.
  - apply wk_UnlockWithTCPFlagsFN.
  - apply wk_UnlockWithTraceAndSpanFN.
  - assert (guarantees G
              (UnlockWithTraceAndSpanFallback flowID0 carrier lockAcquiredTS
                 activeRequests0 ctx tcpFlags' false [] [] ∅ ∅)) as Hg
      by (pose proof wk_UnlockWithTCPFlagsFN;
          unfold UnlockWithTraceAndSpanFallback; guar).
    apply Hg.
  - unfold unblocker_expire.
    destruct (tracedFlows s !! t) as [y|] eqn:Ht; [| reflexivity].
    destruct (phase (unblocker y)) eqn:Hp; [| reflexivity..].
    destruct (due (unblocker y) <=? now s); [| reflexivity]. cbn.
    apply (wk_storeTracedFlow t _ s).
  - unfold unblocker_cas.
    destruct (tracedFlows s !! t) as [y|] eqn:Ht; [| reflexivity].
    destruct (phase (unblocker y)) as [| |[]] eqn:Hp; try reflexivity. cbn.
    apply (wk_storeTracedFlow t _ s).
  - unfold unblocker_run.
    destruct (tracedFlows s !! t) as [y|] eqn:Ht; [| reflexivity].
    destruct (phase (unblocker y)) as [| |[]] eqn:Hp; try reflexivity.
    destruct (carriers s !! tf_lock y) as [z|]; [| reflexivity].
    destruct (mu z); [reflexivity |]. cbn [snd].
    assert (guarantees G
              (run mu_Lock (tf_lock y); run unblocker_critical (tf_lock y);
               storeTracedFlow t (with_phase (Expired Finished) y))) as Hg.
    { pose proof wk_updateCarrier. pose proof wk_storeCarrier.
      pose proof wk_activeRequests_Add. pose proof wk_wg_Add.
      pose proof wk_storeTracedFlow.
      unfold mu_Lock, unblocker_critical, mu_Unlock, wg_Done. guar. }
    apply Hg.
  - destruct (untrackTimers s !! i) as [ut|]; [| reflexivity].
    destruct (ut_due ut <=? now s); [| reflexivity].
    etransitivity; [| apply wk_untrackConnection]. by apply wf_kept_other.
  - apply wk_reaper_tick.
Qed.
End WfKept.

(** X21: Well-formedness is an invariant of the engine.  The engine built by
    [newFlowMutex] is well-formed, and every run from a well-formed
    engine (calls of [lock] and of the unlock variants with any
    arguments, timers firing, reaper ticks, the clock, cancellations)
    ends in a well-formed engine without having freed a traced flow or a
    carrier: every carrier registered for a flow is allocated, every
    stream map the index points to is allocated, and so is every traced
    flow filed in it, for every flow. *)
Theorem engine_stays_well_formed :
  engine_wf newFlowMutex /\
  (forall ops s,
     engine_wf s ->
     engine_wf (execs ops s) /\
     (forall f, index_allocated f (execs ops s) = true) /\
     (forall t, is_Some (tracedFlows s !! t) ->
                is_Some (tracedFlows (execs ops s) !! t)) /\
     (forall c, is_Some (carriers s !! c) ->
                is_Some (carriers (execs ops s) !! c))).
Proof.
  split.
  - split; [split |]; intros *; cbn; by rewrite ?lookup_empty.
  - intros ops. induction ops as [|o ops IH]; intros s Hwf; cbn [execs].
    + split_and!; try done. intros f. apply heap_wf_allocated. apply Hwf.
    + destruct (wk_exec o s Hwf) as (Hwf1 & Ht1 & Hc1).
      destruct (IH _ Hwf1) as (Hwf2 & Halloc & Ht2 & Hc2).
      split_and!; auto.
Qed.

Lemma engine_stays_well_formed_witness :
  index_allocated 1
    (execs [CallLock 0%nat 1 1 24 1000 0 false;
            CallUnlockWithTraceAndSpan 1 1 1000 0 false 0%nat 0
              (fst (getTracedFlow 1 1000 0 false newFlowMutex))
              0%nat 24 false [10] [] {[ 10 := Some T1 ]} ∅;
            Tick trackingDeadline; ReaperTick]
       newFlowMutex) = true.
Proof.
  destruct engine_stays_well_formed as [Hnew H].
  destruct (H [CallLock 0%nat 1 1 24 1000 0 false;
               CallUnlockWithTraceAndSpan 1 1 1000 0 false 0%nat 0
                 (fst (getTracedFlow 1 1000 0 false newFlowMutex))
                 0%nat 24 false [10] [] {[ 10 := Some T1 ]} ∅;
               Tick trackingDeadline; ReaperTick]
              newFlowMutex Hnew) as (_ & Halloc & _).
  apply Halloc.
Defined.

(** * Properties of the packet filters *)

(** X22: The filter decision fails open on what it cannot see.  A packet
    without an IP layer is judged by its transport layer alone, a packet
    without TCP and UDP by its IP layer alone, and in both cases the
    socket filter is not consulted; [shouldTranslate] accepts a packet
    with none of the four layers whatever the filters are. *)
Theorem shouldTranslate_fails_open :
  forall filters p,
    (LayerTypeIPv4 p = None -> LayerTypeIPv6 p = None ->
     shouldTranslate filters p = snd (isL4Allowed filters p)) /\
    (LayerTypeTCP p = None -> LayerTypeUDP p = None ->
     shouldTranslate filters p = snd (isL3Allowed filters p)) /\
    (LayerTypeIPv4 p = None -> LayerTypeIPv6 p = None ->
     LayerTypeTCP p = None -> LayerTypeUDP p = None ->
     shouldTranslate filters p = true).
Proof.
  intros filters p. split_and!.
  - intros H4 H6. unfold shouldTranslate, isL3Allowed. rewrite H4, H6.
    destruct (isL4Allowed filters p) as [[srcPort dstPort] []]; [| done].
    by destruct srcPort, dstPort.
  - intros Ht Hu. unfold shouldTranslate, isL4Allowed. rewrite Ht, Hu.
    destruct (isL3Allowed filters p) as [[srcAddr dstAddr] []]; [| done].
    by destruct srcAddr.
  - intros H4 H6 Ht Hu. unfold shouldTranslate, isL3Allowed, isL4Allowed.
    by rewrite H4, H6, Ht, Hu.
Qed.

Lemma shouldTranslate_fails_open_witness :
  shouldTranslate deny_IPv4_TCP arp_packet = true /\
  shouldTranslate allow_web arp_packet = snd (isL4Allowed allow_web arp_packet).
Proof.
  split.
  - destruct (shouldTranslate_fails_open deny_IPv4_TCP arp_packet) as (_ & _ & H).
    by apply H.
  - destruct (shouldTranslate_fails_open allow_web arp_packet) as (H & _).
    by apply H.
Defined.

(** X23: The filters fail fast, in a fixed order.  An IPv4 packet is dropped
    when the protocol filter does not allow IPv4, and a TCP segment when
    it does not allow TCP or when the flags filter rejects its flags,
    whatever the address, port and socket filters say; and a packet with
    an IPv4 layer and a TCP layer is judged without looking at an IPv6 or
    UDP layer it may also carry. *)
Theorem shouldTranslate_precedence :
  forall filters p,
    (forall ip4, LayerTypeIPv4 p = Some ip4 ->
                 HasL3Protos filters = true -> AllowsIPv4 filters = false ->
                 shouldTranslate filters p = false) /\
    (forall tcp, LayerTypeTCP p = Some tcp ->
                 HasL4Protos filters = true -> AllowsTCP filters = false ->
                 shouldTranslate filters p = false) /\
    (forall tcp, LayerTypeTCP p = Some tcp ->
                 HasTCPflags filters = true ->
                 AllowsAnyTCPflags filters (tcp_flags tcp) = false ->
                 shouldTranslate filters p = false) /\
    (forall ip4 tcp ip6 udp,
       LayerTypeIPv4 p = Some ip4 -> LayerTypeTCP p = Some tcp ->
       shouldTranslate filters (with_IPv6_UDP ip6 udp p)
       = shouldTranslate filters p).
Proof.
  intros filters p. split_and!.
  - intros ip4 H4 Hp Ha. unfold shouldTranslate, isL3Allowed, isIPv4Allowed.
    rewrite H4, Hp, Ha. cbn.
    by destruct (isL4Allowed filters p) as [[srcPort dstPort] l4].
  - intros tcp Ht Hp Ha. unfold shouldTranslate, isL4Allowed.
    rewrite Ht, Hp, Ha. cbn.
    destruct (isL3Allowed filters p) as [[srcAddr dstAddr] l3].
    by rewrite andb_false_r.
  - intros tcp Ht Hf Ha. unfold shouldTranslate, isL4Allowed.
    rewrite Ht, Hf, Ha. cbn.
    destruct (isL3Allowed filters p) as [[srcAddr dstAddr] l3].
    destruct (HasL4Protos filters && negb (AllowsTCP filters));
      by rewrite andb_false_r.
  - intros ip4 tcp ip6 udp H4 Ht.
    unfold shouldTranslate, isL3Allowed, isL4Allowed. cbn.
    by rewrite H4, Ht.
Qed.

Lemma shouldTranslate_precedence_witness :
  shouldTranslate deny_IPv4_TCP tcp4_packet = false.
Proof.
  destruct (shouldTranslate_precedence deny_IPv4_TCP tcp4_packet) as (H & _).
  by eapply H.
Defined.

(** X24: A packet that [shouldTranslate] accepts has passed every
    configured filter of the layers it is judged by: the protocol and
    address filters of its IPv4 layer, or of its IPv6 layer when it has
    no IPv4 layer; the protocol, flags and port filters of its TCP
    layer, or the protocol and port filters of its UDP layer when it has
    no TCP layer; and, when it has both an IP and a transport layer, the
    socket filter on the addresses and ports of these two.  The other
    layers are not filtered: the decision does not depend on an IPv6
    layer beside an IPv4 layer, nor on a UDP layer beside a TCP layer. *)
Theorem shouldTranslate_sound :
  forall filters p,
    (shouldTranslate filters p = true ->
     (forall ip4, LayerTypeIPv4 p = Some ip4 ->
        (HasL3Protos filters = true -> AllowsIPv4 filters = true) /\
        (HasIPv4s filters = true ->
         AllowsIPv4Addr filters (SrcIP ip4) = true /\
         AllowsIPv4Addr filters (DstIP ip4) = true)) /\
     (forall ip6, LayerTypeIPv4 p = None -> LayerTypeIPv6 p = Some ip6 ->
        (HasL3Protos filters = true -> AllowsIPv6 filters = true) /\
        (HasIPv6s filters = true ->
         AllowsIPv6Addr filters (SrcIP ip6) = true /\
         AllowsIPv6Addr filters (DstIP ip6) = true)) /\
     (forall tcp, LayerTypeTCP p = Some tcp ->
        (HasL4Protos filters = true -> AllowsTCP filters = true) /\
        (HasTCPflags filters = true ->
         AllowsAnyTCPflags filters (tcp_flags tcp) = true) /\
        (HasL4Addrs filters = true ->
         AllowsAnyL4Addr filters (tcp_SrcPort tcp) (tcp_DstPort tcp) = true)) /\
     (forall udp, LayerTypeTCP p = None -> LayerTypeUDP p = Some udp ->
        (HasL4Protos filters = true -> AllowsUDP filters = true) /\
        (HasL4Addrs filters = true ->
         AllowsAnyL4Addr filters (udp_SrcPort udp) (udp_DstPort udp) = true)) /\
     (forall srcAddr dstAddr srcPort dstPort l3 l4,
        isL3Allowed filters p = (Some srcAddr, Some dstAddr, l3) ->
        isL4Allowed filters p = (Some srcPort, Some dstPort, l4) ->
        AllowsSocket filters srcAddr srcPort dstAddr dstPort = true)) /\
    (forall ip4 ip6,
       LayerTypeIPv4 p = Some ip4 ->
       shouldTranslate filters (with_IPv6_UDP ip6 (LayerTypeUDP p) p)
       = shouldTranslate filters p) /\
    (forall tcp udp,
       LayerTypeTCP p = Some tcp ->
       shouldTranslate filters (with_IPv6_UDP (LayerTypeIPv6 p) udp p)
       = shouldTranslate filters p).
Proof.
  intros filters p. split; [| split].
  - intros Hyes.
    assert (snd (isL3Allowed filters p) = true /\ snd (isL4Allowed filters p) = true)
      as [H3 H4].
    { unfold shouldTranslate in Hyes.
      destruct (isL3Allowed filters p) as [[srcAddr dstAddr] []];
        destruct (isL4Allowed filters p) as [[srcPort dstPort] []]; by cbn in *. }
    split_and!.
    + intros ip4 Hl. unfold isL3Allowed, isIPv4Allowed, toIP4Addrs in H3.
      rewrite Hl in H3.
      destruct (HasL3Protos filters), (AllowsIPv4 filters), (HasIPv4s filters),
        (AllowsIPv4Addr filters (SrcIP ip4)); cbn in H3; by split.
    + intros ip6 Hn Hl. unfold isL3Allowed, isIPv6Allowed, toIP6Addrs in H3.
      rewrite Hn, Hl in H3.
      destruct (HasL3Protos filters), (AllowsIPv6 filters), (HasIPv6s filters),
        (AllowsIPv6Addr filters (SrcIP ip6)); cbn in H3; by split.
    + intros tcp Hl. unfold isL4Allowed, arePortsAllowed in H4. rewrite Hl in H4.
      destruct (HasL4Protos filters), (AllowsTCP filters), (HasTCPflags filters),
        (AllowsAnyTCPflags filters (tcp_flags tcp)), (HasL4Addrs filters),
        (AllowsAnyL4Addr filters (tcp_SrcPort tcp) (tcp_DstPort tcp));
        cbn in H4; by split_and!.
    + intros udp Hn Hl. unfold isL4Allowed, arePortsAllowed in H4.
      rewrite Hn, Hl in H4.
      destruct (HasL4Protos filters), (AllowsUDP filters), (HasL4Addrs filters),
        (AllowsAnyL4Addr filters (udp_SrcPort udp) (udp_DstPort udp));
        cbn in H4; by split_and!.
    + intros srcAddr dstAddr srcPort dstPort l3 l4 Hl3 Hl4.
      unfold shouldTranslate in Hyes. rewrite Hl3, Hl4 in Hyes.
      by destruct (l3 && l4).
  - intros ip4 ip6 H4.
    unfold shouldTranslate, isL3Allowed, isL4Allowed. cbn. by rewrite H4.
  - intros tcp udp Ht.
    unfold shouldTranslate, isL3Allowed, isL4Allowed. cbn. by rewrite Ht.
Qed.

Lemma shouldTranslate_sound_witness :
  (AllowsIPv4 allow_web = true /\
   AllowsIPv4Addr allow_web 1 = true /\ AllowsIPv4Addr allow_web 2 = true) /\
  (AllowsTCP allow_web = true /\ AllowsAnyTCPflags allow_web 24 = true /\
   AllowsAnyL4Addr allow_web 1000 80 = true) /\
  AllowsSocket allow_web 1 1000 2 80 = true /\
  shouldTranslate allow_web
    (with_IPv6_UDP (Some {| SrcIP := 7; DstIP := 8 |}) None tcp4_packet) = true.
Proof.
  destruct (shouldTranslate_sound allow_web tcp4_packet) as (H & H6 & _).
  destruct (H eq_refl) as (H4 & _ & Ht & _ & Hs).
  destruct (H4 _ eq_refl) as [Hp Ha]. destruct (Ha eq_refl) as [Hsrc Hdst].
  destruct (Ht _ eq_refl) as (Htp & Htf & Hta).
  split_and!.
  - exact (Hp eq_refl).
  - exact Hsrc.
  - exact Hdst.
  - exact (Htp eq_refl).
  - exact (Htf eq_refl).
  - exact (Hta eq_refl).
  - exact (Hs 1 2 1000 80 true true eq_refl eq_refl).
  - exact (eq_trans (H6 _ (Some {| SrcIP := 7; DstIP := 8 |}) eq_refl) eq_refl).
Defined.
